(** * Pia Carrot e Youkoso 3.3 text tool: dump.py and repack.py

  A shallow embedding of the extraction script (dump.py) and of the
  re-insertion script (repack.py), followed by the properties of the
  pointer-resolution / classification / relocation engine.

  Conventions.  Python [int] values are [Z].  A [bytes] / [bytearray]
  object is a list of byte values (each in [0, 256)), a [str] is a list
  of Unicode code points.  A Python dictionary keyed by integers is a
  stdpp [gmap Z _].  The interpreter is CPython 3.7 or later (the
  scripts use f-strings; [re.split] splits on empty matches since 3.7).

  Two tables of the CPython [shift_jis] codec are not part of the
  repository: the JIS X 0208 decoding map and the JIS encoding map.
  They are fields of the class [Tables]; the Unicode alphanumeric
  predicate behind the regular expression class [\w] is a third.  The
  decimal digits beyond ASCII, which the class [\d] and [int] accept,
  are the field of the class [Decimals]. *)

From Stdlib Require Import ZArith List Bool Lia String Ascii.
From stdpp Require Import base option list gmap.
Import ListNotations.

Local Open Scope Z_scope.

(** ** Python primitives *)

Module Py.

Definition len {A} (l : list A) : Z := Z.of_nat (length l).

(** Normalisation of one slice bound against a sequence of length [n]:
    negative bounds count from the end, everything is clamped. *)
Definition slice_index (n i : Z) : Z :=
  if i <? 0 then Z.max 0 (i + n) else Z.min i n.

(** [l[a:b]] *)
Definition slice {A} (l : list A) (a b : Z) : list A :=
  let n := len l in
  let a' := slice_index n a in
  let b' := slice_index n b in
  take (Z.to_nat (b' - a')) (drop (Z.to_nat a') l).

(** [l[a:b] = v] on a bytearray: the slice is replaced by [v], whatever
    the length of [v]; a slice that starts at or after the end appends. *)
Definition slice_assign {A} (l : list A) (a b : Z) (v : list A) : list A :=
  let n := len l in
  let a' := slice_index n a in
  let b' := Z.max a' (slice_index n b) in
  take (Z.to_nat a') l ++ v ++ drop (Z.to_nat b') l.

(** Position of the first [t] in [l], counting the head of [l] as [i];
    [-1] when there is none. *)
Fixpoint find_from (t : Z) (l : list Z) (i : Z) : Z :=
  match l with
  | [] => -1
  | x :: r => if x =? t then i else find_from t r (i + 1)
  end.

(** [data.find(bytes([t]), start)] for a one-byte needle. *)
Definition find (data : list Z) (t : Z) (start : Z) : Z :=
  let s := slice_index (len data) start in
  find_from t (drop (Z.to_nat s) data) s.

(** [range(start, stop, step)] for a positive step. *)
Definition range (start stop step : Z) : list Z :=
  map (fun k => start + Z.of_nat k * step)
      (seq 0 (Z.to_nat ((stop - start + step - 1) / step))).

(** [s.replace(a, b)] for one-element [a] and [b]. *)
Definition replace1 (a b : Z) (s : list Z) : list Z :=
  map (fun c => if c =? a then b else c) s.

(** [str.isspace] on one code point; also the class [\s] of [re]. *)
Definition isspace (c : Z) : bool :=
  ((0x09 <=? c) && (c <=? 0x0D)) || ((0x1C <=? c) && (c <=? 0x20))
  || (c =? 0x85) || (c =? 0xA0) || (c =? 0x1680)
  || ((0x2000 <=? c) && (c <=? 0x200A))
  || (c =? 0x2028) || (c =? 0x2029) || (c =? 0x202F) || (c =? 0x205F)
  || (c =? 0x3000).

Fixpoint lstrip (s : list Z) : list Z :=
  match s with
  | c :: r => if isspace c then lstrip r else s
  | [] => []
  end.

(** [s.strip()] *)
Definition strip (s : list Z) : list Z := rev (lstrip (rev (lstrip s))).

Fixpoint startswith (s p : list Z) : bool :=
  match p, s with
  | [], _ => true
  | a :: p', b :: s' => (a =? b) && startswith s' p'
  | _ :: _, [] => false
  end.

Definition endswith (s p : list Z) : bool := startswith (rev s) (rev p).

Definition list_eqb (a b : list Z) : bool :=
  bool_decide (a = b).

(** The longest prefix whose elements satisfy [p]. *)
Fixpoint span (p : Z -> bool) (s : list Z) : list Z :=
  match s with
  | c :: r => if p c then c :: span p r else []
  | [] => []
  end.

(** Value of a hexadecimal digit, either case. *)
Definition digit_value (c : Z) : option Z :=
  if (48 <=? c) && (c <=? 57) then Some (c - 48)
  else if (65 <=? c) && (c <=? 70) then Some (c - 55)
  else if (97 <=? c) && (c <=? 102) then Some (c - 87)
  else None.

(** [Py_ISSPACE]: ASCII white space. *)
Definition ascii_isspace (c : Z) : bool :=
  ((0x09 <=? c) && (c <=? 0x0D)) || (c =? 0x20).

(** [bytes.fromhex(s)]: pairs of hexadecimal digits, ASCII white space
    allowed between pairs; [None] stands for [ValueError]. *)
Fixpoint fromhex (s : list Z) : option (list Z) :=
  match s with
  | [] => Some []
  | c :: r =>
    if ascii_isspace c then fromhex r
    else
      match digit_value c, r with
      | Some top, c' :: r' =>
        match digit_value c' with
        | Some bot =>
          match fromhex r' with
          | Some b => Some ((top * 16 + bot) :: b)
          | None => None
          end
        | None => None
        end
      | _, _ => None
      end
  end.

(** Upper-case hexadecimal digit of a value below 16. *)
Definition hex_digit (d : Z) : Z := if d <? 10 then 48 + d else 55 + d.

(** [b.hex().upper()] *)
Definition hex_upper (b : list Z) : list Z :=
  flat_map (fun x => [hex_digit (x / 16); hex_digit (x mod 16)]) b.

(** [struct.unpack('<I', b)[0]]; [None] stands for [struct.error]. *)
Definition unpack_u32 (b : list Z) : option Z :=
  match b with
  | [b0; b1; b2; b3] => Some (b0 + 256 * b1 + 65536 * b2 + 16777216 * b3)
  | _ => None
  end.

(** [struct.pack('<I', v)]; [None] stands for [struct.error]. *)
Definition pack_u32 (v : Z) : option (list Z) :=
  if (0 <=? v) && (v <? 4294967296) then
    Some [v mod 256; (v / 256) mod 256; (v / 65536) mod 256; v / 16777216]
  else None.

(** [l[i] = v] on a bytearray; [None] stands for [IndexError]. *)
Definition setitem {A} (l : list A) (i : Z) (v : A) : option (list A) :=
  let n := len l in
  if (0 <=? i) && (i <? n) then Some (<[Z.to_nat i := v]> l)
  else if (- n <=? i) && (i <? 0) then Some (<[Z.to_nat (i + n) := v]> l)
  else None.

End Py.

Abbreviation bytes := (list Z).
Abbreviation str := (list Z).

(** Both scripts *)
Definition terminator : Z := 0x00.
Definition newline_char : Z := 0x0a.

(** ** Tables of the CPython runtime

  [jisx0208 c1 c2] is the code point that the decoding map gives to the
  JIS X 0208 code with bytes [c1], [c2] (both in [0x21, 0x7E]);
  [jisxcommon c] is the 16-bit code that the encoding map gives to the
  code point [c], with bit 15 set for a JIS X 0212 code;
  [isalnum c] is [str.isalnum] on the one-character string [c], which
  the embedding consults for the code points from 128 on. *)
Class Tables := {
  jisx0208 : Z -> Z -> option Z;
  jisxcommon : Z -> option Z;
  isalnum : Z -> bool
}.

(** ** The shift_jis codec and the escape tokens (dump.py, repack.py) *)

Module Codec.
Section WithTables.
Context {T : Tables}.

(** A codec error handler receives the offending bytes and returns the
    replacement text, or raises ([None]); decoding resumes right after
    the offending bytes. *)
Definition error_handler := bytes -> option str.

(** [errors='strict'] *)
Definition strict : error_handler := fun _ => None.

(** dump.py, [custom_sjis_error_handler]: the offending bytes in upper
    case hexadecimal between [<$] and [$>]; the resume position it
    returns is [e.end]. *)
Definition custom_sjis_error_handler : error_handler :=
  fun bad_bytes => Some ([60; 36] ++ Py.hex_upper bad_bytes ++ [36; 62]).

Definition is_lead (c : Z) : bool :=
  ((0x81 <=? c) && (c <=? 0x9f)) || ((0xe0 <=? c) && (c <=? 0xea)).

Definition bad_trail (c2 : Z) : bool :=
  (c2 <? 0x40) || ((0x7e <? c2) && (c2 <? 0x80)) || (0xfc <? c2).

(** The JIS X 0208 code of a lead byte and a trail byte. *)
Definition jis_of_sjis (c c2 : Z) : Z * Z :=
  let c1 := if c <? 0xe0 then c - 0x81 else c - 0xc1 in
  let c2 := if c2 <? 0x80 then c2 - 0x40 else c2 - 0x41 in
  (2 * c1 + (if c2 <? 0x5e then 0 else 1) + 0x21,
   (if c2 <? 0x5e then c2 else c2 - 0x5e) + 0x21).

Definition bind_cons (x : option str) (k : option str) : option str :=
  match x, k with
  | Some a, Some b => Some (a ++ b)
  | _, _ => None
  end.

(** [bs.decode('shift_jis', errors=...)]: the decoder of CPython's
    _codecs_jp.  Every error it reports covers one byte: the byte that
    cannot start a character, or the lead byte of a pair that is
    incomplete, has a bad trail byte or is not in the table. *)
Fixpoint decode (errors : error_handler) (bs : bytes) : option str :=
  match bs with
  | [] => Some []
  | c :: rest =>
    if c <? 0x80 then bind_cons (Some [c]) (decode errors rest)
    else if (0xa1 <=? c) && (c <=? 0xdf) then
      bind_cons (Some [0xfec0 + c]) (decode errors rest)
    else if is_lead c then
      match rest with
      | [] => bind_cons (errors [c]) (Some [])
      | c2 :: rest' =>
        if bad_trail c2 then bind_cons (errors [c]) (decode errors rest)
        else
          let '(j1, j2) := jis_of_sjis c c2 in
          if (j1 =? 0x21) && (j2 =? 0x40) then
            bind_cons (Some [0xff3c]) (decode errors rest')
          else
            match jisx0208 j1 j2 with
            | Some d => bind_cons (Some [d]) (decode errors rest')
            | None => bind_cons (errors [c]) (decode errors rest)
            end
      end
    else bind_cons (errors [c]) (decode errors rest)
  end.

(** The two bytes of a JIS X 0208 code. *)
Definition sjis_of_jis (code : Z) : bytes :=
  let c1 := code / 256 in
  let c2 := code mod 256 in
  let c2 := (if Z.odd (c1 - 0x21) then 0x5e else 0) + (c2 - 0x21) in
  let c1 := (c1 - 0x21) / 2 in
  [if c1 <? 0x1f then c1 + 0x81 else c1 + 0xc1;
   if c2 <? 0x3f then c2 + 0x40 else c2 + 0x41].

(** The bytes of one character, [None] when the encoder reports an
    error for it. *)
Definition encode_char (c : Z) : option bytes :=
  if c <? 0x80 then Some [c]
  else if c =? 0x00a5 then Some [0x5c]
  else if c =? 0x203e then Some [0x7e]
  else if (0xff61 <=? c) && (c <=? 0xff9f) then Some [c - 0xfec0]
  else if 0xFFFF <? c then None
  else
    match jisxcommon c with
    | Some code => if Z.testbit code 15 then None else Some (sjis_of_jis code)
    | None => if c =? 0xff3c then Some (sjis_of_jis 0x2140) else None
    end.

(** [errors='replace'] of an encoder: one [?]. *)
Definition replace : Z -> option bytes := fun _ => Some [0x3F].

(** [errors='strict'] of an encoder. *)
Definition strict_encode : Z -> option bytes := fun _ => None.

(** What [errors='replace'] makes of one character. *)
Definition encode_or_replace (c : Z) : bytes := default [0x3F] (encode_char c).

(** [s.encode('shift_jis', errors=...)]; [None] when the handler
    raises. *)
Fixpoint encode (errors : Z -> option bytes) (s : str) : option bytes :=
  match s with
  | [] => Some []
  | c :: r =>
    match (match encode_char c with Some b => Some b | None => errors c end),
          encode errors r with
    | Some b, Some b' => Some (b ++ b')
    | _, _ => None
    end
  end.

End WithTables.
End Codec.

(** ** repack.py: [encode_string] *)

Module Repack_codec.
Section WithTables.
Context {T : Tables}.

(** [TAG_MAP]: the named tags and their bytes; the script ships none. *)
Definition TAG_MAP : list (str * bytes) := [].

Definition tag_lookup (part : str) : option bytes :=
snd <$> List.find (fun kv => Py.list_eqb (fst kv) part) TAG_MAP.

(** The class [[0-9A-F\s]] of [hex_tag_pattern]. *)
Definition hex_or_space (c : Z) : bool :=
((48 <=? c) && (c <=? 57)) || ((65 <=? c) && (c <=? 70)) || Py.isspace c.

(** A match of [hex_tag_pattern], [<\$\s*([0-9A-F\s]+)\s*\$>], at the
    head of [s]: the length of the match and the text of its group.
    All three middle pieces take characters of the one class, and the
    [$] that must follow is not in it, so together they take the longest
    run [r] of the class, which must not be empty.  The first [\s*] is
    greedy and takes the leading white space of [r]; the group takes the
    rest; when [r] is white space only, the first [\s*] gives one
    character back and the group is the last character of [r]. *)
Definition match_hex_tag (s : str) : option (nat * str) :=
match s with
| 60 :: 36 :: s' =>
  let r := Py.span hex_or_space s' in
  match r, drop (length r) s' with
  | _ :: _, 36 :: 62 :: _ =>
    let g := Py.lstrip r in
    Some ((length r + 4)%nat,
          match g with [] => drop (length r - 1)%nat r | _ => g end)
  | _, _ => None
  end
| _ => None
end.

(** [combined_pattern.split(s)] for the pattern compiled from an empty
    [TAG_MAP], [(<\$\s*([0-9A-F\s]+)\s*\$>|)]: at every position the
    pattern matches, a tag if there is one and the empty string if not.
    [re.split] returns, for each match, the text since the previous match
    and the two groups of the pattern (the whole match and the inner
    group of the tag, [None] when the tag alternative did not take
    part), and at the end the text after the last match.  After an empty
    match the next one is searched for one character further.

    [skip] counts the characters of the current tag still to pass;
    [must_advance] says that the previous match was empty, at the head
    of [s]. *)
Fixpoint re_split (s : str) (skip : nat) (must_advance : bool)
  : list (option str) :=
match s with
| [] => if must_advance then [Some []]
        else [Some []; Some []; None; Some []]
| c :: r =>
  match skip with
  | S k => re_split r k false
  | O =>
    let advance :=
      match match_hex_tag r with
      | Some (n, g) => Some [c] :: Some (take n r) :: Some g :: re_split r n false
      | None => Some [c] :: Some [] :: None :: re_split r 0 true
      end in
    if must_advance then advance
    else
      match match_hex_tag s with
      | Some (n, g) =>
        Some [] :: Some (take n s) :: Some g :: re_split r (n - 1) false
      | None => Some [] :: Some [] :: None :: advance
      end
  end
end.

(** What one call returns: the lines it printed and the bytes, or no
    bytes when an exception left the function ([ValueError] of
    [bytes.fromhex]). *)
Record encoded := { warnings : list str; value : option bytes }.

(** The loop over the parts. *)
Fixpoint encode_parts (parts : list (option str)) (encoded_bytes : bytes)
  (printed : list str) : encoded :=
match parts with
| [] => {| warnings := printed; value := Some (encoded_bytes ++ [terminator]) |}
| part :: parts' =>
  match part with
  | None | Some [] => encode_parts parts' encoded_bytes printed
  | Some part =>
    match tag_lookup part with
    | Some b => encode_parts parts' (encoded_bytes ++ b) printed
    | None =>
      if Py.startswith part [60; 36] && Py.endswith part [36; 62] then
        let hex_string :=
          List.filter (fun c => negb (c =? 32)) (Py.strip (Py.slice part 2 (-2))) in
        match Py.fromhex hex_string with
        | Some b => encode_parts parts' (encoded_bytes ++ b) printed
        | None => {| warnings := printed; value := None |}
        end
      else
        match Codec.encode Codec.replace part with
        | Some b => encode_parts parts' (encoded_bytes ++ b) printed
        | None => encode_parts parts' encoded_bytes (printed ++ [part])
        end
    end
  end
end.

(** The parts of a text in which the pattern matches nowhere but
    emptily, between its first and its last character. *)
Definition char_parts (s : str) : list (option str) :=
flat_map (fun c => [Some [c]; Some []; None]) s.

(** Whether [hex_tag_pattern] matches somewhere in [s]. *)
Fixpoint has_hex_tag (s : str) : bool :=
match s with
| [] => false
| _ :: r => bool_decide (is_Some (match_hex_tag s)) || has_hex_tag r
end.

Definition encode_string (text_string : str) : encoded :=
let processed_text := Py.replace1 10 newline_char text_string in
let parts := re_split processed_text 0 false in
encode_parts parts [] [].

End WithTables.
End Repack_codec.

(** The two maps of a codec agree: a code point that the decoding map
    gives to a code is none of those that the encoder handles before it
    looks into its map, and the encoding map gives that code back; the
    reverse solidus, which the decoder handles itself, has the code
    0x2140 or none. *)
Definition tables_agree (T : Tables) : Prop :=
(forall j1 j2 d,
   0x21 <= j1 <= 0x7e -> 0x21 <= j2 <= 0x7e ->
   jisx0208 j1 j2 = Some d ->
   0x80 <= d <= 0xFFFF /\ d <> 0xa5 /\ d <> 0x203e /\ ~ (0xff61 <= d <= 0xff9f)
   /\ jisxcommon d = Some (j1 * 256 + j2))
/\ (jisxcommon 0xff3c = None \/ jisxcommon 0xff3c = Some 0x2140).

(** A fragment of the tables, enough to run examples: the hiragana row
    of JIS X 0208 (codes 0x2421 to 0x2473 are U+3041 to U+3093) and the
    ASCII letters and digits. *)
Definition sample_tables : Tables := {|
  jisx0208 := fun c1 c2 =>
    if (c1 =? 0x24) && (0x21 <=? c2) && (c2 <=? 0x73) then Some (0x3041 + (c2 - 0x21))
    else None;
  jisxcommon := fun c =>
    if (0x3041 <=? c) && (c <=? 0x3093) then Some (0x2421 + (c - 0x3041))
    else None;
  isalnum := fun c =>
    ((48 <=? c) && (c <=? 57)) || ((65 <=? c) && (c <=? 90))
    || ((97 <=? c) && (c <=? 122)) || ((0x3041 <=? c) && (c <=? 0x3093))
|}.

(** ** dump.py *)

Module Dump.
Section WithTables.
Context {T : Tables}.

Inductive table_type := standard | alternating.

Record table_info := { start : Z; end_ : Z; type : table_type }.

Definition pointer_tables : list table_info :=
[ {| start := 0x10F488; end_ := 0x10FE50; type := standard |};
  {| start := 0x114D50; end_ := 0x1150D4; type := standard |};
  {| start := 0x11603C; end_ := 0x11625C; type := alternating |};
  {| start := 0x116AFC; end_ := 0x11707C; type := alternating |};
  {| start := 0x1179CC; end_ := 0x117B44; type := alternating |};
  {| start := 0x117CCC; end_ := 0x117DA8; type := standard |} ].

Definition OFFSET_MIN_VALID : Z := 0x0010C000.

(** [read_string_from]: the text from [offset] up to the next terminator,
    [None] when there is none.  The [except] clause is kept: it turns a
    handler that raises into [None]. *)
Definition read_string_from (data : bytes) (offset : Z) (terminator_byte : Z)
  : option str :=
if Py.len data <=? offset then None
else
  let end_index := Py.find data terminator_byte offset in
  if end_index =? -1 then None
  else
    let chunk := Py.slice data offset end_index in
    let processed_chunk := Py.replace1 newline_char 10 chunk in
    match Codec.decode Codec.custom_sjis_error_handler processed_chunk with
    | Some decoded => Some decoded
    | None => None
    end.

(** *** The filter *)

Definition MIN_CHARS : Z := 2.
Definition MIN_JP_CHARS_OVERRIDE : Z := 2.
Definition MIN_LATIN_DIGITS : Z := 3.
Definition MAX_TOTAL_LENGTH : Z := 1024.
Definition MIN_NON_JP_LENGTH : Z := 5.

(** The three thresholds are decimal fractions; a quotient of two
    lengths, the divisor at most [MAX_TOTAL_LENGTH], compares with each
    of them in floating point as it does exactly, so the comparisons
    are written on the cross products with these numerators over 100. *)
Definition MAX_REPLACEMENT_FRAC : Z := 15.
Definition MIN_PRINTABLE_FRAC : Z := 55.
Definition MAX_CONTROL_CHAR_FRAC : Z := 5.

Definition between (lo hi c : Z) : bool := (lo <=? c) && (c <=? hi).

(** [JAPANESE_RE] *)
Definition japanese (c : Z) : bool :=
between 0x3040 0x309F c || between 0x30A0 0x30FF c || between 0x4E00 0x9FFF c.

(** [PRINTABLE_RE] *)
Definition printable (c : Z) : bool :=
between 0x20 0x7E c || between 0x3000 0x303F c || between 0x3040 0x309F c
|| between 0x30A0 0x30FF c || between 0x4E00 0x9FFF c
|| (c =? 10) || (c =? 13) || (c =? 9).

(** [LATIN_DIGIT_RE] *)
Definition latin_digit (c : Z) : bool :=
between 65 90 c || between 97 122 c || between 48 57 c.

(** The class [\w]: alphanumeric or the underscore. *)
Definition word (c : Z) : bool :=
(if c <? 128 then latin_digit c else isalnum c) || (c =? 95).

(** A match of [REPLACEMENT_TOKEN_RE], [<\$\w{2,}\$>], at the head of
    [s]: its length.  The [$] that must follow the word characters is
    not one of them, so they are the longest run. *)
Definition match_replacement_token (s : str) : option nat :=
match s with
| 60 :: 36 :: s' =>
  let w := Py.span word s' in
  match drop (length w) s' with
  | 36 :: 62 :: _ => if (2 <=? length w)%nat then Some (length w + 4)%nat else None
  | _ => None
  end
| _ => None
end.

(** [REPLACEMENT_TOKEN_RE.findall]: the matches from left to right,
    none overlapping; [skip] counts the characters of the current match
    still to pass. *)
Fixpoint findall_replacement_token (s : str) (skip : nat) : list str :=
match s with
| [] => []
| _ :: r =>
  match skip with
  | S k => findall_replacement_token r k
  | O =>
    match match_replacement_token s with
    | Some n => take n s :: findall_replacement_token r (n - 1)
    | None => findall_replacement_token r 0
    end
  end
end.

Definition all_same (s : str) : bool :=
match s with
| [] => false
| c :: r => forallb (Z.eqb c) r
end.

Definition is_repeated_pattern (s : str) : bool :=
if all_same s then true
else
  existsb (fun size =>
      (size <? Py.len s) && (Py.len s mod size =? 0)
      && Py.list_eqb (concat (replicate (Z.to_nat (Py.len s / size)) (Py.slice s 0 size))) s)
    (Py.range 1 6 1).

Definition is_single_japanese_char_repetition (s : str) : bool :=
match s with
| [] => false
| c :: _ => if all_same s then japanese c else false
end.

(** The two expressions matched against the first six characters. *)
Definition japanese_then_latin (sample : str) : bool :=
match sample with
| a :: b :: _ => (between 0x3040 0x30FF a || between 0x4E00 0x9FFF a) && latin_digit b
| _ => false
end.

Definition latin_then_other (sample : str) : bool :=
existsb (fun k =>
    forallb latin_digit (take k sample)
    && match drop k sample with c :: _ => negb (latin_digit c) | [] => false end)
  [3; 2; 1]%nat.

Definition is_valid_string (text : option str) : bool :=
match text with
| None | Some [] => false
| Some text =>
  if Py.len (Py.strip text) <? MIN_CHARS then false
  else if MAX_TOTAL_LENGTH <? Py.len text then false
  else
    let n := Z.max 1 (Py.len text) in
    let repl_tokens := findall_replacement_token text 0 in
    let repl_len := Py.len (concat repl_tokens) in
    let repl_token_count := Py.len repl_tokens in
    let printable_chars := List.filter printable text in
    let jp_count := Py.len (List.filter japanese text) in
    let latin_digits_count := Py.len (List.filter latin_digit text) in
    let control_chars :=
      List.filter (fun c => (c <? 0x20) && negb ((c =? 10) || (c =? 13) || (c =? 9))) text in
    if MAX_CONTROL_CHAR_FRAC * n <? 100 * Py.len control_chars then false
    else if (jp_count <? MIN_JP_CHARS_OVERRIDE) && (latin_digits_count <? MIN_LATIN_DIGITS)
    then false
    else if 100 * Py.len printable_chars <? MIN_PRINTABLE_FRAC * n then false
    else if (0 <? repl_token_count) && (MAX_REPLACEMENT_FRAC * n <? 100 * repl_len) then false
    else if (MIN_JP_CHARS_OVERRIDE <=? jp_count) && (2 * repl_token_count <? Py.len text)
    then true
    else if (jp_count =? 0) && (Py.len printable_chars <? MIN_NON_JP_LENGTH) then false
    else if (jp_count =? 0) && (latin_digits_count <? 3) then false
    else if is_repeated_pattern text && negb (is_single_japanese_char_repetition text)
    then false
    else
      let start_sample := Py.slice text 0 6 in
      if japanese_then_latin start_sample then false
      else if latin_then_other start_sample && (Py.len text <? 8) then false
      else true
end.

(** *** The main part *)

Inductive body := Text (text_string : str) | DuplicateOf (original_id : Z).

(** One block written to the output file. *)
Record block := {
  id : Z;
  pointer_offset : Z;
  text_offset : Z;
  contents : body
}.

(** The variables of the main part.  [output_file] holds the blocks
    written so far, in order.  [decoded] is not in the script: it records
    the offsets that [read_string_from] was called with, in order, so
    that a statement can tell a run that decodes from one that does not. *)
Record state := {
  string_id_counter : Z;
  seen_text_offsets : gmap Z Z;
  output_file : list block;
  decoded : list Z
}.

Definition initial : state :=
{| string_id_counter := 0; seen_text_offsets := ∅; output_file := []; decoded := [] |}.

Definition in_window (address : Z) : bool :=
(0x08000000 <=? address) && (address <? 0x09000000).

(** Writing one block and counting it. *)
Definition write_block (st : state) (seen : gmap Z Z) (ptr file_offset : Z)
  (b : body) (reads : list Z) : state :=
{| string_id_counter := string_id_counter st + 1;
   seen_text_offsets := seen;
   output_file := output_file st ++
     [{| id := string_id_counter st; pointer_offset := ptr;
         text_offset := file_offset; contents := b |}];
   decoded := reads |}.

(** Mode "tables": the body of the [while] loop once an address has been
    read at [current_offset]. *)
Definition tables_row (rom_data : bytes) (st : state) (current_offset address : Z)
  : state :=
if in_window address then
  let file_offset := address - 0x08000000 in
  if (file_offset <? Py.len rom_data) && (OFFSET_MIN_VALID <=? file_offset) then
    let text_string := read_string_from rom_data file_offset terminator in
    let reads := decoded st ++ [file_offset] in
    if is_valid_string text_string then
      match seen_text_offsets st !! file_offset with
      | Some original_id =>
        write_block st (seen_text_offsets st) current_offset file_offset
          (DuplicateOf original_id) reads
      | None =>
        write_block st (<[file_offset := string_id_counter st]> (seen_text_offsets st))
          current_offset file_offset (Text (default [] text_string)) reads
      end
    else
      {| string_id_counter := string_id_counter st;
         seen_text_offsets := seen_text_offsets st;
         output_file := output_file st;
         decoded := reads |}
  else st
else st.

(** The [while] loop of one table, over the offsets that
    [current_offset] takes; it stops early when fewer than four bytes are
    left. *)
Fixpoint tables_loop (rom_data : bytes) (offsets : list Z) (st : state) : state :=
match offsets with
| [] => st
| current_offset :: offsets' =>
  let pointer_bytes := Py.slice rom_data current_offset (current_offset + 4) in
  if Py.len pointer_bytes <? 4 then st
  else
    match Py.unpack_u32 pointer_bytes with
    | None => st
    | Some address =>
      tables_loop rom_data offsets' (tables_row rom_data st current_offset address)
    end
end.

Definition entry_size (t : table_type) : Z :=
match t with standard => 8 | alternating => 16 end.

Definition tables_mode (rom_data : bytes) (st : state) : state :=
fold_left (fun st table =>
    tables_loop rom_data
      (Py.range (start table) (end_ table) (entry_size (type table))) st)
  pointer_tables st.

(** Mode "scan", first loop: the list [all_pointers]. *)
Record pointer_info := { ptr_offset : Z; file_offset : Z }.

Definition scan_candidate (rom_data : bytes) (ptr_offset : Z) : list pointer_info :=
let rom_size := Py.len rom_data in
match Py.unpack_u32 (Py.slice rom_data ptr_offset (ptr_offset + 4)) with
| None => []
| Some address =>
  if in_window address then
    let file_offset := address - 0x08000000 in
    if (0 <=? file_offset) && (file_offset <? rom_size)
       && (OFFSET_MIN_VALID <=? file_offset)
    then [{| ptr_offset := ptr_offset; file_offset := file_offset |}]
    else []
  else []
end.

Definition all_pointers (rom_data : bytes) : list pointer_info :=
flat_map (scan_candidate rom_data) (Py.range 0 (Py.len rom_data - 4) 4).

(** Mode "scan", second loop: one pointer. *)
Definition scan_pointer (rom_data : bytes) (st : state) (p : pointer_info) : state :=
match seen_text_offsets st !! file_offset p with
| Some original_id =>
  write_block st (seen_text_offsets st) (ptr_offset p) (file_offset p)
    (DuplicateOf original_id) (decoded st)
| None =>
  let text_string := read_string_from rom_data (file_offset p) terminator in
  let reads := decoded st ++ [file_offset p] in
  if is_valid_string text_string then
    write_block st (<[file_offset p := string_id_counter st]> (seen_text_offsets st))
      (ptr_offset p) (file_offset p) (Text (default [] text_string)) reads
  else
    {| string_id_counter := string_id_counter st;
       seen_text_offsets := seen_text_offsets st;
       output_file := output_file st;
       decoded := reads |}
end.

Definition scan_mode (rom_data : bytes) (st : state) : state :=
fold_left (scan_pointer rom_data) (all_pointers rom_data) st.

Inductive mode := tables | scan.

(** The run on a ROM that exists. *)
Definition main (m : mode) (rom_data : bytes) : state :=
match m with
| tables => tables_mode rom_data initial
| scan => scan_mode rom_data initial
end.

(** *** The invariant of a run *)

Definition valid_at (rom : bytes) (off : Z) : Prop :=
is_valid_string (read_string_from rom off terminator) = true.

(** What holds of the variables of the main part between two pointers. *)
Record inv (rom : bytes) (st : state) : Prop := {
  inv_counter : string_id_counter st = Z.of_nat (length (output_file st));
  inv_ids : map id (output_file st) = map Z.of_nat (seq 0 (length (output_file st)));
  inv_seen_lt : forall off cid,
    seen_text_offsets st !! off = Some cid -> 0 <= cid < string_id_counter st;
  inv_seen_valid : forall off cid,
    seen_text_offsets st !! off = Some cid -> valid_at rom off;
  inv_seen_text : forall off cid,
    seen_text_offsets st !! off = Some cid ->
    exists ptr s, {| id := cid; pointer_offset := ptr; text_offset := off;
                     contents := Text s |} ∈ output_file st;
  inv_dup : forall b o,
    b ∈ output_file st -> contents b = DuplicateOf o -> 0 <= o < id b;
  inv_out_valid : forall b, b ∈ output_file st -> valid_at rom (text_offset b)
}.

End WithTables.
End Dump.

(** ** repack.py *)

Module Repack.
Section WithTables.
Context {T : Tables}.

Definition free_space_start_offset : Z := 0x79D6D8.
Definition ROM_END_OFFSET : Z := 0x7FFFFF.

(** One entry of [parse_text_file]: a dictionary with the keys "id" and
    "pointer_offset", the flag "is_duplicate", and either "original_id"
    or "original_text_offset" and "text".  The numbers are read from
    digits, so none is negative. *)
Inductive payload :=
| Duplicate (original_id : Z)
| Original (original_text_offset : Z) (text : str).

Record entry := { id : Z; pointer_offset : Z; data : payload }.

Definition is_duplicate (e : entry) : bool :=
match data e with Duplicate _ => true | Original _ _ => false end.

(** The variables of the main part. *)
Record state := {
  rom_data : bytes;
  current_free_space_offset : Z;
  repointed_locations : gmap Z Z
}.

(** How a pass ends: it goes on, it prints the fatal error and calls
    [exit()], or an exception that nothing catches ends the script. *)
Inductive outcome :=
| Continue (st : state)
| Fatal
| Raised.

Definition initial (rom : bytes) : state :=
{| rom_data := rom;
   current_free_space_offset := free_space_start_offset;
   repointed_locations := ∅ |}.

(** The length computed under "Get original text length", on the buffer
    as it is when the entry is reached. *)
Definition original_length (rom : bytes) (original_offset : Z) : Z :=
let original_end := Py.find rom terminator original_offset in
if original_end =? -1 then 0 else (original_end - original_offset) + 1.

(** The loop that fills the rest of the original space with terminators. *)
Definition fill (rom : bytes) (original_offset new_length original_length : Z)
  : option bytes :=
fold_left (fun acc i =>
    match acc with
    | Some rom => Py.setitem rom (original_offset + i) terminator
    | None => None
    end)
  (Py.range new_length original_length 1) (Some rom).

(** First pass, one entry. *)
Definition place (st : state) (e : entry) : outcome :=
match data e with
| Duplicate _ => Continue st
| Original original_offset text =>
  let original_length := original_length (rom_data st) original_offset in
  match Repack_codec.value (Repack_codec.encode_string text) with
  | None => Raised
  | Some new_text_bytes =>
    let new_length := Py.len new_text_bytes in
    if new_length <=? original_length then
      let rom :=
        Py.slice_assign (rom_data st) original_offset (original_offset + new_length)
          new_text_bytes in
      match fill rom original_offset new_length original_length with
      | None => Raised
      | Some rom =>
        Continue {| rom_data := rom;
                    current_free_space_offset := current_free_space_offset st;
                    repointed_locations :=
                      <[id e := original_offset]> (repointed_locations st) |}
      end
    else if ROM_END_OFFSET <? current_free_space_offset st + new_length then Fatal
    else
      Continue
        {| rom_data :=
             Py.slice_assign (rom_data st) (current_free_space_offset st)
               (current_free_space_offset st + new_length) new_text_bytes;
           current_free_space_offset := current_free_space_offset st + new_length;
           repointed_locations :=
             <[id e := current_free_space_offset st]> (repointed_locations st) |}
  end
end.

(** A loop over the entries that stops at the first one that does not
    go on. *)
Fixpoint pass (step : state -> entry -> outcome) (entries : list entry) (st : state)
  : outcome :=
match entries with
| [] => Continue st
| e :: entries' =>
  match step st e with
  | Continue st' => pass step entries' st'
  | stop => stop
  end
end.

Definition first_pass : list entry -> state -> outcome := pass place.

(** Second pass, one entry: the pointer is rewritten when the target has
    a location, and left as it is when it has none. *)
Definition patch (st : state) (e : entry) : outcome :=
let target_id := match data e with Duplicate original_id => original_id | Original _ _ => id e end in
match repointed_locations st !! target_id with
| Some new_text_location =>
  match Py.pack_u32 (0x08000000 + new_text_location) with
  | None => Raised
  | Some new_pointer_bytes =>
    Continue {| rom_data :=
                  Py.slice_assign (rom_data st) (pointer_offset e) (pointer_offset e + 4)
                    new_pointer_bytes;
                current_free_space_offset := current_free_space_offset st;
                repointed_locations := repointed_locations st |}
  end
| None => Continue st
end.

Definition second_pass : list entry -> state -> outcome := pass patch.

(** The run on files that exist: [Some rom] is the image written to
    [new_rom_filename]; [None] says that the script ended before the
    final step and wrote no file. *)
Definition main (rom : bytes) (entries : list entry) : option bytes :=
match first_pass entries (initial rom) with
| Continue st =>
  match second_pass entries st with
  | Continue st' => Some (rom_data st')
  | _ => None
  end
| _ => None
end.

End WithTables.
End Repack.

(** ** Images and entries used in the examples *)

Module Examples.

(** "Hello" and its terminator. *)
Definition hello : bytes := [72; 101; 108; 108; 111; 0].

(** An image that ends in the first two rows of the first pointer table,
    both holding the address of the text that follows them. *)
Definition rom_two_rows : bytes :=
List.repeat 0 (Z.to_nat 0x10F488)
++ [0x98; 0xF4; 0x10; 0x08; 0; 0; 0; 0; 0x98; 0xF4; 0x10; 0x08; 0; 0; 0; 0]
++ hello.

(** An image whose size is a multiple of four and whose last four bytes
    hold the address of the text at 0x10C000. *)
Definition rom_last_word : bytes :=
List.repeat 0 (Z.to_nat 0x10C000) ++ hello ++ [0; 0] ++ [0x00; 0xC0; 0x10; 0x08].

(** A text of seven bytes with its terminator, then free bytes; two
    entries whose texts start at 0 and, inside the first, at 3. *)
Definition rom_shared_tail : bytes := [65; 66; 67; 68; 69; 70; 0; 9; 9; 9; 9; 9; 9; 9; 9].

Definition entry_whole : Repack.entry :=
{| Repack.id := 0; Repack.pointer_offset := 7; Repack.data := Repack.Original 0 [65; 66] |}.

Definition entry_tail : Repack.entry :=
{| Repack.id := 1; Repack.pointer_offset := 11;
   Repack.data := Repack.Original 3 [68; 69; 70] |}.

(** A state of the first pass with two bytes of free space left. *)
Definition nearly_full : Repack.state :=
{| Repack.rom_data := [65; 0];
   Repack.current_free_space_offset := 0x7FFFFD;
   Repack.repointed_locations := ∅ |}.

Definition entry_longer : Repack.entry :=
{| Repack.id := 0; Repack.pointer_offset := 0; Repack.data := Repack.Original 0 [65; 66; 67] |}.

End Examples.

(** ** The export file: written by dump.py, read by repack.py *)

(** [decimal_value c] is the value of the character [c] as a decimal
    digit ([str.isdecimal], the class [\d] of [re], the digits of
    [int]); the embedding consults it for the code points from 128 on. *)
Class Decimals := { decimal_value : Z -> option Z }.

(** Files opened in text mode with [encoding='utf-8']; a file is given
    by its characters. *)
Module Text_io.

(** UTF-8 encodes every code point but the surrogates. *)
Definition encodable (c : Z) : bool :=
(0 <=? c) && (c <=? 0x10FFFF) && negb ((0xD800 <=? c) && (c <=? 0xDFFF)).

(** [f.write(s)]: each line feed is written as [linesep], the line
    separator of the platform; [None] stands for [UnicodeEncodeError]. *)
Definition write (linesep s : str) : option str :=
if forallb encodable s
then Some (flat_map (fun c => if c =? 10 then linesep else [c]) s)
else None.

(** [f.read()]: [\r\n] and [\r] are read as a line feed. *)
Fixpoint read (file : str) : str :=
match file with
| [] => []
| c :: r =>
  if c =? 13 then
    10 :: match r with
          | c' :: r' => if c' =? 10 then read r' else read r
          | [] => []
          end
  else c :: read r
end.

End Text_io.

Module Output.

(** The code points of a literal. *)
Definition lit (s : string) : str :=
map (fun a => Z.of_nat (nat_of_ascii a)) (list_ascii_of_string s).

(** The digits of [n] in a base, the most significant first; [fuel]
    bounds their number. *)
Fixpoint to_digits (base : Z) (fuel : nat) (n : Z) : list Z :=
match fuel with
| O => []
| S fuel' =>
  if n <? base then [n] else to_digits base fuel' (n / base) ++ [n mod base]
end.

(** [format(n, '0<width>')] with base 10 and [format(n, '0<width>X')]
    with base 16: the digits, zeros before them up to the width, the
    sign first.  (CPython's bound on the length of a decimal numeral,
    4300 digits by default, is not part of the embedding.) *)
Definition format_int (base : Z) (width : nat) (n : Z) : str :=
let m := Z.abs n in
let ds := map Py.hex_digit (to_digits base (S (Z.to_nat (Z.log2 m))) m) in
if n <? 0 then 45 :: replicate (width - 1 - length ds) 48 ++ ds
else replicate (width - length ds) 48 ++ ds.

(** [output_block]:
    [<STRING {id:04}>\nPOINTER_OFFSET: 0x{ptr:08X}\nTEXT_OFFSET: 0x{off:08X}\n{text}\n\n],
    the text of a duplicate being [[DUPLICATE OF <STRING {original_id:04}>]]. *)
Definition output_block (b : Dump.block) : str :=
lit "<STRING " ++ format_int 10 4 (Dump.id b) ++ lit ">" ++ [10]
++ lit "POINTER_OFFSET: 0x" ++ format_int 16 8 (Dump.pointer_offset b) ++ [10]
++ lit "TEXT_OFFSET: 0x" ++ format_int 16 8 (Dump.text_offset b) ++ [10]
++ match Dump.contents b with
   | Dump.Text text_string => text_string
   | Dump.DuplicateOf original_id =>
     lit "[DUPLICATE OF <STRING " ++ format_int 10 4 original_id ++ lit ">]"
   end
++ [10; 10].

(** The file that a run leaves when it has written the blocks, if no
    write has raised. *)
Definition file (linesep : str) (blocks : list Dump.block) : option str :=
Text_io.write linesep (flat_map output_block blocks).

End Output.

Module Parse.
Section WithDecimals.
Context {D : Decimals}.

(** The class [\d]. *)
Definition digit_of (c : Z) : option Z :=
if c <? 128 then (if (48 <=? c) && (c <=? 57) then Some (c - 48) else None)
else decimal_value c.

Definition decimal (c : Z) : bool := bool_decide (is_Some (digit_of c)).

(** The class [[0-9A-F]]. *)
Definition upper_hex (c : Z) : bool :=
((48 <=? c) && (c <=? 57)) || ((65 <=? c) && (c <=? 70)).

(** [int(s)] and [int(s, 16)] on digits that a pattern has matched. *)
Definition int10 (s : str) : Z :=
fold_left (fun acc c => acc * 10 + default 0 (digit_of c)) s 0.

Definition int16 (s : str) : Z :=
fold_left (fun acc c => acc * 16 + default 0 (Py.digit_value c)) s 0.

(** What follows the literal [p] in [s], if [s] starts with it. *)
Definition after (p s : str) : option str :=
if Py.startswith s p then Some (drop (length p) s) else None.

(** The longest run of the class at the head of [s], which must not be
    empty, and what follows it. *)
Definition run (p : Z -> bool) (s : str) : option (str * str) :=
match Py.span p s with
| [] => None
| r => Some (r, drop (length r) s)
end.

(** The place of the first blank line, [\n\n]. *)
Fixpoint blank_line (s : str) : option nat :=
match s with
| [] => None
| c :: r =>
  if (c =? 10) && match r with c' :: _ => c' =? 10 | [] => false end
  then Some 0%nat
  else S <$> blank_line r
end.

(** A match of [pattern] at the head of [s]: its length and its four
    groups.  [\d+?] is followed by [>], which is no digit, and each
    [[0-9A-F]+] by a line feed, so each takes the longest run;
    [[\s\S]*?] takes the text up to the first blank line. *)
Definition match_pattern (s : str) : option (nat * (str * str * str * str)) :=
s1 ← after (Output.lit "<STRING ") s;
'(d, s2) ← run decimal s1;
s3 ← after (Output.lit ">" ++ [10] ++ Output.lit "POINTER_OFFSET: 0x") s2;
'(h1, s4) ← run upper_hex s3;
s5 ← after ([10] ++ Output.lit "TEXT_OFFSET: 0x") s4;
'(h2, s6) ← run upper_hex s5;
s7 ← after [10] s6;
k ← blank_line s7;
Some ((length s - length s7 + k + 2)%nat, (d, h1, h2, take k s7)).

(** [duplicate_pattern.match(text)]: the group of the match. *)
Definition match_duplicate (text : str) : option str :=
s1 ← after (Output.lit "[DUPLICATE OF <STRING ") text;
'(d, s2) ← run decimal s1;
_ ← after (Output.lit ">]") s2;
Some d.

(** The body of the loop over the matches. *)
Definition entry_of (groups : str * str * str * str) : Repack.entry :=
let '(d, h1, h2, text) := groups in
let entry_id := int10 d in
let pointer_offset := int16 h1 in
let text_offset := int16 h2 in
match match_duplicate text with
| Some original =>
  {| Repack.id := entry_id; Repack.pointer_offset := pointer_offset;
     Repack.data := Repack.Duplicate (int10 original) |}
| None =>
  {| Repack.id := entry_id; Repack.pointer_offset := pointer_offset;
     Repack.data := Repack.Original text_offset text |}
end.

(** [pattern.finditer(content)]: the matches from left to right, none
    overlapping; [skip] counts the characters of the last match still
    to pass. *)
Fixpoint finditer (content : str) (skip : nat) : list (str * str * str * str) :=
match content with
| [] => []
| _ :: r =>
  match skip with
  | S k => finditer r k
  | O =>
    match match_pattern content with
    | Some (n, groups) => groups :: finditer r (n - 1)
    | None => finditer r 0
    end
  end
end.

(** [parse_text_file] on the file. *)
Definition parse_text_file (file : str) : list Repack.entry :=
map entry_of (finditer (Text_io.read file) 0).

End WithDecimals.
End Parse.

(** The entry that stands for a block. *)
Definition entry_of_block (b : Dump.block) : Repack.entry :=
{| Repack.id := Dump.id b;
   Repack.pointer_offset := Dump.pointer_offset b;
   Repack.data := match Dump.contents b with
                  | Dump.Text text_string => Repack.Original (Dump.text_offset b) text_string
                  | Dump.DuplicateOf original_id => Repack.Duplicate original_id
                  end |}.

(** A table of decimal digits: the ASCII digits and the full-width ones. *)
Definition sample_decimals : Decimals :=
{| decimal_value := fun c => if (0xFF10 <=? c) && (c <=? 0xFF19) then Some (c - 0xFF10) else None |}.

Module Export_def.
Import Output Parse.

(** No line feed of [t] is followed by a line feed, and none ends [t]. *)
Definition no_blank_line (t : str) : Prop :=
forall i : nat, t !! i = Some 10 -> (t ++ [10]) !! S i <> Some 10.

(** The characters of a block around its numbers and its text. *)
Definition frame (d h1 h2 t : str) : str :=
lit "<STRING " ++ d ++ lit ">" ++ [10]
++ lit "POINTER_OFFSET: 0x" ++ h1 ++ [10]
++ lit "TEXT_OFFSET: 0x" ++ h2 ++ [10]
++ t ++ [10; 10].

(** The text that a block is written with. *)
Definition written_text (b : Dump.block) : str :=
match Dump.contents b with
| Dump.Text text_string => text_string
| Dump.DuplicateOf original_id =>
  lit "[DUPLICATE OF <STRING " ++ format_int 10 4 original_id ++ lit ">]"
end.

(** No carriage return. *)
Definition no_cr (c : Z) : bool := negb (c =? 13).

Section WithDecimals.
Context {D : Decimals}.

(** The numbers and the text of a block can be read back. *)
Definition readable (b : Dump.block) : Prop :=
0 <= Dump.id b /\ 0 <= Dump.pointer_offset b /\ 0 <= Dump.text_offset b
/\ match Dump.contents b with
   | Dump.Text text_string =>
     no_blank_line text_string /\ (13 ∉ text_string) /\ match_duplicate text_string = None
   | Dump.DuplicateOf original_id => 0 <= original_id
   end.

End WithDecimals.
End Export_def.

(** ** Predicates of the further properties *)

Module Dump_more_def.
Section WithTables.
Context {T : Tables}.
Import Dump.

(** A block stands on a pointer of the image. *)
Definition backed (rom : bytes) (b : block) : Prop :=
Py.unpack_u32 (Py.slice rom (pointer_offset b) (pointer_offset b + 4))
  = Some (0x08000000 + text_offset b)
/\ OFFSET_MIN_VALID <= text_offset b < Py.len rom.

(** What holds of the blocks and of the index between two pointers. *)
Record linked (rom : bytes) (st : state) : Prop := {
  linked_text : forall b s,
    b ∈ output_file st -> contents b = Text s ->
    seen_text_offsets st !! text_offset b = Some (id b);
  linked_duplicate : forall b o,
    b ∈ output_file st -> contents b = DuplicateOf o ->
    seen_text_offsets st !! text_offset b = Some o;
  linked_decodes : forall b s,
    b ∈ output_file st -> contents b = Text s ->
    read_string_from rom (text_offset b) terminator = Some s;
  linked_backed : forall b, b ∈ output_file st -> backed rom b
}.

(** The offsets of the rows of a pointer table. *)
Definition rows (t : table_info) : list Z :=
Py.range (start t) (end_ t) (entry_size (type t)).

End WithTables.
End Dump_more_def.


Module Escape_def.
Import Codec.
(** A byte that the decoder can neither take alone nor as a lead byte. *)
Definition undecodable (c : Z) : bool :=
negb (c <? 0x80) && negb ((0xa1 <=? c) && (c <=? 0xdf)) && negb (is_lead c).

(** The token of one byte. *)
Definition token (c : Z) : str := [60; 36] ++ Py.hex_upper [c] ++ [36; 62].
End Escape_def.


Module Repack_more_def.
Import Repack.

(** An entry whose pointer lies inside an image of [n] bytes and whose
    text offset is not negative. *)
Definition well_placed (n : Z) (e : entry) : Prop :=
0 <= pointer_offset e /\ pointer_offset e + 4 <= n
/\ forall off text, data e = Original off text -> 0 <= off.

End Repack_more_def.

Module Pipeline_def.

(** [chunk] of [read_string_from]: the bytes from the offset up to the
    first terminator. *)
Definition chunk_at (rom : bytes) (off : Z) : bytes :=
Py.slice rom off (Py.find rom terminator off).

Section WithTables.
Context {T : Tables}.

(** What the first pass needs of a block: its text is the strict
    decoding of the bytes at its offset, and shows no escape tag. *)
Definition clean (rom : bytes) (b : Dump.block) : Prop :=
forall s, Dump.contents b = Dump.Text s ->
  0 <= Dump.text_offset b
  /\ Dump.read_string_from rom (Dump.text_offset b) terminator = Some s
  /\ Codec.decode Codec.strict (chunk_at rom (Dump.text_offset b)) = Some s
  /\ Repack_codec.has_hex_tag s = false.

End WithTables.
End Pipeline_def.


(** ** Further examples *)

Module Examples_more.

(** The two blocks that mode "tables" writes for [Examples.rom_two_rows]. *)
Definition first_block : Dump.block :=
{| Dump.id := 0; Dump.pointer_offset := 0x10F488; Dump.text_offset := 0x10F498;
   Dump.contents := Dump.Text [72; 101; 108; 108; 111] |}.

Definition second_block : Dump.block :=
{| Dump.id := 1; Dump.pointer_offset := 0x10F490; Dump.text_offset := 0x10F498;
   Dump.contents := Dump.DuplicateOf 0 |}.

(** A text of three bytes between two other bytes. *)
Definition small_image : Repack.state :=
{| Repack.rom_data := [9] ++ [65; 66; 67] ++ terminator :: [7];
   Repack.current_free_space_offset := Repack.free_space_start_offset;
   Repack.repointed_locations := ∅ |}.

(** "Hi" for the text at 1. *)
Definition entry_shorter : Repack.entry :=
{| Repack.id := 0; Repack.pointer_offset := 0; Repack.data := Repack.Original 1 [72; 105] |}.

(** An image of two bytes with its free space behind it. *)
Definition short_image : Repack.state :=
{| Repack.rom_data := [65; 0];
   Repack.current_free_space_offset := 2;
   Repack.repointed_locations := ∅ |}.

(** "Hi" with its terminator between two other bytes. *)
Definition hi_image : Repack.state :=
{| Repack.rom_data := [9] ++ [72; 105] ++ terminator :: [7];
   Repack.current_free_space_offset := Repack.free_space_start_offset;
   Repack.repointed_locations := ∅ |}.

(** A second pointer to the text of [Examples.entry_whole]. *)
Definition entry_copy : Repack.entry :=
{| Repack.id := 1; Repack.pointer_offset := 11; Repack.data := Repack.Duplicate 0 |}.

(** [Examples.rom_shared_tail] after the first pass over
    [Examples.entry_whole] and [entry_copy]. *)
Definition after_first_pass : Repack.state :=
{| Repack.rom_data := [65; 66; 0; 0; 0; 0; 0; 9; 9; 9; 9] ++ [9; 9; 9; 9] ++ [];
   Repack.current_free_space_offset := Repack.free_space_start_offset;
   Repack.repointed_locations := {[ 0 := 0 ]} |}.

(** An image of eight megabytes of zeros, and an entry with the empty
    text for the (empty) text at 16, its pointer at 8. *)
Definition zero_image : bytes := replicate (Z.to_nat 0x800000) 0.

Definition entry_empty : Repack.entry :=
{| Repack.id := 0; Repack.pointer_offset := 8; Repack.data := Repack.Original 16 [] |}.

(** The file with the two blocks of [Examples.rom_two_rows], written
    with the line separator of Windows. *)
Definition two_blocks_file : str :=
Eval vm_compute in default [] (Output.file [13; 10] [first_block; second_block]).

(** A block whose text, "Hi", ends with a line feed, and its file. *)
Definition block_line_feed : Dump.block :=
{| Dump.id := 2; Dump.pointer_offset := 0x10F4A0; Dump.text_offset := 0x10F4A8;
   Dump.contents := Dump.Text ([72; 105] ++ [10]) |}.

Definition line_feed_file : str :=
Eval vm_compute in default [] (Output.file [10] [block_line_feed]).

(** A file whose only text, "a\rb", holds a carriage return, and what
    is read from it. *)
Definition carriage_return_file : str :=
Output.lit "<STRING 0003>" ++ [10] ++ Output.lit "POINTER_OFFSET: 0x0010F4B0" ++ [10]
++ Output.lit "TEXT_OFFSET: 0x0010F4B8" ++ [10] ++ [97; 13; 98] ++ [10; 10].

Definition carriage_return_entry : Repack.entry :=
{| Repack.id := 3; Repack.pointer_offset := 0x10F4B0;
   Repack.data := Repack.Original 0x10F4B8 [97; 10; 98] |}.

End Examples_more.

(** * Properties *)

(** ** The invariant of an extraction run holds *)

Module Dump_inv.
Section WithTables.
Context {T : Tables}.
Import Dump.

Lemma inv_initial rom : inv rom initial.
Proof.
  split; simpl; try done.
  - intros b o Hb. by apply elem_of_nil in Hb.
  - intros b Hb. by apply elem_of_nil in Hb.
Qed.

Lemma ids_snoc (out : list block) (b : block) :
  map id out = map Z.of_nat (seq 0 (length out)) ->
  id b = Z.of_nat (length out) ->
  map id (out ++ [b]) = map Z.of_nat (seq 0 (length (out ++ [b]))).
Proof.
  intros Hout Hb.
  rewrite map_app, length_app, Hout. simpl.
  rewrite Nat.add_1_r, seq_S, map_app. simpl. by rewrite Hb.
Qed.

Lemma inv_write_duplicate rom st ptr off cid reads :
  inv rom st ->
  seen_text_offsets st !! off = Some cid ->
  inv rom (write_block st (seen_text_offsets st) ptr off (DuplicateOf cid) reads).
Proof.
  intros [Hc Hids Hlt Hval Htxt Hdup Hout] Hseen.
  split; simpl.
  - rewrite length_app, Hc. simpl. lia.
  - apply ids_snoc; [done | simpl; done].
  - intros o c Ho. specialize (Hlt o c Ho). lia.
  - done.
  - intros o c Ho. destruct (Htxt o c Ho) as (p & s & Hin).
    exists p, s. apply elem_of_app. by left.
  - intros b o Hb Hcont. apply elem_of_app in Hb as [Hb | Hb].
    + by apply Hdup.
    + apply list_elem_of_singleton in Hb. subst b. simpl in *.
      inversion Hcont; subst. by apply (Hlt off).
  - intros b Hb. apply elem_of_app in Hb as [Hb | Hb].
    + by apply Hout.
    + apply list_elem_of_singleton in Hb. subst b. simpl. by apply (Hval off cid).
Qed.

Lemma inv_write_text rom st ptr off s reads :
  inv rom st ->
  valid_at rom off ->
  inv rom (write_block st (<[off := string_id_counter st]> (seen_text_offsets st))
             ptr off (Text s) reads).
Proof.
  intros [Hc Hids Hlt Hval Htxt Hdup Hout] Hv.
  split; simpl.
  - rewrite length_app, Hc. simpl. lia.
  - apply ids_snoc; [done | simpl; done].
  - intros o c Ho. destruct (decide (off = o)) as [-> | Hne].
    + rewrite lookup_insert_eq in Ho. inversion Ho; subst. lia.
    + rewrite lookup_insert_ne in Ho by done. specialize (Hlt o c Ho). lia.
  - intros o c Ho. destruct (decide (off = o)) as [-> | Hne]; [done |].
    rewrite lookup_insert_ne in Ho by done. by apply (Hval o c).
  - intros o c Ho. destruct (decide (off = o)) as [-> | Hne].
    + rewrite lookup_insert_eq in Ho. inversion Ho; subst.
      exists ptr, s. apply elem_of_app. right. by apply list_elem_of_singleton.
    + rewrite lookup_insert_ne in Ho by done.
      destruct (Htxt o c Ho) as (p & s' & Hin).
      exists p, s'. apply elem_of_app. by left.
  - intros b o Hb Hcont. apply elem_of_app in Hb as [Hb | Hb].
    + by apply Hdup.
    + apply list_elem_of_singleton in Hb. subst b. simpl in *. discriminate.
  - intros b Hb. apply elem_of_app in Hb as [Hb | Hb].
    + by apply Hout.
    + apply list_elem_of_singleton in Hb. subst b. simpl. done.
Qed.

Lemma inv_decoded rom st reads :
  inv rom st ->
  inv rom {| string_id_counter := string_id_counter st;
             seen_text_offsets := seen_text_offsets st;
             output_file := output_file st;
             decoded := reads |}.
Proof. intros [Hc Hids Hlt Hval Htxt Hdup Hout]. by split. Qed.

Lemma inv_tables_row rom st cur address :
  inv rom st -> inv rom (tables_row rom st cur address).
Proof.
  intros Hinv. unfold tables_row.
  destruct (in_window address); [| done].
  destruct (_ && _); [| done].
  destruct (is_valid_string _) eqn:Hv.
  - destruct (seen_text_offsets st !! _) eqn:Hs.
    + by apply inv_write_duplicate.
    + by apply inv_write_text.
  - by apply inv_decoded.
Qed.

Lemma inv_scan_pointer rom st p :
  inv rom st -> inv rom (scan_pointer rom st p).
Proof.
  intros Hinv. unfold scan_pointer.
  destruct (seen_text_offsets st !! _) eqn:Hs.
  - by apply inv_write_duplicate.
  - destruct (is_valid_string _) eqn:Hv.
    + by apply inv_write_text.
    + by apply inv_decoded.
Qed.

Lemma inv_tables_loop rom offsets : forall st,
  inv rom st -> inv rom (tables_loop rom offsets st).
Proof.
  induction offsets as [| o offsets IH]; intros st Hinv; simpl; [done |].
  destruct (_ <? 4); [done |].
  destruct (Py.unpack_u32 _); [| done].
  apply IH. by apply inv_tables_row.
Qed.

Lemma inv_fold {A} (f : state -> A -> state) rom (l : list A) :
  (forall st a, inv rom st -> inv rom (f st a)) ->
  forall st, inv rom st -> inv rom (fold_left f l st).
Proof.
  intros Hf. induction l as [| a l IH]; intros st Hinv; simpl; [done |].
  apply IH. by apply Hf.
Qed.

Lemma inv_main m rom : inv rom (main m rom).
Proof.
  destruct m; simpl.
  - apply inv_fold; [| apply inv_initial].
    intros st t. apply inv_tables_loop.
  - apply inv_fold; [| apply inv_initial].
    intros st p. apply inv_scan_pointer.
Qed.

End WithTables.
End Dump_inv.

(** ** Python primitives: facts *)

Module Py_facts.

Lemma range_spec start stop step o :
  0 < step ->
  o ∈ Py.range start stop step <->
  exists k, 0 <= k /\ o = start + k * step /\ o < stop.
Proof.
  intros Hstep. unfold Py.range. rewrite list_elem_of_In, in_map_iff.
  split.
  - intros (k & <- & Hk). apply in_seq in Hk. exists (Z.of_nat k).
    split; [lia |]. split; [done |].
    assert (Hlt : Z.of_nat k < (stop - start + step - 1) / step) by lia.
    assert (Hle : Z.of_nat k + 1 <= (stop - start + step - 1) / step) by lia.
    assert (step * (Z.of_nat k + 1) <= stop - start + step - 1).
    { etransitivity; [apply Z.mul_le_mono_nonneg_l; [lia | exact Hle] |].
      apply Z.mul_div_le. lia. }
    lia.
  - intros (k & Hk & -> & Hlt). exists (Z.to_nat k).
    split; [lia |]. apply in_seq. split; [lia |]. simpl.
    assert (k + 1 <= (stop - start + step - 1) / step).
    { apply Z.div_le_lower_bound; lia. }
    lia.
Qed.

Lemma find_from_none t l i :
  Py.find_from t l i = -1 -> 0 <= i -> t ∉ l.
Proof.
  revert i. induction l as [| x l IH]; intros i Hf Hi; simpl in *.
  - apply not_elem_of_nil.
  - destruct (x =? t) eqn:Hx; [lia |].
    apply not_elem_of_cons. split; [| by apply (IH (i + 1)); [| lia]].
    apply Z.eqb_neq in Hx. congruence.
Qed.

Lemma find_from_absent t l i :
  t ∉ l -> Py.find_from t l i = -1.
Proof.
  revert i. induction l as [| x l IH]; intros i Hl; simpl; [done |].
  apply not_elem_of_cons in Hl as [Hne Hl].
  destruct (x =? t) eqn:Hx; [apply Z.eqb_eq in Hx; congruence |].
  by apply IH.
Qed.

(** The position found is the first one that holds [t]. *)
Lemma find_from_prefix t (pre : list Z) post i :
  t ∉ pre -> Py.find_from t (pre ++ t :: post) i = i + Py.len pre.
Proof.
  revert i. unfold Py.len.
  induction pre as [| x pre IH]; intros i Hpre; simpl.
  - rewrite Z.eqb_refl. lia.
  - apply not_elem_of_cons in Hpre as [Hne Hpre].
    destruct (x =? t) eqn:Hx; [apply Z.eqb_eq in Hx; congruence |].
    rewrite IH by done. lia.
Qed.

End Py_facts.

(** ** Extraction: ids, duplicates, dropped candidates *)

Module Dump_props.
Section WithTables.
Context {T : Tables}.
Import Dump Dump_inv.

(** C4.  In either mode the ids of the blocks written, in the order in
    which they are written, are 0, 1, 2, ... without a gap (and the
    counter is their number), and every duplicate block refers to an id
    below its own. *)
Theorem ids_consecutive_duplicates_refer_back (m : mode) (rom : bytes) :
  map id (output_file (main m rom))
    = map Z.of_nat (seq 0 (length (output_file (main m rom))))
  /\ string_id_counter (main m rom) = Z.of_nat (length (output_file (main m rom)))
  /\ forall b o,
       b ∈ output_file (main m rom) -> contents b = DuplicateOf o -> 0 <= o < id b.
Proof.
  destruct (inv_main m rom) as [Hc Hids _ _ _ Hdup _].
  split; [exact Hids |]. split; [exact Hc | exact Hdup].
Qed.

(** Every duplicate block refers to the block that holds the text of its
    offset. *)
Lemma duplicate_refers_to_text (m : mode) (rom : bytes) :
  forall off cid,
    seen_text_offsets (main m rom) !! off = Some cid ->
    exists ptr s, {| id := cid; pointer_offset := ptr; text_offset := off;
                     contents := Text s |} ∈ output_file (main m rom).
Proof. exact (inv_seen_text _ _ (inv_main m rom)). Qed.

(** C2, as the code has it.  A candidate whose target is in the index of
    seen offsets gets a duplicate block with the id kept there, in both
    modes.  Mode "scan" writes it without a call of [read_string_from]:
    the list of decoded offsets does not change, in any state.  Mode
    "tables" decodes and classifies the text first, once more, and in a
    state of a run (one that satisfies the invariant) finds it valid
    again. *)
Theorem duplicate_written_for_seen_offset (rom : bytes) (st : state) (cid : Z)
    (p : pointer_info) :
  seen_text_offsets st !! file_offset p = Some cid ->
  scan_pointer rom st p
    = write_block st (seen_text_offsets st) (ptr_offset p) (file_offset p)
        (DuplicateOf cid) (decoded st)
  /\ (forall cur,
        OFFSET_MIN_VALID <= file_offset p < Py.len rom ->
        file_offset p < 0x01000000 ->
        inv rom st ->
        tables_row rom st cur (0x08000000 + file_offset p)
        = write_block st (seen_text_offsets st) cur (file_offset p)
            (DuplicateOf cid) (decoded st ++ [file_offset p])).
Proof.
  intros Hseen. split.
  - unfold scan_pointer. by rewrite Hseen.
  - intros cur Hoff Hwin Hinv.
    unfold tables_row, in_window, OFFSET_MIN_VALID in *.
    replace (0x08000000 + file_offset p - 0x08000000) with (file_offset p) by lia.
    assert (H1 : (0x08000000 <=? 0x08000000 + file_offset p) = true) by lia.
    assert (H2 : (0x08000000 + file_offset p <? 0x09000000) = true) by lia.
    assert (H3 : (file_offset p <? Py.len rom) = true) by lia.
    assert (H4 : (0x0010C000 <=? file_offset p) = true) by lia.
    rewrite H1, H2, H3, H4. simpl.
    rewrite (inv_seen_valid _ _ Hinv _ _ Hseen). by rewrite Hseen.
Qed.


(** C10.  [read_string_from] returns [None], and raises nothing, when
    the offset is at or past the end of the image and when no terminator
    stands at or after the offset; the filter rejects [None], and no
    block of a run has such a text offset. *)
Theorem read_string_absent (data : bytes) (offset t : Z) :
  Py.len data <= offset
  \/ (forall i, 0 <= i -> offset <= i -> data !! Z.to_nat i <> Some t) ->
  read_string_from data offset t = None
  /\ is_valid_string (read_string_from data offset t) = false
  /\ (t = terminator ->
      forall m b, b ∈ output_file (main m data) -> text_offset b <> offset).
Proof.
  intros Habs.
  assert (Hnone : read_string_from data offset t = None).
  { unfold read_string_from.
    destruct (Py.len data <=? offset) eqn:Hlen; [done |].
    destruct Habs as [Hle | Hno]; [lia |].
    assert (Hfind : Py.find data t offset = -1).
    { unfold Py.find. apply Py_facts.find_from_absent.
      intros Hin. apply list_elem_of_lookup in Hin as [j Hj].
      rewrite lookup_drop in Hj.
      apply (Hno (Z.of_nat (Z.to_nat (Py.slice_index (Py.len data) offset) + j))).
      - lia.
      - unfold Py.slice_index. destruct (offset <? 0) eqn:Hneg; lia.
      - by rewrite Nat2Z.id. }
    by rewrite Hfind. }
  rewrite Hnone. split; [done |]. split; [done |].
  intros -> m b Hb Heq.
  pose proof (inv_out_valid _ _ (inv_main m data) b Hb) as Hv.
  unfold valid_at in Hv. rewrite Heq, Hnone in Hv. discriminate.
Qed.

(** *** Mode "scan": the offsets read *)

Lemma scan_offsets_exactly (rom : bytes) (o : Z) :
  o ∈ Py.range 0 (Py.len rom - 4) 4 <-> 0 <= o /\ o mod 4 = 0 /\ o + 4 < Py.len rom.
Proof.
  rewrite Py_facts.range_spec by lia. split.
  - intros (k & Hk & -> & Hlt). rewrite Z.add_0_l, Z.mod_mul by lia. lia.
  - intros (Ho & Hmod & Hlt). exists (o / 4). split; [apply Z.div_pos; lia |].
    split; [| lia]. rewrite (Z.div_mod o 4) at 1 by lia. lia.
Qed.

Lemma last_aligned_word_not_read (rom : bytes) :
  Py.len rom - 4 ∉ Py.range 0 (Py.len rom - 4) 4.
Proof. rewrite scan_offsets_exactly. lia. Qed.

Lemma scan_candidate_offset (rom : bytes) (o : Z) (p : pointer_info) :
  p ∈ scan_candidate rom o -> ptr_offset p = o.
Proof.
  unfold scan_candidate.
  destruct (Py.unpack_u32 _); [| by intros ?%elem_of_nil].
  destruct (in_window _); [| by intros ?%elem_of_nil].
  destruct (_ && _); [| by intros ?%elem_of_nil].
  by intros ->%list_elem_of_singleton.
Qed.

Lemma all_pointers_offsets (rom : bytes) (p : pointer_info) :
  p ∈ all_pointers rom -> ptr_offset p ∈ Py.range 0 (Py.len rom - 4) 4.
Proof.
  unfold all_pointers. rewrite list_elem_of_In, in_flat_map.
  intros (o & Ho & Hp). apply list_elem_of_In in Hp.
  apply scan_candidate_offset in Hp. subst o. by apply list_elem_of_In.
Qed.

Lemma scan_pointer_output (rom : bytes) (st : state) (p : pointer_info) (b : block) :
  b ∈ output_file (scan_pointer rom st p) ->
  b ∈ output_file st \/ pointer_offset b = ptr_offset p.
Proof.
  unfold scan_pointer.
  destruct (seen_text_offsets st !! _); simpl.
  - intros [Hb | ->%list_elem_of_singleton]%elem_of_app; [by left | by right].
  - destruct (is_valid_string _); simpl; [| by left].
    intros [Hb | ->%list_elem_of_singleton]%elem_of_app; [by left | by right].
Qed.

Lemma scan_fold_output (rom : bytes) (l : list pointer_info) : forall st b,
  b ∈ output_file (fold_left (scan_pointer rom) l st) ->
  b ∈ output_file st \/ exists p, p ∈ l /\ pointer_offset b = ptr_offset p.
Proof.
  induction l as [| p l IH]; intros st b Hb; simpl in *; [by left |].
  destruct (IH _ _ Hb) as [Hin | (q & Hq & Hpq)].
  - destruct (scan_pointer_output _ _ _ _ Hin) as [Hst | Hp]; [by left |].
    right. exists p. split; [apply elem_of_cons; by left | done].
  - right. exists q. split; [apply elem_of_cons; by right | done].
Qed.

(** Mode "scan" reads the offsets [o] with [o mod 4 = 0] and
    [o + 4 < len rom], and every block it writes comes from one of them. *)
Lemma scan_blocks_from_read_offsets (rom : bytes) (b : block) :
  b ∈ output_file (main scan rom) ->
  0 <= pointer_offset b /\ pointer_offset b mod 4 = 0
  /\ pointer_offset b + 4 < Py.len rom.
Proof.
  intros Hb. simpl in Hb. unfold scan_mode in Hb.
  destruct (scan_fold_output _ _ _ _ Hb) as [Hin | (p & Hp & ->)].
  - by apply elem_of_nil in Hin.
  - by apply scan_offsets_exactly, all_pointers_offsets.
Qed.

End WithTables.
End Dump_props.

(** ** Extraction: runs on the example images *)

Module Dump_examples.
Import Dump Dump_inv Dump_props Examples.

#[local] Existing Instance sample_tables.

Lemma ids_consecutive_witness :
  map id (output_file (main tables rom_two_rows)) = [0; 1]
  /\ forall b o, b ∈ output_file (main tables rom_two_rows) ->
       contents b = DuplicateOf o -> 0 <= o < id b.
Proof.
  destruct (ids_consecutive_duplicates_refer_back tables rom_two_rows) as (Hids & _ & Hdup).
  split; [| exact Hdup].
  rewrite Hids. vm_compute. reflexivity.
Defined.

(** C2, as the claim has it, fails in mode "tables": the second row of
    [rom_two_rows] points at an offset that is in the index, and the
    block written for it comes with a second decoding of that offset. *)
Lemma tables_mode_decodes_seen_offset :
  let st := tables_row rom_two_rows initial 0x10F488 0x0810F498 in
  seen_text_offsets st !! 0x10F498 = Some 0
  /\ decoded st = [0x10F498]
  /\ decoded (tables_row rom_two_rows st 0x10F490 0x0810F498) = [0x10F498; 0x10F498]
  /\ output_file (main tables rom_two_rows)
     = [{| id := 0; pointer_offset := 0x10F488; text_offset := 0x10F498;
           contents := Text [72; 101; 108; 108; 111] |};
        {| id := 1; pointer_offset := 0x10F490; text_offset := 0x10F498;
           contents := DuplicateOf 0 |}]
  /\ decoded (main tables rom_two_rows) = [0x10F498; 0x10F498].
Proof. vm_compute. repeat split; reflexivity. Qed.

Lemma duplicate_written_witness :
  let st := tables_row rom_two_rows initial 0x10F488 0x0810F498 in
  let p := {| ptr_offset := 0x10F490; file_offset := 0x10F498 |} in
  scan_pointer rom_two_rows st p
    = write_block st (seen_text_offsets st) 0x10F490 0x10F498 (DuplicateOf 0) (decoded st)
  /\ tables_row rom_two_rows st 0x10F490 0x0810F498
    = write_block st (seen_text_offsets st) 0x10F490 0x10F498 (DuplicateOf 0)
        (decoded st ++ [0x10F498]).
Proof.
  intros st p.
  destruct (duplicate_written_for_seen_offset rom_two_rows st 0 p) as [Hscan Htables].
  - vm_compute. reflexivity.
  - split; [exact Hscan |].
    apply (Htables 0x10F490).
    + vm_compute. split; [discriminate | reflexivity].
    + reflexivity.
    + apply inv_tables_row, inv_initial.
Defined.


Lemma read_string_absent_witness :
  read_string_from [65; 66] 5 0 = None
  /\ read_string_from [65; 66] 0 0 = None.
Proof.
  split.
  - apply (read_string_absent [65; 66] 5 0). left. vm_compute. discriminate.
  - apply (read_string_absent [65; 66] 0 0). right.
    intros i Hi _. destruct (Z.to_nat i) as [| [| n]]; simpl; discriminate.
Defined.

(** C6 on [rom_last_word].  The last aligned word, at [len rom - 4],
    holds an address of the window whose target is a text that the
    filter accepts; [range(0, rom_size - 4, 4)] stops before it, and no
    block of the run comes from it. *)
Theorem scan_skips_last_aligned_word :
  let o := Py.len rom_last_word - 4 in
  o mod 4 = 0 /\ o + 4 <= Py.len rom_last_word
  /\ scan_candidate rom_last_word o = [{| ptr_offset := o; file_offset := 0x10C000 |}]
  /\ is_valid_string (read_string_from rom_last_word 0x10C000 terminator) = true
  /\ (o ∉ Py.range 0 (Py.len rom_last_word - 4) 4)
  /\ forall b, b ∈ output_file (main scan rom_last_word) -> pointer_offset b <> o.
Proof.
  intros o. subst o.
  split; [vm_compute; reflexivity |].
  split; [lia |].
  split; [vm_compute; reflexivity |].
  split; [vm_compute; reflexivity |].
  split; [apply last_aligned_word_not_read |].
  intros b Hb. apply scan_blocks_from_read_offsets in Hb. lia.
Qed.

End Dump_examples.

(** ** Re-insertion: the first pass *)

Module Repack_props.
Section WithTables.
Context {T : Tables}.
Import Repack.

Lemma pass_app step pre post : forall st,
  pass step (pre ++ post) st
  = match pass step pre st with
    | Continue st' => pass step post st'
    | stop => stop
    end.
Proof.
  induction pre as [| e pre IH]; intros st; simpl; [done |].
  destruct (step st e); [apply IH | done | done].
Qed.

Lemma place_cursor st e st' :
  place st e = Continue st' ->
  current_free_space_offset st <= ROM_END_OFFSET ->
  current_free_space_offset st <= current_free_space_offset st' <= ROM_END_OFFSET.
Proof.
  unfold place. destruct (data e) as [o | off text].
  - intros [= <-]. lia.
  - destruct (Repack_codec.value _) as [b |]; [| done].
    destruct (Py.len b <=? original_length _ _).
    + destruct (fill _ _ _ _); [| done]. intros [= <-]. simpl. lia.
    + destruct (ROM_END_OFFSET <? _) eqn:Hfull; [done |].
      intros [= <-]. simpl. unfold Py.len in *. lia.
Qed.

Lemma first_pass_cursor entries : forall st st',
  first_pass entries st = Continue st' ->
  current_free_space_offset st <= ROM_END_OFFSET ->
  current_free_space_offset st <= current_free_space_offset st' <= ROM_END_OFFSET.
Proof.
  unfold first_pass.
  induction entries as [| e entries IH]; intros st st' Hpass Hst; simpl in Hpass.
  - injection Hpass as <-. lia.
  - destruct (place st e) as [st1 | |] eqn:Hplace; [| done | done].
    destruct (place_cursor _ _ _ Hplace Hst) as [H1 H2].
    destruct (IH _ _ Hpass H2). lia.
Qed.

(** C3.  When the text of an entry does not fit its original space and
    the cursor plus the encoded length is beyond [ROM_END_OFFSET], the
    first pass ends there with the fatal error: nothing more is written
    to the buffer, the run that reaches this entry writes no file, and
    the cursor of a first pass never goes beyond [ROM_END_OFFSET]. *)
Theorem out_of_free_space_is_fatal (st : state) (e : entry) (off : Z) (text : str)
    (new_text_bytes : bytes) :
  data e = Original off text ->
  Repack_codec.value (Repack_codec.encode_string text) = Some new_text_bytes ->
  original_length (rom_data st) off < Py.len new_text_bytes ->
  ROM_END_OFFSET < current_free_space_offset st + Py.len new_text_bytes ->
  place st e = Fatal
  /\ (forall pre post st0,
        first_pass pre st0 = Continue st -> first_pass (pre ++ e :: post) st0 = Fatal)
  /\ (forall pre post rom,
        first_pass pre (initial rom) = Continue st -> main rom (pre ++ e :: post) = None)
  /\ (forall entries rom st',
        first_pass entries (initial rom) = Continue st' ->
        current_free_space_offset st' <= ROM_END_OFFSET).
Proof.
  intros Hdata Henc Hfit Hfull.
  assert (Hplace : place st e = Fatal).
  { unfold place. rewrite Hdata, Henc.
    destruct (Py.len new_text_bytes <=? _) eqn:Hle; [lia |].
    destruct (ROM_END_OFFSET <? _) eqn:Hlt; [done | lia]. }
  assert (Hrun : forall pre post st0,
    first_pass pre st0 = Continue st -> first_pass (pre ++ e :: post) st0 = Fatal).
  { intros pre post st0 Hpre. unfold first_pass in *.
    rewrite pass_app, Hpre. simpl. by rewrite Hplace. }
  split; [done |]. split; [done |]. split.
  - intros pre post rom Hpre. unfold main. by rewrite (Hrun pre post _ Hpre).
  - intros entries rom st' Hpass.
    apply (first_pass_cursor _ _ _ Hpass). vm_compute. discriminate.
Qed.

End WithTables.
End Repack_props.

(** ** Re-insertion: runs on the examples *)

Module Repack_examples.
Import Repack Repack_props Examples.

#[local] Existing Instance sample_tables.

Lemma out_of_free_space_witness :
  place nearly_full entry_longer = Fatal.
Proof.
  apply (out_of_free_space_is_fatal nearly_full entry_longer 0 [65; 66; 67] [65; 66; 67; 0]).
  - reflexivity.
  - vm_compute. reflexivity.
  - vm_compute. reflexivity.
  - vm_compute. reflexivity.
Defined.

(** C5 on [rom_shared_tail].  In the image as it was read, the text at 3
    has four bytes up to and with its terminator.  The first entry is
    written in place and the rest of its space is filled with
    terminators; when the second entry is reached, the length computed
    for the text at 3 is 1, its four bytes no longer fit, and it goes to
    the free space.  Alone, the same entry stays at 3. *)
Theorem original_length_reads_written_buffer :
  original_length rom_shared_tail 3 = 4
  /\ (exists st1,
        place (initial rom_shared_tail) entry_whole = Continue st1
        /\ rom_data st1 = [65; 66; 0; 0; 0; 0; 0; 9; 9; 9; 9; 9; 9; 9; 9]
        /\ original_length (rom_data st1) 3 = 1)
  /\ (exists st2,
        first_pass [entry_whole; entry_tail] (initial rom_shared_tail) = Continue st2
        /\ repointed_locations st2 !! 1 = Some free_space_start_offset)
  /\ (exists st2,
        first_pass [entry_tail] (initial rom_shared_tail) = Continue st2
        /\ repointed_locations st2 !! 1 = Some 3).
Proof.
  split; [reflexivity |]. split; [| split].
  - eexists. split; [vm_compute; reflexivity |]. split; reflexivity.
  - eexists. split; [vm_compute; reflexivity |]. reflexivity.
  - eexists. split; [vm_compute; reflexivity |]. reflexivity.
Qed.

End Repack_examples.

(** ** The codec and the escape tokens *)

Module Codec_props.
Section WithTables.
Context {T : Tables}.
Import Codec Repack_codec.

Lemma sjis_of_jis_of_sjis c c2 j1 j2 :
  is_lead c = true -> bad_trail c2 = false ->
  jis_of_sjis c c2 = (j1, j2) ->
  sjis_of_jis (j1 * 256 + j2) = [c; c2]
  /\ 0x21 <= j1 <= 0x7e /\ 0x21 <= j2 <= 0x7e.
Proof.
  unfold is_lead, bad_trail, jis_of_sjis, sjis_of_jis.
  intros Hlead Htrail [= <- <-].
  destruct (c <? 0xe0) eqn:E1; destruct (c2 <? 0x80) eqn:E2;
  match goal with |- context [(?x <? 0x5e)] => destruct (x <? 0x5e) eqn:E3 end.
  all: match goal with |- context [(?a * 256 + ?b) / 256] =>
     replace ((a * 256 + b) / 256) with a by (apply Z.div_unique with b; lia);
     replace ((a * 256 + b) mod 256) with b by (apply Z.mod_unique with a; lia) end.
  all: match goal with |- context [Z.odd ?a] =>
     match a with
     | 2 * ?k + 0 + 33 - 33 => replace (Z.odd a) with false by (symmetry; replace a with (2 * k) by lia; rewrite Z.odd_mul; reflexivity);
         replace (a / 2) with k by (apply Z.div_unique with 0; lia)
     | 2 * ?k + 1 + 33 - 33 => replace (Z.odd a) with true by (symmetry; replace a with (1 + 2 * k) by lia; rewrite Z.odd_add_mul_2; reflexivity);
         replace (a / 2) with k by (apply Z.div_unique with 1; lia)
     end end.
  all: repeat match goal with |- context [?x <? ?y] => destruct (x <? y) eqn:? end.
  all: try lia.
  all: split; [f_equal; [lia | f_equal; lia] | lia].
Qed.

#[local] Arguments bind_cons : simpl never.

Lemma decode_unfold errors c rest :
  decode errors (c :: rest) =
  if c <? 0x80 then bind_cons (Some [c]) (decode errors rest)
  else if (0xa1 <=? c) && (c <=? 0xdf) then
    bind_cons (Some [0xfec0 + c]) (decode errors rest)
  else if is_lead c then
    match rest with
    | [] => bind_cons (errors [c]) (Some [])
    | c2 :: rest' =>
      if bad_trail c2 then bind_cons (errors [c]) (decode errors rest)
      else
        let '(j1, j2) := jis_of_sjis c c2 in
        if (j1 =? 0x21) && (j2 =? 0x40) then
          bind_cons (Some [0xff3c]) (decode errors rest')
        else
          match jisx0208 j1 j2 with
          | Some d => bind_cons (Some [d]) (decode errors rest')
          | None => bind_cons (errors [c]) (decode errors rest)
          end
    end
  else bind_cons (errors [c]) (decode errors rest).
Proof. destruct rest; reflexivity. Qed.

Lemma bind_cons_some a k t :
  bind_cons (Some a) k = Some t <-> exists t', k = Some t' /\ t = a ++ t'.
Proof.
  unfold bind_cons. destruct k as [b |].
  - split; [intros [= <-]; by exists b | intros (t' & [= <-] & ->); done].
  - split; [done | intros (t' & ? & _); done].
Qed.

Lemma bind_cons_none k : bind_cons None k = None.
Proof. done. Qed.

Lemma encode_cons errors c s b b' :
  encode_char c = Some b -> encode errors s = Some b' ->
  encode errors (c :: s) = Some (b ++ b').
Proof. intros Hc Hs. simpl. by rewrite Hc, Hs. Qed.

Lemma testbit_15_jis j1 j2 :
  0x21 <= j1 <= 0x7e -> 0x21 <= j2 <= 0x7e -> Z.testbit (j1 * 256 + j2) 15 = false.
Proof.
  intros H1 H2. apply Z.bits_above_log2; [lia |].
  apply Z.log2_lt_pow2; [lia |]. change (2 ^ 15) with 32768. lia.
Qed.

Lemma strict_decode_inverts (Hagree : tables_agree T) (n : nat) :
  forall run text,
    (length run <= n)%nat ->
    decode strict run = Some text ->
    decode custom_sjis_error_handler run = Some text
    /\ encode strict_encode text = Some run.
Proof.
  destruct Hagree as [Htable Hsolidus].
  induction n as [| n IH]; intros run text Hlen Hdec.
  { destruct run; [| simpl in Hlen; lia]. simpl in Hdec. injection Hdec as <-. done. }
  destruct run as [| c rest]; [simpl in Hdec; injection Hdec as <-; done |].
  simpl in Hlen. rewrite decode_unfold in Hdec. rewrite decode_unfold.
  destruct (c <? 0x80) eqn:Hascii.
  { apply bind_cons_some in Hdec as (t' & Hrest & ->).
    destruct (IH rest t') as [IH1 IH2]; [lia | done |].
    rewrite IH1. split; [done |].
    apply (encode_cons _ c t' [c] rest); [| done].
    unfold encode_char. by rewrite Hascii. }
  destruct ((0xa1 <=? c) && (c <=? 0xdf)) eqn:Hkana.
  { apply bind_cons_some in Hdec as (t' & Hrest & ->).
    destruct (IH rest t') as [IH1 IH2]; [lia | done |].
    rewrite IH1. split; [done |].
    apply (encode_cons _ (0xfec0 + c) t' [c] rest); [| done].
    unfold encode_char.
    destruct (0xfec0 + c <? 0x80) eqn:?; [lia |].
    destruct (0xfec0 + c =? 0xa5) eqn:?; [lia |].
    destruct (0xfec0 + c =? 0x203e) eqn:?; [lia |].
    destruct ((0xff61 <=? 0xfec0 + c) && (0xfec0 + c <=? 0xff9f)) eqn:?; [| lia].
    do 2 f_equal. lia. }
  destruct (is_lead c) eqn:Hlead; [| by rewrite bind_cons_none in Hdec].
  destruct rest as [| c2 rest']; [by rewrite bind_cons_none in Hdec |].
  destruct (bad_trail c2) eqn:Htrail; [by rewrite bind_cons_none in Hdec |].
  destruct (jis_of_sjis c c2) as [j1 j2] eqn:Hjis.
  destruct (sjis_of_jis_of_sjis c c2 j1 j2 Hlead Htrail Hjis) as (Hback & Hj1 & Hj2).
  simpl in Hlen.
  destruct ((j1 =? 0x21) && (j2 =? 0x40)) eqn:Hspecial.
  { apply bind_cons_some in Hdec as (t' & Hrest & ->).
    destruct (IH rest' t') as [IH1 IH2]; [lia | done |].
    rewrite IH1. split; [done |].
    apply (encode_cons _ 0xff3c t' [c; c2] rest'); [| done].
    assert (j1 = 0x21 /\ j2 = 0x40) as [-> ->] by lia.
    unfold encode_char. change (0x21 * 256 + 0x40) with 0x2140 in Hback. simpl.
    destruct Hsolidus as [-> | ->]; simpl; by rewrite <- Hback. }
  destruct (jisx0208 j1 j2) as [d |] eqn:Hd; [| by rewrite bind_cons_none in Hdec].
  apply bind_cons_some in Hdec as (t' & Hrest & ->).
  destruct (IH rest' t') as [IH1 IH2]; [lia | done |].
  rewrite IH1. split; [done |].
  apply (encode_cons _ d t' [c; c2] rest'); [| done].
  destruct (Htable j1 j2 d Hj1 Hj2 Hd) as (Hrange & Hyen & Hover & Hhalf & Henc).
  unfold encode_char.
  destruct (d <? 0x80) eqn:?; [lia |].
  destruct (d =? 0xa5) eqn:?; [lia |].
  destruct (d =? 0x203e) eqn:?; [lia |].
  destruct ((0xff61 <=? d) && (d <=? 0xff9f)) eqn:?; [lia |].
  destruct (0xFFFF <? d) eqn:?; [lia |].
  rewrite Henc, testbit_15_jis by done. by rewrite Hback.
Qed.

Lemma encode_strict_replace s b :
  encode strict_encode s = Some b -> encode replace s = Some b.
Proof.
  revert b. induction s as [| c s IH]; intros b; simpl; [done |].
  destruct (encode_char c) as [bc |]; [| done].
  destruct (encode strict_encode s) as [bs |]; [| done].
  intros [= <-]. by rewrite (IH bs).
Qed.

Lemma encode_replace_total s : is_Some (encode replace s).
Proof.
  induction s as [| c s [b IH]]; simpl; [by eexists |].
  rewrite IH. destruct (encode_char c); by eexists.
Qed.



Lemma encode_replace_chars s :
  encode replace s = Some (flat_map encode_or_replace s).
Proof.
  induction s as [| c s IH]; simpl; [done |].
  rewrite IH. unfold encode_or_replace. by destruct (encode_char c).
Qed.

Lemma replace1_same a s : Py.replace1 a a s = s.
Proof.
  unfold Py.replace1. induction s as [| c s IH]; simpl; [done |].
  rewrite IH. destruct (c =? a) eqn:Hc; [| done]. apply Z.eqb_eq in Hc. by subst.
Qed.

Lemma has_hex_tag_head s : has_hex_tag s = false -> match_hex_tag s = None.
Proof.
  destruct s as [| c r]; [done |]. cbn [has_hex_tag].
  intros [Hhead _]%orb_false_elim.
  apply bool_decide_eq_false in Hhead.
  destruct (match_hex_tag (c :: r)); [| done].
  exfalso. apply Hhead. by eexists.
Qed.

Lemma has_hex_tag_tail c r : has_hex_tag (c :: r) = false -> has_hex_tag r = false.
Proof. cbn [has_hex_tag]. by intros [_ Htail]%orb_false_elim. Qed.

Lemma re_split_advance_unfold c r :
  re_split (c :: r) 0 true =
  match match_hex_tag r with
  | Some (n, g) => Some [c] :: Some (take n r) :: Some g :: re_split r n false
  | None => Some [c] :: Some [] :: None :: re_split r 0 true
  end.
Proof. reflexivity. Qed.

Lemma re_split_start_unfold c r :
  re_split (c :: r) 0 false =
  match match_hex_tag (c :: r) with
  | Some (n, g) =>
    Some [] :: Some (take n (c :: r)) :: Some g :: re_split r (n - 1) false
  | None => Some [] :: Some [] :: None :: re_split (c :: r) 0 true
  end.
Proof. reflexivity. Qed.

Lemma re_split_no_tag_advance s :
  has_hex_tag s = false -> re_split s 0 true = char_parts s ++ [Some []].
Proof.
  induction s as [| c r IH]; intros Hno; [done |].
  rewrite re_split_advance_unfold.
  pose proof (has_hex_tag_tail _ _ Hno) as Hr.
  rewrite (has_hex_tag_head _ Hr), (IH Hr). done.
Qed.

Lemma re_split_no_tag s :
  has_hex_tag s = false ->
  re_split s 0 false = Some [] :: Some [] :: None :: char_parts s ++ [Some []].
Proof.
  intros Hno. destruct s as [| c r]; [done |].
  rewrite re_split_start_unfold, (has_hex_tag_head _ Hno).
  by rewrite re_split_no_tag_advance.
Qed.

Lemma encode_parts_chars s : forall rest acc printed,
  encode_parts (char_parts s ++ rest) acc printed
  = encode_parts rest (acc ++ flat_map encode_or_replace s) printed.
Proof.
  induction s as [| c s IH]; intros rest acc printed.
  { simpl. by rewrite app_nil_r. }
  cbn [char_parts flat_map app]. cbn [encode_parts].
  change (tag_lookup [c]) with (@None bytes).
  cbn [Py.startswith]. rewrite andb_false_r. cbn [andb].
  rewrite encode_replace_chars. cbn [flat_map]. rewrite app_nil_r.
  fold (char_parts s). rewrite IH. by rewrite <- app_assoc.
Qed.

Lemma encode_string_no_tag text :
  has_hex_tag text = false ->
  encode_string text
  = {| warnings := []; value := Some (flat_map encode_or_replace text ++ [terminator]) |}.
Proof.
  intros Hno. unfold encode_string.
  change newline_char with 10. rewrite replace1_same, re_split_no_tag by done.
  cbn [encode_parts].
  rewrite encode_parts_chars. cbn [encode_parts]. done.
Qed.

Lemma encode_parts_warnings parts : forall acc printed,
  warnings (encode_parts parts acc printed) = printed.
Proof.
  induction parts as [| part parts IH]; intros acc printed; [done |].
  cbn [encode_parts]. destruct part as [[| c part] |]; [apply IH | | apply IH].
  destruct (tag_lookup (c :: part)); [apply IH |].
  destruct (_ && _).
  - destruct (Py.fromhex _); [apply IH | done].
  - destruct (encode_replace_total (c :: part)) as [b ->]. apply IH.
Qed.


End WithTables.
End Codec_props.

(** ** The codec and the escape tokens: the claims *)

Module Codec_claims.
Section WithTables.
Context {T : Tables}.
Import Codec Repack_codec Codec_props Dump.

Lemma slice_index_nonneg n i : 0 <= i -> Py.slice_index n i = Z.min i n.
Proof.
  intros Hi. unfold Py.slice_index.
  destruct (i <? 0) eqn:Hneg; [apply Z.ltb_lt in Hneg; lia | done].
Qed.

Lemma find_in_run (run rest : bytes) (t : Z) :
  t ∉ run -> Py.find (run ++ t :: rest) t 0 = Py.len run.
Proof.
  intros Hrun. unfold Py.find. rewrite slice_index_nonneg by lia.
  replace (Z.min 0 (Py.len (run ++ t :: rest))) with 0 by (unfold Py.len; lia).
  change (Z.to_nat 0) with 0%nat.
  rewrite drop_0, Py_facts.find_from_prefix by done. lia.
Qed.

Lemma slice_of_run (run rest : bytes) :
  Py.slice (run ++ rest) 0 (Py.len run) = run.
Proof.
  unfold Py.slice. rewrite !slice_index_nonneg by (unfold Py.len; lia).
  replace (Z.min 0 (Py.len (run ++ rest))) with 0 by (unfold Py.len; lia).
  replace (Z.min (Py.len run) (Py.len (run ++ rest))) with (Py.len run)
    by (unfold Py.len; rewrite length_app; lia).
  change (Z.to_nat 0) with 0%nat.
  rewrite drop_0, Z.sub_0_r. unfold Py.len. rewrite Nat2Z.id.
  by rewrite take_app_length.
Qed.

Lemma read_string_from_run (run rest : bytes) (text : str) (t : Z) :
  t ∉ run ->
  decode custom_sjis_error_handler run = Some text ->
  read_string_from (run ++ t :: rest) 0 t = Some text.
Proof.
  intros Hrun Hdec. unfold read_string_from.
  assert (Hlen : (Py.len (run ++ t :: rest) <=? 0) = false).
  { unfold Py.len. rewrite length_app. cbn [length]. apply Z.leb_gt. lia. }
  rewrite Hlen, find_in_run by done.
  assert (Hneg : (Py.len run =? -1) = false) by (unfold Py.len; apply Z.eqb_neq; lia).
  rewrite Hneg, slice_of_run. change newline_char with 10.
  by rewrite replace1_same, Hdec.
Qed.



(** C8, as the code has it.  The decoder reports the bytes 0xFF and
    0xFE one at a time, so the text read from FF FE 00 holds two
    tokens, [<$FF$>] and [<$FE$>]; the filter rejects it. *)
Theorem unmappable_pair_gives_two_tokens :
  read_string_from [0xFF; 0xFE; 0x00] 0 terminator
    = Some [60; 36; 70; 70; 36; 62; 60; 36; 70; 69; 36; 62]
  /\ is_valid_string (Some [60; 36; 70; 70; 36; 62; 60; 36; 70; 69; 36; 62]) = false.
Proof. split; vm_compute; reflexivity. Qed.

End WithTables.
End Codec_claims.

(** ** The codec on the sample tables *)

Module Codec_examples.
Import Codec Repack_codec Codec_props Codec_claims Dump.

#[local] Existing Instance sample_tables.

Lemma sample_tables_agree : tables_agree sample_tables.
Proof.
  split.
  - intros j1 j2 d H1 H2. simpl.
    destruct ((j1 =? 0x24) && (0x21 <=? j2) && (j2 <=? 0x73)) eqn:Hrow; [| done].
    intros [= <-].
    assert (Hin : (0x3041 <=? 0x3041 + (j2 - 0x21)) && (0x3041 + (j2 - 0x21) <=? 0x3093) = true) by lia.
    rewrite Hin. repeat split; try lia. f_equal. lia.
  - left. reflexivity.
Qed.





(** C8, as the claim has it, fails: the text read is not the one token
    [<$FFFE$>]. *)
Lemma pair_is_not_one_token :
  ~ (read_string_from [0xFF; 0xFE; 0x00] 0 terminator = Some [60; 36; 70; 70; 70; 69; 36; 62]
     /\ is_valid_string (Some [60; 36; 70; 70; 70; 69; 36; 62]) = false
     /\ value (encode_string [60; 36; 70; 70; 70; 69; 36; 62]) = Some [0xFF; 0xFE; 0x00]).
Proof. intros (Hdec & _ & _). vm_compute in Hdec. discriminate. Qed.

(** What [encode_string] makes of the one token and of the two: the
    inner group of the tag pattern is a part of its own in the result
    of [split], and its digits are encoded as text after the bytes. *)
Lemma one_token_reencoded :
  encode_string [60; 36; 70; 70; 70; 69; 36; 62]
  = {| warnings := []; value := Some [0xFF; 0xFE; 70; 70; 70; 69; 0] |}
  /\ encode_string [60; 36; 70; 70; 36; 62; 60; 36; 70; 69; 36; 62]
  = {| warnings := []; value := Some [0xFF; 70; 70; 0xFE; 70; 69; 0] |}.
Proof. split; vm_compute; reflexivity. Qed.

End Codec_examples.

(** ** Further properties of an extraction run *)

Module Dump_more.
Section WithTables.
Context {T : Tables}.
Import Dump Dump_inv Dump_more_def.

Lemma linked_initial rom : linked rom initial.
Proof. split; simpl; intros b; intros; by apply elem_of_nil in H. Qed.

Lemma valid_is_some (t : option str) :
  is_valid_string t = true -> exists s, t = Some s.
Proof. destruct t as [s |]; [by exists s | done]. Qed.

Lemma linked_write_duplicate rom st ptr off cid reads :
  linked rom st ->
  seen_text_offsets st !! off = Some cid ->
  backed rom {| id := string_id_counter st; pointer_offset := ptr;
                text_offset := off; contents := DuplicateOf cid |} ->
  linked rom (write_block st (seen_text_offsets st) ptr off (DuplicateOf cid) reads).
Proof.
  intros [Ht Hd Hdec Hb] Hseen Hnew. split; simpl.
  - intros b s [Hin | ->%list_elem_of_singleton]%elem_of_app Hc; [by eapply Ht | done].
  - intros b o [Hin | ->%list_elem_of_singleton]%elem_of_app Hc; [by apply Hd |].
    simpl in *. by inversion Hc; subst.
  - intros b s [Hin | ->%list_elem_of_singleton]%elem_of_app Hc; [by apply Hdec | done].
  - intros b [Hin | ->%list_elem_of_singleton]%elem_of_app; [by apply Hb | done].
Qed.

Lemma linked_write_text rom st ptr off s reads :
  linked rom st ->
  seen_text_offsets st !! off = None ->
  read_string_from rom off terminator = Some s ->
  backed rom {| id := string_id_counter st; pointer_offset := ptr;
                text_offset := off; contents := Text s |} ->
  linked rom (write_block st (<[off := string_id_counter st]> (seen_text_offsets st))
                ptr off (Text s) reads).
Proof.
  intros [Ht Hd Hdec Hb] Hseen Hread Hnew. split; simpl.
  - intros b s' [Hin | ->%list_elem_of_singleton]%elem_of_app Hc.
    + pose proof (Ht b s' Hin Hc) as Hb'.
      rewrite lookup_insert_ne; [done |]. intros Heq. rewrite <- Heq in Hb'. congruence.
    + simpl. by rewrite lookup_insert_eq.
  - intros b o [Hin | ->%list_elem_of_singleton]%elem_of_app Hc; [| done].
    pose proof (Hd b o Hin Hc) as Hb'.
    rewrite lookup_insert_ne; [done |]. intros Heq. rewrite <- Heq in Hb'. congruence.
  - intros b s' [Hin | ->%list_elem_of_singleton]%elem_of_app Hc; [by apply Hdec |].
    simpl in *. by inversion Hc; subst.
  - intros b [Hin | ->%list_elem_of_singleton]%elem_of_app; [by apply Hb | done].
Qed.

Lemma linked_decoded rom st reads :
  linked rom st ->
  linked rom {| string_id_counter := string_id_counter st;
                seen_text_offsets := seen_text_offsets st;
                output_file := output_file st;
                decoded := reads |}.
Proof. intros [Ht Hd Hdec Hb]. by split. Qed.

Lemma linked_tables_row rom st cur address :
  Py.unpack_u32 (Py.slice rom cur (cur + 4)) = Some address ->
  linked rom st -> linked rom (tables_row rom st cur address).
Proof.
  intros Hword Hl. unfold tables_row.
  destruct (in_window address) eqn:Hwin; [| done].
  destruct (_ && _) eqn:Hbounds; [| done].
  assert (Hback : forall i c, backed rom
    {| id := i; pointer_offset := cur; text_offset := address - 0x08000000;
       contents := c |}).
  { intros i c. unfold backed. simpl. split; [rewrite Hword; f_equal; lia | lia]. }
  destruct (is_valid_string _) eqn:Hv; [| by apply linked_decoded].
  destruct (valid_is_some _ Hv) as [s Hs]. rewrite Hs. simpl.
  destruct (seen_text_offsets st !! _) eqn:Hseen.
  - by apply linked_write_duplicate.
  - by apply linked_write_text.
Qed.

Lemma scan_candidate_backed rom o p :
  p ∈ scan_candidate rom o ->
  forall i c, backed rom {| id := i; pointer_offset := ptr_offset p;
                            text_offset := file_offset p; contents := c |}.
Proof.
  unfold scan_candidate.
  destruct (Py.unpack_u32 _) as [address |] eqn:Hword; [| by intros ?%elem_of_nil].
  destruct (in_window _); [| by intros ?%elem_of_nil].
  destruct (_ && _) eqn:Hb; [| by intros ?%elem_of_nil].
  intros ->%list_elem_of_singleton i c. unfold backed. simpl.
  split; [rewrite Hword; f_equal; lia | lia].
Qed.

Lemma all_pointers_backed rom p :
  p ∈ all_pointers rom ->
  forall i c, backed rom {| id := i; pointer_offset := ptr_offset p;
                            text_offset := file_offset p; contents := c |}.
Proof.
  unfold all_pointers. rewrite list_elem_of_In, in_flat_map.
  intros (o & _ & Hp). apply list_elem_of_In in Hp.
  by apply (scan_candidate_backed rom o).
Qed.

Lemma linked_scan_pointer rom st p :
  (forall i c, backed rom {| id := i; pointer_offset := ptr_offset p;
                             text_offset := file_offset p; contents := c |}) ->
  linked rom st -> linked rom (scan_pointer rom st p).
Proof.
  intros Hback Hl. unfold scan_pointer.
  destruct (seen_text_offsets st !! _) eqn:Hseen.
  - by apply linked_write_duplicate.
  - destruct (is_valid_string _) eqn:Hv; [| by apply linked_decoded].
    destruct (valid_is_some _ Hv) as [s Hs]. rewrite Hs. simpl.
    by apply linked_write_text.
Qed.

Lemma linked_tables_loop rom offsets : forall st,
  linked rom st -> linked rom (tables_loop rom offsets st).
Proof.
  induction offsets as [| o offsets IH]; intros st Hl; simpl; [done |].
  destruct (_ <? 4); [done |].
  destruct (Py.unpack_u32 _) eqn:Hword; [| done].
  apply IH. by apply linked_tables_row.
Qed.

Lemma linked_scan_fold rom l : forall st,
  (forall p, p ∈ l -> p ∈ all_pointers rom) ->
  linked rom st -> linked rom (fold_left (scan_pointer rom) l st).
Proof.
  induction l as [| p l IH]; intros st Hall Hl; simpl; [done |].
  apply IH.
  - intros q Hq. apply Hall. by apply elem_of_cons; right.
  - apply linked_scan_pointer; [| done].
    apply all_pointers_backed, Hall. by apply elem_of_cons; left.
Qed.

Lemma linked_main m rom : linked rom (main m rom).
Proof.
  destruct m; simpl.
  - unfold tables_mode. generalize pointer_tables. intros l.
    assert (H : forall st, linked rom st ->
      linked rom (fold_left (fun st table =>
        tables_loop rom (Py.range (start table) (end_ table) (entry_size (type table))) st)
        l st)).
    { induction l as [| t l IH]; intros st Hl; simpl; [done |].
      apply IH. by apply linked_tables_loop. }
    apply H, linked_initial.
  - by apply linked_scan_fold; [| apply linked_initial].
Qed.

(** The block of an id. *)
Lemma block_of_id rom st b :
  inv rom st -> b ∈ output_file st ->
  exists i, output_file st !! i = Some b /\ id b = Z.of_nat i.
Proof.
  intros Hinv [i Hi]%list_elem_of_lookup. exists i. split; [done |].
  pose proof (inv_ids _ _ Hinv) as Hids.
  assert (Hmap : map id (output_file st) !! i = Some (id b)).
  { by rewrite list_lookup_fmap, Hi. }
  rewrite Hids, list_lookup_fmap in Hmap.
  destruct (seq 0 (length (output_file st)) !! i) as [k |] eqn:Hk; [| done].
  apply lookup_seq in Hk as [-> _]. simpl in Hmap. by injection Hmap as <-.
Qed.

Lemma same_id_same_block rom st b1 b2 :
  inv rom st -> b1 ∈ output_file st -> b2 ∈ output_file st ->
  id b1 = id b2 -> b1 = b2.
Proof.
  intros Hinv H1 H2 Hid.
  destruct (block_of_id _ _ _ Hinv H1) as (i & Hi & Hi').
  destruct (block_of_id _ _ _ Hinv H2) as (j & Hj & Hj').
  assert (i = j) as -> by lia. congruence.
Qed.

(** X1.  In both modes a run writes at most one text block for a text
    offset: two blocks of the output that carry a text and have the
    same text offset are the same block. *)
Theorem one_text_block_per_offset (m : mode) (rom : bytes) (b1 b2 : block) (s1 s2 : str) :
  b1 ∈ output_file (main m rom) -> b2 ∈ output_file (main m rom) ->
  contents b1 = Text s1 -> contents b2 = Text s2 ->
  text_offset b1 = text_offset b2 ->
  b1 = b2.
Proof.
  intros H1 H2 Hc1 Hc2 Hoff.
  pose proof (linked_text _ _ (linked_main m rom) b1 s1 H1 Hc1) as Hs1.
  pose proof (linked_text _ _ (linked_main m rom) b2 s2 H2 Hc2) as Hs2.
  rewrite Hoff in Hs1. rewrite Hs1 in Hs2. injection Hs2 as Hid.
  by apply (same_id_same_block rom (main m rom)); [apply inv_main | | |].
Qed.

(** X2.  In both modes a duplicate block refers to a block that the
    run has written before it, that has the same text offset and that
    carries the text decoded at this offset. *)
Theorem duplicate_refers_to_canonical (m : mode) (rom : bytes) (b : block) (o : Z) :
  b ∈ output_file (main m rom) -> contents b = DuplicateOf o ->
  exists ptr s,
    {| id := o; pointer_offset := ptr; text_offset := text_offset b;
       contents := Text s |} ∈ output_file (main m rom)
    /\ read_string_from rom (text_offset b) terminator = Some s
    /\ o < id b.
Proof.
  intros Hb Hc.
  pose proof (linked_duplicate _ _ (linked_main m rom) b o Hb Hc) as Hseen.
  destruct (inv_seen_text _ _ (inv_main m rom) _ _ Hseen) as (ptr & s & Hin).
  exists ptr, s. split; [done |]. split.
  - by apply (linked_decodes _ _ (linked_main m rom) _ s Hin).
  - by apply (inv_dup _ _ (inv_main m rom) b o).
Qed.

(** X3.  In both modes every block of the output stands on a pointer of
    the image: the four bytes at its pointer offset are the address
    0x08000000 + text offset, the text offset is at least
    [OFFSET_MIN_VALID] and inside the image, the text at this offset
    passes the filter, and a text block carries this text. *)
Theorem block_stands_on_pointer (m : mode) (rom : bytes) (b : block) :
  b ∈ output_file (main m rom) ->
  Py.unpack_u32 (Py.slice rom (pointer_offset b) (pointer_offset b + 4))
    = Some (0x08000000 + text_offset b)
  /\ OFFSET_MIN_VALID <= text_offset b < Py.len rom
  /\ is_valid_string (read_string_from rom (text_offset b) terminator) = true
  /\ forall s, contents b = Text s ->
       read_string_from rom (text_offset b) terminator = Some s.
Proof.
  intros Hb.
  destruct (linked_backed _ _ (linked_main m rom) b Hb) as [Hword Hoff].
  split; [done |]. split; [done |]. split.
  - by apply (inv_out_valid _ _ (inv_main m rom)).
  - intros s Hc. by apply (linked_decodes _ _ (linked_main m rom) b).
Qed.

End WithTables.
End Dump_more.

Module Dump_complete.
Section WithTables.
Context {T : Tables}.
Import Dump Dump_inv Dump_more_def Dump_more.

Lemma write_block_keeps st seen ptr off c reads b :
  b ∈ output_file st -> b ∈ output_file (write_block st seen ptr off c reads).
Proof. intros Hb. simpl. apply elem_of_app. by left. Qed.

Lemma scan_pointer_keeps rom st p b :
  b ∈ output_file st -> b ∈ output_file (scan_pointer rom st p).
Proof.
  intros Hb. unfold scan_pointer.
  destruct (seen_text_offsets st !! _); [by apply write_block_keeps |].
  destruct (is_valid_string _); [by apply write_block_keeps | done].
Qed.

Lemma tables_row_keeps rom st cur address b :
  b ∈ output_file st -> b ∈ output_file (tables_row rom st cur address).
Proof.
  intros Hb. unfold tables_row.
  destruct (in_window _); [| done].
  destruct (_ && _); [| done].
  destruct (is_valid_string _); [| done].
  destruct (seen_text_offsets st !! _); by apply write_block_keeps.
Qed.

Lemma tables_loop_keeps rom offsets b : forall st,
  b ∈ output_file st -> b ∈ output_file (tables_loop rom offsets st).
Proof.
  induction offsets as [| o offsets IH]; intros st Hb; simpl; [done |].
  destruct (_ <? 4); [done |].
  destruct (Py.unpack_u32 _); [| done].
  by apply IH, tables_row_keeps.
Qed.

Lemma fold_keeps {A} (f : state -> A -> state) (l : list A) b :
  (forall st a, b ∈ output_file st -> b ∈ output_file (f st a)) ->
  forall st, b ∈ output_file st -> b ∈ output_file (fold_left f l st).
Proof.
  intros Hf. induction l as [| a l IH]; intros st Hb; simpl; [done |].
  by apply IH, Hf.
Qed.

Lemma scan_pointer_writes rom st p :
  valid_at rom (file_offset p) ->
  exists b, b ∈ output_file (scan_pointer rom st p)
    /\ pointer_offset b = ptr_offset p /\ text_offset b = file_offset p.
Proof.
  intros Hv. unfold scan_pointer.
  destruct (seen_text_offsets st !! _).
  - eexists. split; [apply elem_of_app; right; by apply list_elem_of_singleton |]. done.
  - unfold valid_at in Hv. rewrite Hv.
    eexists. split; [apply elem_of_app; right; by apply list_elem_of_singleton |]. done.
Qed.

Lemma tables_row_writes rom st cur address :
  in_window address = true ->
  OFFSET_MIN_VALID <= address - 0x08000000 < Py.len rom ->
  valid_at rom (address - 0x08000000) ->
  exists b, b ∈ output_file (tables_row rom st cur address)
    /\ pointer_offset b = cur /\ text_offset b = address - 0x08000000.
Proof.
  intros Hwin Hoff Hv. unfold tables_row. rewrite Hwin.
  assert (Hb : (address - 0x08000000 <? Py.len rom)
               && (OFFSET_MIN_VALID <=? address - 0x08000000) = true) by lia.
  rewrite Hb. unfold valid_at in Hv. rewrite Hv.
  destruct (seen_text_offsets st !! _);
    (eexists; split; [apply elem_of_app; right; by apply list_elem_of_singleton |]; done).
Qed.

Lemma scan_fold_writes rom l p : forall st,
  p ∈ l -> valid_at rom (file_offset p) ->
  exists b, b ∈ output_file (fold_left (scan_pointer rom) l st)
    /\ pointer_offset b = ptr_offset p /\ text_offset b = file_offset p.
Proof.
  induction l as [| q l IH]; intros st Hp Hv; [by apply elem_of_nil in Hp |].
  simpl. apply elem_of_cons in Hp as [-> | Hp]; [| by apply IH].
  destruct (scan_pointer_writes rom st q Hv) as (b & Hb & Hptr & Hoff).
  exists b. split; [| done].
  apply fold_keeps; [| done]. intros. by apply scan_pointer_keeps.
Qed.

(** X4.  Mode "scan" misses no pointer that it reads: an aligned offset
    before the last four bytes of the image that holds an address of
    the window, whose target is at least [OFFSET_MIN_VALID], inside the
    image and a text that the filter accepts, has a block in the
    output. *)
Theorem scan_finds_valid_pointer (rom : bytes) (o address : Z) :
  0 <= o -> o mod 4 = 0 -> o + 4 < Py.len rom ->
  Py.unpack_u32 (Py.slice rom o (o + 4)) = Some address ->
  in_window address = true ->
  OFFSET_MIN_VALID <= address - 0x08000000 < Py.len rom ->
  is_valid_string (read_string_from rom (address - 0x08000000) terminator) = true ->
  exists b, b ∈ output_file (main scan rom)
    /\ pointer_offset b = o /\ text_offset b = address - 0x08000000.
Proof.
  intros Ho Hmod Hlt Hword Hwin Hoff Hv.
  apply (scan_fold_writes rom (all_pointers rom)
           {| ptr_offset := o; file_offset := address - 0x08000000 |}); [| done].
  unfold all_pointers. apply list_elem_of_In, in_flat_map.
  exists o. split.
  - apply list_elem_of_In, Dump_props.scan_offsets_exactly. lia.
  - apply list_elem_of_In. unfold scan_candidate. rewrite Hword, Hwin.
    assert (Hb : (0 <=? address - 0x08000000) && (address - 0x08000000 <? Py.len rom)
                 && (OFFSET_MIN_VALID <=? address - 0x08000000) = true).
    { unfold OFFSET_MIN_VALID in *. lia. }
    rewrite Hb. by apply list_elem_of_singleton.
Qed.

(** Mode "tables" *)

Lemma tables_loop_output rom offsets b : forall st,
  b ∈ output_file (tables_loop rom offsets st) ->
  b ∈ output_file st \/ pointer_offset b ∈ offsets.
Proof.
  induction offsets as [| o offsets IH]; intros st Hb; simpl in Hb; [by left |].
  destruct (_ <? 4); [by left |].
  destruct (Py.unpack_u32 _) as [address |]; [| by left].
  destruct (IH _ Hb) as [Hin | Hin]; [| right; by apply elem_of_cons; right].
  unfold tables_row in Hin.
  destruct (in_window _); [| by left].
  destruct (_ && _); [| by left].
  destruct (is_valid_string _); [| by left].
  destruct (seen_text_offsets st !! _); simpl in Hin;
    (apply elem_of_app in Hin as [Hin | ->%list_elem_of_singleton];
     [by left | right; simpl; by apply elem_of_cons; left]).
Qed.


Lemma tables_fold_output rom (l : list table_info) b : forall st,
  b ∈ output_file (fold_left (fun st table =>
      tables_loop rom (Py.range (start table) (end_ table) (entry_size (type table))) st)
    l st) ->
  b ∈ output_file st \/ exists t, t ∈ l /\ pointer_offset b ∈ rows t.
Proof.
  induction l as [| t l IH]; intros st Hb; simpl in Hb; [by left |].
  destruct (IH _ Hb) as [Hin | (t' & Ht' & Hrow)].
  - destruct (tables_loop_output _ _ _ _ Hin) as [Hst | Hrow]; [by left |].
    right. exists t. split; [by apply elem_of_cons; left | done].
  - right. exists t'. split; [by apply elem_of_cons; right | done].
Qed.

Lemma slice_length_four {A} (l : list A) (o : Z) :
  0 <= o -> (length (Py.slice l o (o + 4)) = 4%nat <-> o + 4 <= Py.len l).
Proof.
  intros Ho. unfold Py.slice, Py.slice_index, Py.len.
  destruct (o <? 0) eqn:H1. { apply Z.ltb_lt in H1. lia. }
  destruct (o + 4 <? 0) eqn:H2. { apply Z.ltb_lt in H2. lia. }
  rewrite length_take, length_drop. lia.
Qed.

Lemma unpack_u32_length (b : bytes) (v : Z) :
  Py.unpack_u32 b = Some v -> length b = 4%nat.
Proof. destruct b as [| ? [| ? [| ? [| ? [| ? ?]]]]]; done. Qed.

Lemma unpack_u32_total (b : bytes) :
  length b = 4%nat -> is_Some (Py.unpack_u32 b).
Proof. destruct b as [| ? [| ? [| ? [| ? [| ? ?]]]]]; first [done | by eexists]. Qed.

(** X5.  In mode "tables" the pointer offset of every block is the
    start of a row of one of the pointer tables, before the end of the
    table. *)
Theorem tables_block_from_row (rom : bytes) (b : block) :
  b ∈ output_file (main tables rom) ->
  exists t k,
    t ∈ pointer_tables /\ 0 <= k
    /\ pointer_offset b = start t + k * entry_size (type t)
    /\ pointer_offset b < end_ t.
Proof.
  intros Hb. simpl in Hb. unfold tables_mode in Hb.
  destruct (tables_fold_output _ _ _ _ Hb) as [Hin | (t & Ht & Hrow)];
    [by apply elem_of_nil in Hin |].
  unfold rows in Hrow. apply Py_facts.range_spec in Hrow as (k & Hk & Heq & Hlt);
    [| destruct (type t); simpl; lia].
  exists t, k. rewrite <- Heq. done.
Qed.

Lemma range_split start stop step o :
  0 < step -> o ∈ Py.range start stop step ->
  exists pre post,
    Py.range start stop step = pre ++ o :: post
    /\ forall o', o' ∈ pre -> start <= o' < o.
Proof.
  intros Hstep. unfold Py.range.
  set (n := Z.to_nat ((stop - start + step - 1) / step)).
  rewrite list_elem_of_In, in_map_iff. intros (k & <- & Hk). apply in_seq in Hk.
  exists (map (fun k => start + Z.of_nat k * step) (seq 0 k)),
         (map (fun k => start + Z.of_nat k * step) (seq (S k) (n - S k))).
  split.
  - replace n with (k + S (n - S k))%nat at 1 by lia.
    rewrite seq_app, map_app. simpl. done.
  - intros o' Ho'. apply list_elem_of_In, in_map_iff in Ho' as (j & <- & Hj).
    apply in_seq in Hj. nia.
Qed.

Lemma tables_loop_writes rom pre o post address : forall st,
  (forall o', o' ∈ pre -> 0 <= o' /\ o' + 4 <= Py.len rom) ->
  Py.unpack_u32 (Py.slice rom o (o + 4)) = Some address ->
  in_window address = true ->
  OFFSET_MIN_VALID <= address - 0x08000000 < Py.len rom ->
  valid_at rom (address - 0x08000000) ->
  exists b, b ∈ output_file (tables_loop rom (pre ++ o :: post) st)
    /\ pointer_offset b = o /\ text_offset b = address - 0x08000000.
Proof.
  induction pre as [| o' pre IH]; intros st Hpre Hword Hwin Hoff Hv; simpl.
  - pose proof (unpack_u32_length _ _ Hword) as Hlen.
    assert (Hfour : (Py.len (Py.slice rom o (o + 4)) <? 4) = false).
    { unfold Py.len. rewrite Hlen. done. }
    rewrite Hfour, Hword.
    destruct (tables_row_writes rom st o address Hwin Hoff Hv) as (b & Hb & Hp & Ht).
    exists b. split; [by apply tables_loop_keeps | done].
  - destruct (Hpre o') as [H0 Hin]; [by apply elem_of_cons; left |].
    assert (Hlen : length (Py.slice rom o' (o' + 4)) = 4%nat)
      by (by apply slice_length_four).
    assert (Hfour : (Py.len (Py.slice rom o' (o' + 4)) <? 4) = false).
    { unfold Py.len. rewrite Hlen. done. }
    rewrite Hfour. destruct (unpack_u32_total _ Hlen) as [a ->].
    apply IH; try done. intros o'' Ho''. apply Hpre. by apply elem_of_cons; right.
Qed.

Lemma pointer_tables_start t : t ∈ pointer_tables -> 0 <= start t.
Proof.
  unfold pointer_tables. intros H.
  repeat (apply elem_of_cons in H as [-> | H]; [simpl; lia |]).
  by apply elem_of_nil in H.
Qed.

(** X6.  Mode "tables" misses no row: a row of a pointer table that
    holds an address of the window, whose target is at least
    [OFFSET_MIN_VALID], inside the image and a text that the filter
    accepts, has a block in the output. *)
Theorem tables_finds_valid_pointer (rom : bytes) (t : table_info) (k o address : Z) :
  t ∈ pointer_tables ->
  0 <= k -> o = start t + k * entry_size (type t) -> o < end_ t ->
  Py.unpack_u32 (Py.slice rom o (o + 4)) = Some address ->
  in_window address = true ->
  OFFSET_MIN_VALID <= address - 0x08000000 < Py.len rom ->
  is_valid_string (read_string_from rom (address - 0x08000000) terminator) = true ->
  exists b, b ∈ output_file (main tables rom)
    /\ pointer_offset b = o /\ text_offset b = address - 0x08000000.
Proof.
  intros Ht Hk Ho Hend Hword Hwin Hoff Hv.
  assert (Hstep : 0 < entry_size (type t)) by (destruct (type t); simpl; lia).
  assert (Hrow : o ∈ Py.range (start t) (end_ t) (entry_size (type t))).
  { apply Py_facts.range_spec; [done |]. by exists k. }
  destruct (range_split _ _ _ _ Hstep Hrow) as (pre & post & Hsplit & Hpre).
  pose proof (pointer_tables_start t Ht) as Hstart.
  assert (Ho4 : o + 4 <= Py.len rom).
  { apply slice_length_four; [nia |]. by apply (unpack_u32_length _ address). }
  apply list_elem_of_split in Ht as (tpre & tpost & Htables).
  simpl. unfold tables_mode. rewrite Htables, fold_left_app. simpl.
  rewrite Hsplit.
  match goal with |- context [tables_loop rom _ ?st] =>
    destruct (tables_loop_writes rom pre o post address st) as (b & Hb & Hp & Hto);
      try done end.
  { intros o' Ho'. destruct (Hpre o' Ho'). lia. }
  exists b. split; [| done].
  apply fold_keeps; [| done]. intros. by apply tables_loop_keeps.
Qed.

End WithTables.
End Dump_complete.

(** ** The filter *)

Module Filter_props.
Section WithTables.
Context {T : Tables}.
Import Dump.

Lemma lstrip_length s : (length (Py.lstrip s) <= length s)%nat.
Proof.
  induction s as [| c s IH]; simpl; [done |].
  destruct (Py.isspace c); simpl; lia.
Qed.

Lemma strip_length s : Py.len (Py.strip s) <= Py.len s.
Proof.
  unfold Py.strip, Py.len. rewrite length_rev.
  pose proof (lstrip_length (rev (Py.lstrip s))) as H1.
  rewrite length_rev in H1. pose proof (lstrip_length s). lia.
Qed.

(** X7.  Every text that [is_valid_string] accepts has at least two
    characters once stripped and at most 1024 in all, at most 5% of
    control characters, at least two Japanese characters or three
    Latin letters or digits, at least 55% of printable characters, and
    either no replacement token or at most 15% of its characters in
    them. *)
Theorem accepted_text_passes_gates (text : str) :
  is_valid_string (Some text) = true ->
  2 <= Py.len (Py.strip text) /\ Py.len text <= 1024
  /\ 100 * Py.len (List.filter (fun c => (c <? 0x20) && negb ((c =? 10) || (c =? 13) || (c =? 9))) text)
     <= 5 * Py.len text
  /\ (2 <= Py.len (List.filter japanese text) \/ 3 <= Py.len (List.filter latin_digit text))
  /\ 55 * Py.len text <= 100 * Py.len (List.filter printable text)
  /\ (findall_replacement_token text 0 = []
      \/ 100 * Py.len (concat (findall_replacement_token text 0)) <= 15 * Py.len text).
Proof.
  unfold is_valid_string.
  destruct text as [| c r]; [done |].
  set (text := c :: r).
  assert (Hn : Z.max 1 (Py.len text) = Py.len text).
  { unfold Py.len, text. simpl length. lia. }
  rewrite Hn.
  unfold MIN_CHARS, MAX_TOTAL_LENGTH, MAX_CONTROL_CHAR_FRAC, MIN_JP_CHARS_OVERRIDE,
    MIN_LATIN_DIGITS, MIN_PRINTABLE_FRAC, MAX_REPLACEMENT_FRAC.
  destruct (Py.len (Py.strip text) <? 2) eqn:H1; [done |].
  destruct (1024 <? Py.len text) eqn:H2; [done |].
  destruct (5 * Py.len text <? 100 * _) eqn:H3; [done |].
  destruct ((_ <? 2) && (_ <? 3)) eqn:H4; [done |].
  destruct (100 * _ <? 55 * _) eqn:H5; [done |].
  destruct ((0 <? _) && (15 * _ <? 100 * _)) eqn:H6; [done |].
  intros _.
  apply Z.ltb_ge in H1, H2, H3, H5.
  split; [done |]. split; [done |]. split; [done |]. split.
  { apply andb_false_iff in H4 as [H4 | H4]; apply Z.ltb_ge in H4; [by left | by right]. }
  split; [done |].
  apply andb_false_iff in H6 as [H6 | H6]; apply Z.ltb_ge in H6; [left | by right].
  unfold Py.len in H6. destruct (findall_replacement_token text 0); [done |].
  simpl in H6. lia.
Qed.

Lemma filter_replicate_false (p : Z -> bool) (c : Z) (n : nat) :
  p c = false -> List.filter p (replicate n c) = [].
Proof. intros Hp. induction n as [| n IH]; simpl; [done |]. by rewrite Hp. Qed.

Lemma all_same_replicate (c : Z) (n : nat) : all_same (c :: replicate n c) = true.
Proof.
  simpl. induction n as [| n IH]; simpl; [done |]. by rewrite Z.eqb_refl.
Qed.

(** X8.  A text made of one character repeated, if the character is
    not a Japanese one, is rejected by [is_valid_string], whatever its
    length. *)
Theorem repeated_character_rejected (c : Z) (n : nat) :
  japanese c = false -> is_valid_string (Some (replicate n c)) = false.
Proof.
  intros Hjp. destruct n as [| n]; [done |].
  unfold is_valid_string. cbn [replicate].
  set (text := c :: replicate n c).
  assert (Hfilter : List.filter japanese text = []).
  { unfold text. change (c :: replicate n c) with (replicate (S n) c).
    by apply filter_replicate_false. }
  assert (Hrep : is_repeated_pattern text = true).
  { unfold is_repeated_pattern. unfold text. by rewrite all_same_replicate. }
  assert (Hsingle : is_single_japanese_char_repetition text = false).
  { unfold is_single_japanese_char_repetition, text.
    by rewrite all_same_replicate. }
  rewrite Hfilter, Hrep, Hsingle.
  change (Py.len []) with 0. unfold MIN_JP_CHARS_OVERRIDE.
  change (2 <=? 0) with false. cbn [andb negb].
  repeat match goal with
  | |- (if ?c then _ else _) = false => destruct c; try reflexivity
  end.
Qed.

Lemma japanese_not_space c : japanese c = true -> Py.isspace c = false.
Proof. unfold japanese, between, Py.isspace. lia. Qed.

Lemma japanese_printable c : japanese c = true -> printable c = true.
Proof. unfold japanese, printable, between. lia. Qed.

Lemma japanese_not_control c :
  japanese c = true -> (c <? 0x20) && negb ((c =? 10) || (c =? 13) || (c =? 9)) = false.
Proof. unfold japanese, between. lia. Qed.

Lemma filter_all (p : Z -> bool) (s : str) :
  forallb p s = true -> List.filter p s = s.
Proof.
  induction s as [| c s IH]; simpl; [done |].
  intros [Hc Hs]%andb_true_iff. rewrite Hc. by rewrite IH.
Qed.

Lemma filter_none (p q : Z -> bool) (s : str) :
  (forall c, p c = true -> q c = false) ->
  forallb p s = true -> List.filter q s = [].
Proof.
  intros Hpq. induction s as [| c s IH]; simpl; [done |].
  intros [Hc Hs]%andb_true_iff. rewrite (Hpq c Hc). by apply IH.
Qed.

Lemma lstrip_head c s : Py.isspace c = false -> Py.lstrip (c :: s) = c :: s.
Proof. intros Hc. simpl. by rewrite Hc. Qed.

Lemma strip_japanese (s : str) : forallb japanese s = true -> Py.strip s = s.
Proof.
  intros Hs. unfold Py.strip.
  assert (Hl : forall t, forallb japanese t = true -> Py.lstrip t = t).
  { intros [| c t]; [done |]. simpl. intros [Hc _]%andb_true_iff.
    by rewrite (japanese_not_space c Hc). }
  rewrite (Hl s Hs), Hl, rev_involutive; [done |].
  rewrite forallb_forall. intros c Hc%in_rev.
  by apply (proj1 (forallb_forall _ _) Hs).
Qed.

Lemma findall_no_bracket (s : str) :
  forallb (fun c => negb (c =? 60)) s = true -> findall_replacement_token s 0 = [].
Proof.
  induction s as [| c s IH]; [done |].
  cbn [forallb]. intros [Hc Hs]%andb_true_iff.
  cbn [findall_replacement_token].
  assert (Hm : match_replacement_token (c :: s) = None).
  { unfold match_replacement_token.
    destruct (Z.eq_dec c 60) as [-> | Hne]; [done |].
    destruct c as [| p | p]; try done.
    repeat (destruct p as [p | p |]; try done). }
  rewrite Hm. by apply IH.
Qed.

(** X9.  A text of 2 to 1024 characters, all of them hiragana,
    katakana or kanji of the ranges of [JAPANESE_RE], is accepted by
    [is_valid_string]. *)
Theorem japanese_text_accepted (text : str) :
  forallb japanese text = true ->
  2 <= Py.len text <= 1024 ->
  is_valid_string (Some text) = true.
Proof.
  intros Hjp Hlen. unfold is_valid_string.
  destruct text as [| c r]; [unfold Py.len in Hlen; simpl in Hlen; lia |].
  set (text := c :: r) in *.
  rewrite (strip_japanese text Hjp).
  rewrite (filter_all japanese text Hjp).
  rewrite (filter_all printable text).
  2:{ rewrite forallb_forall. intros x Hx.
      apply japanese_printable. by apply (proj1 (forallb_forall _ _) Hjp). }
  rewrite (filter_none japanese _ text japanese_not_control Hjp).
  rewrite (findall_no_bracket text).
  2:{ rewrite forallb_forall. intros x Hx.
      assert (Hj : japanese x = true) by (by apply (proj1 (forallb_forall _ _) Hjp)).
      unfold japanese, between in Hj. lia. }
  change (Py.len []) with 0. change (Py.len (concat [])) with 0.
  unfold MIN_CHARS, MAX_TOTAL_LENGTH, MAX_CONTROL_CHAR_FRAC, MIN_JP_CHARS_OVERRIDE,
    MIN_LATIN_DIGITS, MIN_PRINTABLE_FRAC, MAX_REPLACEMENT_FRAC.
  assert (Hn : Z.max 1 (Py.len text) = Py.len text) by lia.
  rewrite Hn.
  assert (H1 : (Py.len text <? 2) = false) by (apply Z.ltb_ge; lia).
  assert (H2 : (1024 <? Py.len text) = false) by (apply Z.ltb_ge; lia).
  assert (H3 : (5 * Py.len text <? 100 * 0) = false) by (apply Z.ltb_ge; lia).
  assert (H5 : (100 * Py.len text <? 55 * Py.len text) = false) by (apply Z.ltb_ge; lia).
  assert (H7 : (2 <=? Py.len text) = true) by (apply Z.leb_le; lia).
  assert (H8 : (2 * 0 <? Py.len text) = true) by (apply Z.ltb_lt; lia).
  rewrite H1, H2, H3, H5, H7, H8. reflexivity.
Qed.

End WithTables.
End Filter_props.

(** ** Reading and encoding a text *)

Module Codec_more.
Section WithTables.
Context {T : Tables}.
Import Codec Repack_codec Codec_props Codec_claims Dump.

#[local] Arguments bind_cons : simpl never.

Lemma bind_cons_is_some (a k : option str) :
  is_Some a -> is_Some k -> is_Some (bind_cons a k).
Proof. intros [x ->] [y ->]. by eexists. Qed.

Lemma custom_handler_total bad : is_Some (custom_sjis_error_handler bad).
Proof. by eexists. Qed.

Lemma decode_custom_total_upto (n : nat) : forall bs,
  (length bs <= n)%nat -> is_Some (decode custom_sjis_error_handler bs).
Proof.
  induction n as [| n IH]; intros bs Hlen.
  { destruct bs; [by eexists | simpl in Hlen; lia]. }
  destruct bs as [| c rest]; [by eexists |].
  simpl in Hlen. rewrite decode_unfold.
  assert (Hrest : is_Some (decode custom_sjis_error_handler rest)) by (apply IH; lia).
  destruct (c <? 0x80); [by apply bind_cons_is_some |].
  destruct (_ && _); [by apply bind_cons_is_some |].
  destruct (is_lead c); [| by apply bind_cons_is_some; [apply custom_handler_total |]].
  destruct rest as [| c2 rest'];
    [by apply bind_cons_is_some; [apply custom_handler_total |] |].
  destruct (bad_trail c2); [by apply bind_cons_is_some; [apply custom_handler_total |] |].
  simpl in Hlen.
  assert (Hrest' : is_Some (decode custom_sjis_error_handler rest')) by (apply IH; lia).
  destruct (jis_of_sjis c c2) as [j1 j2].
  destruct (_ && _); [by apply bind_cons_is_some |].
  destruct (jisx0208 j1 j2); by apply bind_cons_is_some; [try apply custom_handler_total |].
Qed.

Lemma decode_custom_total bs : is_Some (decode custom_sjis_error_handler bs).
Proof. by apply (decode_custom_total_upto (length bs)). Qed.

Lemma find_after_prefix (pre run rest : bytes) (t : Z) :
  t ∉ run -> Py.find (pre ++ run ++ t :: rest) t (Py.len pre) = Py.len pre + Py.len run.
Proof.
  intros Hrun. unfold Py.find. rewrite slice_index_nonneg by (unfold Py.len; lia).
  replace (Z.min (Py.len pre) (Py.len (pre ++ run ++ t :: rest))) with (Py.len pre)
    by (unfold Py.len; rewrite length_app; lia).
  unfold Py.len at 1. rewrite Nat2Z.id, drop_app_length.
  by apply Py_facts.find_from_prefix.
Qed.

Lemma slice_after_prefix (pre run rest : bytes) :
  Py.slice (pre ++ run ++ rest) (Py.len pre) (Py.len pre + Py.len run) = run.
Proof.
  unfold Py.slice. rewrite !slice_index_nonneg by (unfold Py.len; lia).
  replace (Z.min (Py.len pre) (Py.len (pre ++ run ++ rest))) with (Py.len pre)
    by (unfold Py.len; rewrite length_app; lia).
  replace (Z.min (Py.len pre + Py.len run) (Py.len (pre ++ run ++ rest)))
    with (Py.len pre + Py.len run)
    by (unfold Py.len; rewrite !length_app; lia).
  replace (Py.len pre + Py.len run - Py.len pre) with (Py.len run) by lia.
  unfold Py.len. rewrite !Nat2Z.id, drop_app_length. by rewrite take_app_length.
Qed.

Lemma read_string_from_prefix (pre run rest : bytes) (t : Z) :
  t ∉ run ->
  read_string_from (pre ++ run ++ t :: rest) (Py.len pre) t
    = decode custom_sjis_error_handler run.
Proof.
  intros Hrun. unfold read_string_from.
  assert (Hlen : (Py.len (pre ++ run ++ t :: rest) <=? Py.len pre) = false).
  { unfold Py.len. rewrite !length_app. cbn [length]. apply Z.leb_gt. lia. }
  rewrite Hlen, find_after_prefix by done.
  assert (Hneg : (Py.len pre + Py.len run =? -1) = false)
    by (unfold Py.len; apply Z.eqb_neq; lia).
  rewrite Hneg, slice_after_prefix. change newline_char with 10.
  rewrite replace1_same. by destruct (decode _ run).
Qed.

(** X10.  [read_string_from] reads the bytes from the offset up to the first
    terminator after it, whatever follows, and always makes a text of
    them: with the handler [custom_sjis] no run of bytes fails to
    decode. *)
Theorem read_string_reads_to_terminator (pre run rest : bytes) (t : Z) :
  t ∉ run ->
  read_string_from (pre ++ run ++ t :: rest) (Py.len pre) t
    = decode custom_sjis_error_handler run
  /\ is_Some (read_string_from (pre ++ run ++ t :: rest) (Py.len pre) t).
Proof.
  intros Hrun. rewrite read_string_from_prefix by exact Hrun.
  split; [reflexivity |]. apply decode_custom_total.
Qed.

Lemma encode_parts_ends parts : forall acc printed b,
  value (encode_parts parts acc printed) = Some b ->
  exists b', b = acc ++ b' ++ [terminator].
Proof.
  induction parts as [| part parts IH]; intros acc printed b.
  { simpl. intros [= <-]. by exists []. }
  cbn [encode_parts]. destruct part as [[| c part] |]; [apply IH | | apply IH].
  destruct (tag_lookup (c :: part)) as [tb |].
  { intros (b' & ->)%IH. exists (tb ++ b'). by rewrite <- !app_assoc. }
  destruct (_ && _).
  - destruct (Py.fromhex _) as [hb |]; [| done].
    intros (b' & ->)%IH. exists (hb ++ b'). by rewrite <- !app_assoc.
  - destruct (encode_replace_total (c :: part)) as [eb ->].
    intros (b' & ->)%IH. exists (eb ++ b'). by rewrite <- !app_assoc.
Qed.

(** X11.  Whatever the text, the bytes that [encode_string] returns end
    with the terminator: an encoded text is never empty. *)
Theorem encoded_ends_with_terminator (text : str) (b : bytes) :
  value (encode_string text) = Some b ->
  exists b', b = b' ++ [terminator] /\ 1 <= Py.len b.
Proof.
  unfold encode_string. intros (b' & ->)%encode_parts_ends.
  exists b'. split; [done |]. unfold Py.len. rewrite !length_app. simpl. lia.
Qed.

End WithTables.
End Codec_more.

Module Token_props.
Section WithTables.
Context {T : Tables}.
Import Codec Repack_codec Codec_props Codec_claims Dump Codec_more.

Lemma hex_digit_upper d : 0 <= d < 16 -> Parse.upper_hex (Py.hex_digit d) = true.
Proof. intros Hd. unfold Parse.upper_hex, Py.hex_digit. destruct (d <? 10) eqn:H; lia. Qed.

Lemma hex_digit_value d : 0 <= d < 16 -> Py.digit_value (Py.hex_digit d) = Some d.
Proof.
  intros Hd. unfold Py.digit_value, Py.hex_digit.
  destruct (d <? 10) eqn:H.
  - assert (H1 : (48 <=? 48 + d) && (48 + d <=? 57) = true) by lia.
    rewrite H1. f_equal. lia.
  - assert (H1 : (48 <=? 55 + d) && (55 + d <=? 57) = false) by lia.
    assert (H2 : (65 <=? 55 + d) && (55 + d <=? 70) = true) by lia.
    rewrite H1, H2. f_equal. lia.
Qed.

Lemma hex_upper_all bs :
  (forall x, x ∈ bs -> 0 <= x < 256) -> forallb Parse.upper_hex (Py.hex_upper bs) = true.
Proof.
  induction bs as [| x bs IH]; intros Hbs; [done |].
  unfold Py.hex_upper. cbn [flat_map app forallb].
  assert (Hx : 0 <= x < 256) by (apply Hbs; by apply elem_of_cons; left).
  rewrite !hex_digit_upper; [| apply Z.mod_pos_bound; lia | split; [apply Z.div_pos; lia | apply Z.div_lt_upper_bound; lia]].
  apply IH. intros y Hy. apply Hbs. by apply elem_of_cons; right.
Qed.

Lemma fromhex_hex_upper bs :
  (forall x, x ∈ bs -> 0 <= x < 256) -> Py.fromhex (Py.hex_upper bs) = Some bs.
Proof.
  induction bs as [| x bs IH]; intros Hbs; [done |].
  assert (Hx : 0 <= x < 256) by (apply Hbs; by apply elem_of_cons; left).
  assert (Hhi : 0 <= x / 16 < 16)
    by (split; [apply Z.div_pos; lia | apply Z.div_lt_upper_bound; lia]).
  assert (Hlo : 0 <= x mod 16 < 16) by (apply Z.mod_pos_bound; lia).
  unfold Py.hex_upper. cbn [flat_map app]. cbn [Py.fromhex].
  assert (Hsp : Py.ascii_isspace (Py.hex_digit (x / 16)) = false).
  { pose proof (hex_digit_upper _ Hhi) as Hu. unfold Parse.upper_hex in Hu.
    unfold Py.ascii_isspace. lia. }
  rewrite Hsp, !hex_digit_value by done.
  fold (Py.hex_upper bs). rewrite IH.
  - do 2 f_equal. rewrite (Z.div_mod x 16) at 3 by lia. lia.
  - intros y Hy. apply Hbs. by apply elem_of_cons; right.
Qed.

Lemma upper_hex_facts c :
  Parse.upper_hex c = true ->
  hex_or_space c = true /\ Py.isspace c = false /\ c <> 60 /\ c <> 32
  /\ encode_char c = Some [c] /\ word c = true.
Proof.
  unfold Parse.upper_hex. intros Hc.
  split; [unfold hex_or_space; lia |].
  split; [unfold Py.isspace; lia |].
  split; [lia |]. split; [lia |]. split.
  - unfold encode_char. assert (H : (c <? 0x80) = true) by lia. by rewrite H.
  - unfold word, latin_digit, between.
    assert (H : (c <? 128) = true) by lia. rewrite H. lia.
Qed.

Lemma all_upper_hex s c :
  forallb Parse.upper_hex s = true -> c ∈ s -> Parse.upper_hex c = true.
Proof. intros Hs Hc. apply (proj1 (forallb_forall _ _) Hs). by apply list_elem_of_In. Qed.

Lemma span_stops (p : Z -> bool) (s rest : str) (c : Z) :
  forallb p s = true -> p c = false -> Py.span p (s ++ c :: rest) = s.
Proof.
  intros Hs Hc. induction s as [| x s IH]; simpl in *; [by rewrite Hc |].
  apply andb_true_iff in Hs as [Hx Hs]. rewrite Hx. by rewrite IH.
Qed.

Lemma forallb_imp (p q : Z -> bool) (s : str) :
  (forall c, p c = true -> q c = true) -> forallb p s = true -> forallb q s = true.
Proof.
  intros Hpq. induction s as [| c s IH]; simpl; [done |].
  intros [Hc Hs]%andb_true_iff. by rewrite (Hpq c Hc), IH.
Qed.

Lemma lstrip_no_space s :
  forallb (fun c => negb (Py.isspace c)) s = true -> Py.lstrip s = s.
Proof.
  destruct s as [| c s]; [done |]. simpl. intros [Hc _]%andb_true_iff.
  by destruct (Py.isspace c).
Qed.

Lemma strip_no_space s :
  forallb (fun c => negb (Py.isspace c)) s = true -> Py.strip s = s.
Proof.
  intros Hs. unfold Py.strip. rewrite (lstrip_no_space s Hs), lstrip_no_space.
  - apply rev_involutive.
  - rewrite forallb_forall. intros c Hc%in_rev.
    by apply (proj1 (forallb_forall _ _) Hs).
Qed.

Lemma filter_keeps_all (p : Z -> bool) (s : str) :
  forallb p s = true -> List.filter p s = s.
Proof.
  induction s as [| c s IH]; simpl; [done |].
  intros [Hc Hs]%andb_true_iff. by rewrite Hc, IH.
Qed.

Lemma encode_ascii s :
  forallb Parse.upper_hex s = true -> encode replace s = Some s.
Proof.
  induction s as [| c s IH]; simpl; [done |].
  intros [Hc Hs]%andb_true_iff.
  destruct (upper_hex_facts c Hc) as (_ & _ & _ & _ & Henc & _).
  by rewrite Henc, IH.
Qed.

Lemma re_split_skip (a b : str) :
  re_split (a ++ b) (length a) false = re_split b 0 false.
Proof.
  induction a as [| c a IH]; [done |]. simpl. apply IH.
Qed.

Lemma startswith_token (x : str) : Py.startswith (60 :: 36 :: x) [60; 36] = true.
Proof. simpl. by destruct x. Qed.

Lemma startswith_other (c : Z) (x : str) :
  (60 =? c) = false -> Py.startswith (c :: x) [60; 36] = false.
Proof. intros Hc. cbn [Py.startswith]. by rewrite Hc. Qed.

Lemma endswith_suffix (s p : str) : Py.endswith (s ++ p) p = true.
Proof.
  unfold Py.endswith. rewrite rev_app_distr.
  generalize (rev p) (rev s). intros x y.
  induction x as [| a x IH]; simpl; [by destruct y |].
  by rewrite Z.eqb_refl.
Qed.

Lemma slice_inner (h : str) :
  Py.slice (60 :: 36 :: h ++ [36; 62]) 2 (-2) = h.
Proof.
  unfold Py.slice, Py.slice_index, Py.len. cbn [Z.ltb Z.compare].
  rewrite length_cons, length_cons, length_app. cbn [length].
  replace (Z.to_nat (Z.min 2 (Z.of_nat (S (S (length h + 2)))))) with 2%nat by lia.
  replace (Z.to_nat (Z.max 0 (-2 + Z.of_nat (S (S (length h + 2))))
                     - Z.min 2 (Z.of_nat (S (S (length h + 2))))))
    with (length h) by lia.
  cbn [skipn]. rewrite drop_0. by rewrite take_app_length.
Qed.

Lemma match_hex_tag_token (h rest : str) :
  h <> [] -> forallb Parse.upper_hex h = true ->
  match_hex_tag (60 :: 36 :: h ++ 36 :: 62 :: rest) = Some ((length h + 4)%nat, h).
Proof.
  intros Hne Hh. unfold match_hex_tag. cbv zeta.
  assert (Hspan : Py.span hex_or_space (h ++ 36 :: 62 :: rest) = h).
  { apply span_stops; [| done].
    apply (forallb_imp Parse.upper_hex); [| done]. intros c Hc. by apply upper_hex_facts. }
  rewrite Hspan.
  assert (Hl : Py.lstrip h = h).
  { apply lstrip_no_space. apply (forallb_imp Parse.upper_hex); [| done].
    intros x Hx. destruct (upper_hex_facts x Hx) as (_ & -> & _). done. }
  rewrite Hl.
  destruct h as [| c h']; [done |].
  by rewrite (drop_app_length (c :: h')).
Qed.

(** X12.  The token that the handler [custom_sjis] writes for bytes
    that do not decode is not turned back into these bytes alone:
    [encode_string] returns the bytes followed by the ASCII codes of
    their digits (and the terminator), without a warning; the pattern
    of [re.split] has a group inside a group, so the digits of the tag
    are a part of their own. *)
Theorem token_reencoded_with_digits (bad : bytes) (token : str) :
  bad <> [] ->
  (forall x, x ∈ bad -> 0 <= x < 256) ->
  custom_sjis_error_handler bad = Some token ->
  encode_string token
  = {| warnings := [];
       value := Some (bad ++ Py.hex_upper bad ++ [terminator]) |}.
Proof.
  intros Hne Hrange [= <-].
  set (h := Py.hex_upper bad).
  assert (Hh : forallb Parse.upper_hex h = true) by (by apply hex_upper_all).
  assert (Hhne : h <> []).
  { unfold h. destruct bad as [| x bad]; [done |]. done. }
  unfold encode_string. change newline_char with 10. rewrite replace1_same.
  change ([60; 36] ++ h ++ [36; 62]) with (60 :: 36 :: h ++ [36; 62]).
  rewrite re_split_start_unfold.
  rewrite (match_hex_tag_token h [] Hhne Hh).
  replace (length h + 4 - 1)%nat with (length (36 :: h ++ [36; 62]))
    by (rewrite length_cons, length_app; simpl; lia).
  rewrite <- (app_nil_r (36 :: h ++ [36; 62])) at 2.
  rewrite re_split_skip.
  rewrite take_ge by (rewrite !length_cons, length_app; simpl; lia).
  cbn [re_split encode_parts].
  destruct h as [| c h'] eqn:Hheq; [done |].
  change (tag_lookup (60 :: 36 :: (c :: h') ++ [36; 62])) with (@None bytes).
  change (tag_lookup (c :: h')) with (@None bytes).
  rewrite startswith_token.
  change (60 :: 36 :: (c :: h') ++ [36; 62]) with ([60; 36] ++ (c :: h') ++ [36; 62]).
  rewrite app_assoc, endswith_suffix. rewrite <- app_assoc.
  change ([60; 36] ++ (c :: h') ++ [36; 62]) with (60 :: 36 :: (c :: h') ++ [36; 62]).
  cbn [andb]. rewrite slice_inner.
  rewrite strip_no_space.
  2:{ apply (forallb_imp Parse.upper_hex); [| done].
      intros x Hx. destruct (upper_hex_facts x Hx) as (_ & -> & _). done. }
  rewrite filter_keeps_all.
  2:{ apply (forallb_imp Parse.upper_hex); [| done].
      intros x Hx. destruct (upper_hex_facts x Hx) as (_ & _ & _ & H32 & _).
      apply negb_true_iff, Z.eqb_neq. done. }
  rewrite <- Hheq. unfold h. rewrite fromhex_hex_upper by done.
  fold h. rewrite Hheq.
  assert (Hc : (60 =? c) = false).
  { apply Z.eqb_neq. intros <-. cbn [forallb] in Hh.
    apply andb_true_iff in Hh as [Hh _]. vm_compute in Hh. discriminate. }
  rewrite (startswith_other c h' Hc). cbn [andb].
  rewrite encode_ascii by done. cbn [app]. by rewrite <- app_assoc.
Qed.

End WithTables.
End Token_props.

Module Escape_props.
Section WithTables.
Context {T : Tables}.
Import Codec Repack_codec Codec_props Codec_claims Dump Codec_more Token_props Escape_def.

#[local] Arguments bind_cons : simpl never.

Lemma decode_undecodable bs :
  forallb undecodable bs = true ->
  decode custom_sjis_error_handler bs = Some (flat_map token bs).
Proof.
  induction bs as [| c bs IH]; [done |].
  cbn [forallb]. intros [Hc Hbs]%andb_true_iff.
  rewrite decode_unfold, (IH Hbs).
  unfold undecodable in Hc.
  apply andb_true_iff in Hc as [[H1 H2]%andb_true_iff H3].
  apply negb_true_iff in H1, H2, H3. rewrite H1, H2, H3. done.
Qed.

Lemma word_dollar : word 36 = false.
Proof. reflexivity. Qed.

Lemma match_token c rest :
  0 <= c < 256 -> match_replacement_token (token c ++ rest) = Some 6%nat.
Proof.
  intros Hc. unfold token, Py.hex_upper. cbn [flat_map app].
  assert (Hhi : 0 <= c / 16 < 16)
    by (split; [apply Z.div_pos; lia | apply Z.div_lt_upper_bound; lia]).
  assert (Hlo : 0 <= c mod 16 < 16) by (apply Z.mod_pos_bound; lia).
  destruct (upper_hex_facts _ (hex_digit_upper _ Hhi)) as (_ & _ & _ & _ & _ & Hw1).
  destruct (upper_hex_facts _ (hex_digit_upper _ Hlo)) as (_ & _ & _ & _ & _ & Hw2).
  unfold match_replacement_token. cbn [Py.span]. rewrite Hw1, Hw2, word_dollar.
  reflexivity.
Qed.

Lemma findall_tokens bs :
  (forall c, c ∈ bs -> 0 <= c < 256) ->
  findall_replacement_token (flat_map token bs) 0 = map token bs.
Proof.
  induction bs as [| c bs IH]; intros Hbs; [done |].
  assert (Hc : 0 <= c < 256) by (apply Hbs; by apply elem_of_cons; left).
  cbn [flat_map map].
  pose proof (match_token c (flat_map token bs) Hc) as Hm.
  unfold token, Py.hex_upper in *. cbn [flat_map app] in *.
  cbn [findall_replacement_token]. rewrite Hm.
  cbn [Nat.sub take]. f_equal.
  apply IH. intros y Hy. apply Hbs. by apply elem_of_cons; right.
Qed.

Lemma concat_map_token bs : concat (map token bs) = flat_map token bs.
Proof. induction bs as [| c bs IH]; simpl; [done |]. by rewrite IH. Qed.

Lemma token_text_rejected bs :
  (forall c, c ∈ bs -> 0 <= c < 256) ->
  is_valid_string (Some (flat_map token bs)) = false.
Proof.
  intros Hbs. destruct bs as [| c bs]; [done |].
  unfold is_valid_string.
  rewrite (findall_tokens (c :: bs) Hbs), concat_map_token.
  set (text := flat_map token (c :: bs)).
  assert (Htext : exists x r, text = x :: r) by (by eexists _, _).
  destruct Htext as (x & r & Hxr). rewrite Hxr. rewrite <- Hxr.
  assert (Hpos : 0 < Py.len text) by (rewrite Hxr; unfold Py.len; simpl length; lia).
  assert (Hn : Z.max 1 (Py.len text) = Py.len text) by lia.
  rewrite Hn.
  assert (Hrule : (0 <? Py.len (map token (c :: bs)))
                  && (MAX_REPLACEMENT_FRAC * Py.len text <? 100 * Py.len text) = true).
  { unfold MAX_REPLACEMENT_FRAC. apply andb_true_iff. split; apply Z.ltb_lt.
    - unfold Py.len. simpl length. lia.
    - lia. }
  rewrite Hrule.
  repeat match goal with
  | |- (if ?c then _ else _) = false => destruct c; try reflexivity
  end.
Qed.

(** X13.  A run of bytes none of which the decoder takes (neither
    ASCII, nor half-width katakana, nor a lead byte) is read as one
    token per byte, and the filter rejects it: such data is never
    written as text. *)
Theorem undecodable_run_rejected (pre run rest : bytes) :
  (forall c, c ∈ run -> 0 <= c < 256) ->
  forallb undecodable run = true ->
  read_string_from (pre ++ run ++ terminator :: rest) (Py.len pre) terminator
    = Some (flat_map token run)
  /\ is_valid_string
       (read_string_from (pre ++ run ++ terminator :: rest) (Py.len pre) terminator)
     = false.
Proof.
  intros Hrange Hun.
  assert (Hterm : terminator ∉ run).
  { intros Hin. apply list_elem_of_In in Hin.
    pose proof (proj1 (forallb_forall _ _) Hun _ Hin) as H0.
    vm_compute in H0. discriminate. }
  pose proof (read_string_from_prefix pre run rest terminator Hterm) as Hread.
  rewrite Hread, decode_undecodable by done.
  split; [done |]. by apply token_text_rejected.
Qed.

End WithTables.
End Escape_props.

(** ** The two passes of repack.py *)

Module Repack_more.
Section WithTables.
Context {T : Tables}.
Import Repack Repack_props Codec_claims Codec_more.

Lemma slice_assign_inside {A} (pre old rest v : list A) :
  length old = length v ->
  Py.slice_assign (pre ++ old ++ rest) (Py.len pre) (Py.len pre + Py.len v) v
  = pre ++ v ++ rest.
Proof.
  intros Hlen. unfold Py.slice_assign.
  rewrite !slice_index_nonneg by (unfold Py.len; lia).
  replace (Z.min (Py.len pre) (Py.len (pre ++ old ++ rest))) with (Py.len pre)
    by (unfold Py.len; rewrite length_app; lia).
  replace (Z.min (Py.len pre + Py.len v) (Py.len (pre ++ old ++ rest)))
    with (Py.len pre + Py.len v)
    by (unfold Py.len; rewrite !length_app; lia).
  replace (Z.max (Py.len pre) (Py.len pre + Py.len v)) with (Py.len pre + Py.len v)
    by (unfold Py.len; lia).
  unfold Py.len. rewrite Nat2Z.id, take_app_length.
  replace (Z.to_nat (Z.of_nat (length pre) + Z.of_nat (length v)))
    with (length pre + length old)%nat by lia.
  rewrite drop_app_add', drop_app_length; done.
Qed.

Lemma slice_assign_beyond {A} (l v : list A) (a b : Z) :
  Py.len l <= a -> a <= b -> Py.slice_assign l a b v = l ++ v.
Proof.
  intros Ha Hb. unfold Py.slice_assign.
  rewrite !slice_index_nonneg by (unfold Py.len in *; lia).
  replace (Z.min a (Py.len l)) with (Py.len l) by lia.
  replace (Z.min b (Py.len l)) with (Py.len l) by lia.
  rewrite Z.max_id. unfold Py.len. rewrite Nat2Z.id.
  by rewrite take_ge, drop_ge, app_nil_r.
Qed.

Lemma slice_assign_length {A} (l v : list A) (a : Z) :
  0 <= a -> a + Py.len v <= Py.len l ->
  Py.len (Py.slice_assign l a (a + Py.len v) v) = Py.len l.
Proof.
  intros Ha Hb. unfold Py.slice_assign.
  rewrite !slice_index_nonneg by (unfold Py.len in *; lia).
  unfold Py.len in *. rewrite !length_app, length_take, length_drop. lia.
Qed.

(** The terminators written by the loop that fills. *)
Lemma fill_steps (off a : Z) (m : nat) : forall (s : nat) (rom : bytes),
  0 <= off + a ->
  off + a + Z.of_nat s + Z.of_nat m <= Py.len rom ->
  fold_left (fun acc i =>
      match acc with
      | Some rom => Py.setitem rom (off + i) terminator
      | None => None
      end)
    (map (fun k => a + Z.of_nat k * 1) (seq s m)) (Some rom)
  = Some (take (Z.to_nat (off + a) + s) rom ++ replicate m terminator
          ++ drop (Z.to_nat (off + a) + s + m) rom).
Proof.
  induction m as [| m IH]; intros s rom H0 Hlen.
  { simpl. by rewrite Nat.add_0_r, take_drop. }
  cbn [seq map fold_left].
  assert (Hset : Py.setitem rom (off + (a + Z.of_nat s * 1)) terminator
                 = Some (<[(Z.to_nat (off + a) + s)%nat := terminator]> rom)).
  { unfold Py.setitem.
    assert (Hin : (0 <=? off + (a + Z.of_nat s * 1))
                  && (off + (a + Z.of_nat s * 1) <? Py.len rom) = true) by lia.
    rewrite Hin. do 3 f_equal. lia. }
  rewrite Hset, IH; [| done | unfold Py.len in *; rewrite length_insert; lia].
  f_equal.
  assert (Hp : (Z.to_nat (off + a) + s < length rom)%nat) by (unfold Py.len in Hlen; lia).
  set (p := (Z.to_nat (off + a) + s)%nat) in *.
  replace (Z.to_nat (off + a) + S s)%nat with (S p) by lia.
  rewrite (insert_take_drop rom p terminator Hp).
  assert (Hlp : length (take p rom) = p) by (rewrite length_take; lia).
  replace (S p) with (p + 1)%nat at 1 by lia.
  rewrite (take_app_add' (take p rom) _ p 1) by done.
  replace (S p + m)%nat with (p + S m)%nat by lia.
  rewrite (drop_app_add' (take p rom) _ p (S m)) by done.
  cbn [take skipn replicate]. rewrite take_0, drop_drop, <- !app_assoc. cbn [app].
  do 4 f_equal. lia.
Qed.

Lemma original_length_of_run (pre run rest : bytes) :
  terminator ∉ run ->
  original_length (pre ++ run ++ terminator :: rest) (Py.len pre) = Py.len run + 1.
Proof.
  intros Hrun. unfold original_length. rewrite find_after_prefix by done.
  assert (H : (Py.len pre + Py.len run =? -1) = false)
    by (unfold Py.len; apply Z.eqb_neq; lia).
  rewrite H. lia.
Qed.

Lemma place_fitting (st : state) (e : entry) (text : str)
    (pre run rest new_text_bytes : bytes) :
  rom_data st = pre ++ run ++ terminator :: rest ->
  terminator ∉ run ->
  data e = Original (Py.len pre) text ->
  Repack_codec.value (Repack_codec.encode_string text) = Some new_text_bytes ->
  Py.len new_text_bytes <= Py.len run + 1 ->
  place st e
  = Continue
      {| rom_data := pre ++ new_text_bytes
           ++ replicate (length run + 1 - length new_text_bytes) terminator ++ rest;
         current_free_space_offset := current_free_space_offset st;
         repointed_locations := <[id e := Py.len pre]> (repointed_locations st) |}.
Proof.
  intros Hrom Hrun Hdata Henc Hfit.
  unfold place. rewrite Hdata, Henc, Hrom, original_length_of_run by done.
  assert (Hle : (Py.len new_text_bytes <=? Py.len run + 1) = true) by lia.
  rewrite Hle.
  set (b := new_text_bytes) in *.
  set (slot := run ++ [terminator]).
  assert (Hslot : pre ++ run ++ terminator :: rest
                  = pre ++ take (length b) slot ++ (drop (length b) slot ++ rest)).
  { rewrite app_assoc, (app_assoc (take _ _)), take_drop. unfold slot.
    by rewrite <- !app_assoc. }
  rewrite Hslot at 1.
  rewrite slice_assign_inside.
  2:{ rewrite length_take. unfold slot. rewrite length_app. simpl.
      unfold Py.len in Hfit. lia. }
  unfold fill, Py.range.
  replace (Z.to_nat ((Py.len run + 1 - Py.len b + 1 - 1) / 1))
    with (length run + 1 - length b)%nat
    by (rewrite Z.div_1_r; unfold Py.len; lia).
  rewrite (fill_steps (Py.len pre) (Py.len b) _ 0).
  2:{ unfold Py.len. lia. }
  2:{ unfold Py.len in *. rewrite !length_app, length_drop. unfold slot.
      rewrite length_app. simpl. lia. }
  set (k := (length run + 1 - length b)%nat).
  assert (Hd : length (drop (length b) slot) = k).
  { rewrite length_drop. unfold slot, k. rewrite length_app. simpl. lia. }
  replace (Z.to_nat (Py.len pre + Py.len b) + 0)%nat with (length (pre ++ b))
    by (rewrite length_app; unfold Py.len; lia).
  rewrite !(app_assoc pre b).
  rewrite take_app_length.
  rewrite (drop_app_add' (pre ++ b) _ (length (pre ++ b)) k) by done.
  rewrite (drop_app_length' _ rest k) by done.
  by rewrite <- !app_assoc.
Qed.

(** X14.  A text whose encoding is not longer than the text it replaces is
    written over it: the bytes before the text and after its
    terminator are kept, the room that is left is filled with
    terminators, the free space is not touched, and the entry is
    located at its old offset. *)
Theorem fitting_text_written_in_place (st : state) (e : entry) (text : str)
    (pre run rest new_text_bytes : bytes) :
  rom_data st = pre ++ run ++ terminator :: rest ->
  terminator ∉ run ->
  data e = Original (Py.len pre) text ->
  Repack_codec.value (Repack_codec.encode_string text) = Some new_text_bytes ->
  Py.len new_text_bytes <= Py.len run + 1 ->
  place st e
  = Continue
      {| rom_data := pre ++ new_text_bytes
           ++ replicate (length run + 1 - length new_text_bytes) terminator ++ rest;
         current_free_space_offset := current_free_space_offset st;
         repointed_locations := <[id e := Py.len pre]> (repointed_locations st) |}.
Proof.
  intros Hrom Hrun Hdata Henc Hlen. exact (place_fitting st e text pre run rest new_text_bytes Hrom Hrun Hdata Henc Hlen).
Qed.

End WithTables.
End Repack_more.

Module Repack_more2.
Section WithTables.
Context {T : Tables}.
Import Repack Repack_props Codec_claims Codec_more Repack_more.

(** X15.  A text whose encoding is longer than the text it replaces,
    and that fits below [ROM_END_OFFSET], is written at the cursor of
    the free space: the cursor advances by the length of the encoding,
    the entry is located at the old cursor, the bytes of the image
    outside this range are kept, and an image that ends at or before
    the cursor grows by the encoding. *)
Theorem long_text_moved_to_free_space (st : state) (e : entry) (off : Z) (text : str)
    (new_text_bytes : bytes) :
  data e = Original off text ->
  Repack_codec.value (Repack_codec.encode_string text) = Some new_text_bytes ->
  original_length (rom_data st) off < Py.len new_text_bytes ->
  current_free_space_offset st + Py.len new_text_bytes <= ROM_END_OFFSET ->
  0 <= current_free_space_offset st ->
  exists st',
    place st e = Continue st'
    /\ current_free_space_offset st'
       = current_free_space_offset st + Py.len new_text_bytes
    /\ repointed_locations st'
       = <[id e := current_free_space_offset st]> (repointed_locations st)
    /\ (forall pre old rest,
          rom_data st = pre ++ old ++ rest ->
          Py.len pre = current_free_space_offset st ->
          length old = length new_text_bytes ->
          rom_data st' = pre ++ new_text_bytes ++ rest)
    /\ (Py.len (rom_data st) <= current_free_space_offset st ->
          rom_data st' = rom_data st ++ new_text_bytes).
Proof.
  intros Hdata Henc Hlong Hroom Hcur.
  eexists. split.
  { unfold place. rewrite Hdata, Henc.
    assert (H1 : (Py.len new_text_bytes <=? original_length (rom_data st) off) = false)
      by (apply Z.leb_gt; lia).
    assert (H2 : (ROM_END_OFFSET <? current_free_space_offset st + Py.len new_text_bytes)
                 = false) by (apply Z.ltb_ge; lia).
    rewrite H1, H2. reflexivity. }
  simpl. split; [done |]. split; [done |]. split.
  - intros pre old rest Hrom <- Hold. rewrite Hrom. by apply slice_assign_inside.
  - intros Hshort. apply slice_assign_beyond; [done |]. unfold Py.len. lia.
Qed.

Lemma clean_run_encoding (run : bytes) (text : str) :
  tables_agree T ->
  Codec.decode Codec.strict run = Some text ->
  Repack_codec.has_hex_tag text = false ->
  Codec.decode Codec.custom_sjis_error_handler run = Some text
  /\ Repack_codec.encode_string text
     = {| Repack_codec.warnings := [];
          Repack_codec.value := Some (run ++ [terminator]) |}.
Proof.
  intros Hagree Hdec Hno.
  destruct (Codec_props.strict_decode_inverts Hagree (length run) run text)
    as [Hcustom Henc]; [done | done |].
  split; [done |].
  rewrite Codec_props.encode_string_no_tag by done.
  apply Codec_props.encode_strict_replace in Henc.
  rewrite Codec_props.encode_replace_chars in Henc.
  injection Henc as ->. done.
Qed.

Lemma place_unedited (st : state) (e : entry) (text : str) (pre run rest : bytes) :
  tables_agree T ->
  rom_data st = pre ++ run ++ terminator :: rest ->
  terminator ∉ run ->
  Codec.decode Codec.strict run = Some text ->
  Repack_codec.has_hex_tag text = false ->
  data e = Original (Py.len pre) text ->
  place st e
  = Continue
      {| rom_data := rom_data st;
         current_free_space_offset := current_free_space_offset st;
         repointed_locations := <[id e := Py.len pre]> (repointed_locations st) |}.
Proof.
  intros Hagree Hrom Hrun Hdec Hno Hdata.
  destruct (clean_run_encoding run text Hagree Hdec Hno) as [Hcustom Henc].
  rewrite (place_fitting st e text pre run rest (run ++ [terminator]));
    try done.
  - rewrite Hrom. do 2 f_equal.
    replace (length run + 1 - length (run ++ [terminator]))%nat with 0%nat
      by (rewrite length_app; simpl; lia).
    simpl. by rewrite <- app_assoc.
  - by rewrite Henc.
  - unfold Py.len. rewrite length_app. simpl. lia.
Qed.


End WithTables.
End Repack_more2.

Module Repack_more3.
Section WithTables.
Context {T : Tables}.
Import Repack Repack_props Codec_claims Codec_more Repack_more Repack_more2 Repack_more_def.

Lemma place_locations st e st' (i : Z) :
  place st e = Continue st' ->
  is_Some (repointed_locations st' !! i)
  <-> is_Some (repointed_locations st !! i) \/ (is_duplicate e = false /\ id e = i).
Proof.
  unfold place, is_duplicate. destruct (data e) as [o | off text].
  - intros [= <-]. split; [by left | by intros [? | [? _]]].
  - destruct (Repack_codec.value _) as [b |]; [| done].
    assert (Hins : forall loc,
      is_Some (<[id e := loc]> (repointed_locations st) !! i)
      <-> is_Some (repointed_locations st !! i) \/ (false = false /\ id e = i)).
    { intros loc. destruct (decide (id e = i)) as [<- | Hne].
      - rewrite lookup_insert_eq. split; [by right | by eexists].
      - rewrite lookup_insert_ne by done. split; [by left | by intros [? | [_ ?]]]. }
    destruct (Py.len b <=? _).
    + destruct (fill _ _ _ _); [| done]. intros [= <-]. simpl. apply Hins.
    + destruct (ROM_END_OFFSET <? _); [done |]. intros [= <-]. simpl. apply Hins.
Qed.

Lemma first_pass_locations entries (i : Z) : forall st st',
  first_pass entries st = Continue st' ->
  is_Some (repointed_locations st' !! i)
  <-> is_Some (repointed_locations st !! i)
      \/ exists e, e ∈ entries /\ is_duplicate e = false /\ id e = i.
Proof.
  unfold first_pass.
  induction entries as [| e entries IH]; intros st st' Hpass; simpl in Hpass.
  - injection Hpass as <-. split; [by left |].
    intros [? | (e & He & _)]; [done | by apply elem_of_nil in He].
  - destruct (place st e) as [st1 | |] eqn:Hplace; [| done | done].
    rewrite (IH _ _ Hpass), (place_locations _ _ _ i Hplace). split.
    + intros [[? | [Hd Hi]] | (e' & He' & Hd & Hi)].
      * by left.
      * right. exists e. split; [by apply elem_of_cons; left | done].
      * right. exists e'. split; [by apply elem_of_cons; right | done].
    + intros [? | (e' & He' & Hd & Hi)]; [by left; left |].
      apply elem_of_cons in He' as [-> | He'].
      * left. by right.
      * right. by exists e'.
Qed.

(** X17.  After a first pass that completes, the identifiers that have
    a location are exactly the identifiers of the entries that are not
    duplicates. *)
Theorem location_recorded_for_each_original (rom : bytes) (entries : list entry)
    (st : state) (i : Z) :
  first_pass entries (initial rom) = Continue st ->
  is_Some (repointed_locations st !! i)
  <-> exists e, e ∈ entries /\ is_duplicate e = false /\ id e = i.
Proof.
  intros Hpass. rewrite (first_pass_locations entries i _ _ Hpass). simpl.
  rewrite lookup_empty. split; [| by right].
  intros [[? Hx] | ?]; [done | done].
Qed.

Lemma unpack_pack (v : Z) :
  0 <= v < 4294967296 ->
  exists w, Py.pack_u32 v = Some w /\ Py.unpack_u32 w = Some v /\ length w = 4%nat.
Proof.
  intros Hv. unfold Py.pack_u32.
  assert (H : (0 <=? v) && (v <? 4294967296) = true) by lia.
  rewrite H. eexists. split; [done |]. split; [| done].
  unfold Py.unpack_u32. f_equal.
  pose proof (Z.div_mod v 256 ltac:(lia)).
  pose proof (Z.div_mod (v / 256) 256 ltac:(lia)).
  pose proof (Z.div_mod (v / 65536) 256 ltac:(lia)).
  assert (v / 65536 = v / 256 / 256) by (rewrite Z.div_div by lia; done).
  assert (v / 16777216 = v / 65536 / 256) by (rewrite Z.div_div by lia; done).
  lia.
Qed.

(** X18.  The second pass writes, over the four bytes at the pointer
    offset of an entry, the little-endian word 0x08000000 + location,
    the location being that of the entry or, for a duplicate, of the
    entry it refers to; the other bytes, the cursor and the locations
    are kept. *)
Theorem pointer_rewritten (st : state) (e : entry) (loc : Z) (pre old rest : bytes) :
  repointed_locations st
    !! (match data e with Duplicate original_id => original_id | Original _ _ => id e end)
    = Some loc ->
  0 <= loc < 0xF8000000 ->
  rom_data st = pre ++ old ++ rest ->
  Py.len pre = pointer_offset e ->
  length old = 4%nat ->
  exists word,
    patch st e
    = Continue {| rom_data := pre ++ word ++ rest;
                  current_free_space_offset := current_free_space_offset st;
                  repointed_locations := repointed_locations st |}
    /\ Py.unpack_u32 word = Some (0x08000000 + loc)
    /\ length word = 4%nat.
Proof.
  intros Hloc Hrange Hrom Hptr Hold.
  destruct (unpack_pack (0x08000000 + loc)) as (w & Hpack & Hunpack & Hlen); [lia |].
  exists w. split; [| done].
  unfold patch. rewrite Hloc, Hpack, Hrom, <- Hptr.
  replace 4 with (Py.len w) by (unfold Py.len; rewrite Hlen; done).
  rewrite slice_assign_inside by lia. done.
Qed.

(** The size of the image under the two passes *)
Lemma find_from_bound t l : forall i r,
  Py.find_from t l i = r -> r <> -1 -> 0 <= i -> i <= r < i + Py.len l.
Proof.
  unfold Py.len.
  induction l as [| x l IH]; intros i r Hf Hr Hi; simpl in Hf; [lia |].
  destruct (x =? t).
  - subst r. simpl length. lia.
  - destruct (IH _ _ Hf Hr); [lia |]. simpl length. lia.
Qed.

Lemma original_length_bound rom off :
  0 <= off -> 0 < original_length rom off ->
  off + original_length rom off <= Py.len rom.
Proof.
  intros Hoff. unfold original_length.
  destruct (Py.find rom terminator off =? -1) eqn:Hf; [lia |].
  apply Z.eqb_neq in Hf. intros _.
  unfold Py.find in *. rewrite slice_index_nonneg in * by done.
  destruct (find_from_bound _ _ _ _ eq_refl Hf) as [H1 H2]; [unfold Py.len; lia |].
  unfold Py.len in *. rewrite length_drop in H2. lia.
Qed.

Lemma setitem_length {A} (l l' : list A) i v :
  Py.setitem l i v = Some l' -> Py.len l' = Py.len l.
Proof.
  unfold Py.setitem, Py.len.
  destruct (_ && _); [intros [= <-]; by rewrite length_insert |].
  destruct (_ && _); [intros [= <-]; by rewrite length_insert | done].
Qed.

Lemma fill_length rom off a b rom' :
  fill rom off a b = Some rom' -> Py.len rom' = Py.len rom.
Proof.
  unfold fill. generalize (Py.range a b 1). intros l. revert rom.
  induction l as [| i l IH]; intros rom; simpl; [by intros [= <-] |].
  destruct (Py.setitem rom (off + i) terminator) as [rom1 |] eqn:Hset.
  - intros H. rewrite (IH _ H). by apply (setitem_length _ _ _ _ Hset).
  - assert (Hnone : forall l', fold_left (fun acc i =>
        match acc with
        | Some rom => Py.setitem rom (off + i) terminator
        | None => None
        end) l' None = None) by (induction l'; done).
    by rewrite Hnone.
Qed.

Lemma encoded_length_positive text b :
  Repack_codec.value (Repack_codec.encode_string text) = Some b -> 1 <= Py.len b.
Proof.
  unfold Repack_codec.encode_string. intros (b' & ->)%encode_parts_ends.
  unfold Py.len. rewrite !length_app. simpl. lia.
Qed.

Lemma place_size st e st' :
  place st e = Continue st' ->
  (forall off text, data e = Original off text -> 0 <= off) ->
  ROM_END_OFFSET <= Py.len (rom_data st) ->
  0 <= current_free_space_offset st ->
  Py.len (rom_data st') = Py.len (rom_data st).
Proof.
  unfold place. intros Hplace Hoff Hrom Hcur.
  destruct (data e) as [o | off text]; [by injection Hplace as <- |].
  specialize (Hoff off text eq_refl).
  destruct (Repack_codec.value _) as [b |] eqn:Henc; [| done].
  pose proof (encoded_length_positive _ _ Henc) as Hb.
  destruct (Py.len b <=? _) eqn:Hfit.
  - destruct (fill _ _ _ _) as [rom1 |] eqn:Hfill; [| done].
    injection Hplace as <-. simpl.
    rewrite (fill_length _ _ _ _ _ Hfill).
    apply slice_assign_length; [done |].
    apply Z.leb_le in Hfit.
    pose proof (original_length_bound (rom_data st) off Hoff). lia.
  - destruct (ROM_END_OFFSET <? _) eqn:Hfull; [done |].
    injection Hplace as <-. simpl. apply Z.ltb_ge in Hfull.
    apply slice_assign_length; lia.
Qed.

Lemma patch_size st e st' :
  patch st e = Continue st' ->
  0 <= pointer_offset e -> pointer_offset e + 4 <= Py.len (rom_data st) ->
  Py.len (rom_data st') = Py.len (rom_data st)
  /\ current_free_space_offset st' = current_free_space_offset st.
Proof.
  unfold patch. intros Hpatch H0 H4.
  destruct (repointed_locations st !! _) as [loc |]; [| by injection Hpatch as <-].
  destruct (Py.pack_u32 _) as [w |] eqn:Hpack; [| done].
  injection Hpatch as <-. simpl. split; [| done].
  assert (Hw : Py.len w = 4).
  { unfold Py.pack_u32 in Hpack. destruct (_ && _); [| done].
    by injection Hpack as <-. }
  rewrite <- Hw. apply slice_assign_length; lia.
Qed.


Lemma first_pass_size entries : forall st st',
  first_pass entries st = Continue st' ->
  (forall e, e ∈ entries -> well_placed (Py.len (rom_data st)) e) ->
  ROM_END_OFFSET <= Py.len (rom_data st) ->
  0 <= current_free_space_offset st ->
  Py.len (rom_data st') = Py.len (rom_data st).
Proof.
  unfold first_pass.
  induction entries as [| e entries IH]; intros st st' Hpass Hwell Hrom Hcur;
    simpl in Hpass; [by injection Hpass as <- |].
  destruct (place st e) as [st1 | |] eqn:Hplace; [| done | done].
  assert (He : well_placed (Py.len (rom_data st)) e)
    by (apply Hwell; by apply elem_of_cons; left).
  pose proof (place_size _ _ _ Hplace (proj2 (proj2 He)) Hrom Hcur) as Hsize.
  rewrite (IH _ _ Hpass); [done | | lia |].
  - intros e' He'. rewrite Hsize. apply Hwell. by apply elem_of_cons; right.
  - unfold place in Hplace. destruct (data e); [by injection Hplace as <- |].
    destruct (Repack_codec.value _) as [b |]; [| done].
    destruct (Py.len b <=? _).
    + destruct (fill _ _ _ _); [| done]. by injection Hplace as <-.
    + destruct (ROM_END_OFFSET <? _); [done |]. injection Hplace as <-. simpl.
      unfold Py.len. lia.
Qed.

Lemma second_pass_size entries : forall st st',
  second_pass entries st = Continue st' ->
  (forall e, e ∈ entries -> well_placed (Py.len (rom_data st)) e) ->
  Py.len (rom_data st') = Py.len (rom_data st).
Proof.
  unfold second_pass.
  induction entries as [| e entries IH]; intros st st' Hpass Hwell;
    simpl in Hpass; [by injection Hpass as <- |].
  destruct (patch st e) as [st1 | |] eqn:Hpatch; [| done | done].
  destruct (Hwell e) as (H0 & H4 & _); [by apply elem_of_cons; left |].
  destruct (patch_size _ _ _ Hpatch H0 H4) as [Hsize _].
  rewrite (IH _ _ Hpass); [done |].
  intros e' He'. rewrite Hsize. apply Hwell. by apply elem_of_cons; right.
Qed.

(** X19.  A repack of an image that reaches [ROM_END_OFFSET], with
    pointer offsets inside the image and text offsets that are not
    negative, returns an image of the same size. *)
Theorem image_size_kept (rom : bytes) (entries : list entry) :
  ROM_END_OFFSET <= Py.len rom ->
  (forall e, e ∈ entries ->
     0 <= pointer_offset e /\ pointer_offset e + 4 <= Py.len rom
     /\ forall off text, data e = Original off text -> 0 <= off) ->
  forall rom', main rom entries = Some rom' -> Py.len rom' = Py.len rom.
Proof.
  intros Hrom Hwell rom'. unfold main.
  destruct (first_pass entries (initial rom)) as [st | |] eqn:H1; [| done | done].
  destruct (second_pass entries st) as [st' | |] eqn:H2; [| done | done].
  intros [= <-].
  pose proof (first_pass_size _ _ _ H1) as Hs1. simpl in Hs1.
  rewrite (second_pass_size _ _ _ H2).
  - apply Hs1; [done | done | vm_compute; discriminate].
  - intros e He. rewrite Hs1; [by apply Hwell | done | done | vm_compute; discriminate].
Qed.

End WithTables.
End Repack_more3.

(** ** The export file *)

Module Export_props.
Import Output Parse Export_def.

Lemma to_digits_unfold (base : Z) (fuel : nat) (n : Z) :
to_digits base (S fuel) n
= if n <? base then [n] else to_digits base fuel (n / base) ++ [n mod base].
Proof. reflexivity. Qed.

Lemma to_digits_spec (base : Z) (fuel : nat) (n : Z) :
2 <= base -> 0 <= n < base ^ Z.of_nat (S fuel) ->
to_digits base (S fuel) n <> []
/\ Forall (fun d => 0 <= d < base) (to_digits base (S fuel) n)
/\ fold_left (fun acc d => acc * base + d) (to_digits base (S fuel) n) 0 = n.
Proof.
  intros Hb. revert n. induction fuel as [|fuel IH]; intros n Hn.
  - cbn [to_digits]. destruct (n <? base) eqn:E.
    + apply Z.ltb_lt in E. split; [done|]. split; [constructor; [lia|constructor]|]. cbn. lia.
    + apply Z.ltb_ge in E. change (Z.of_nat 1) with 1 in Hn. lia.
  - rewrite to_digits_unfold. destruct (n <? base) eqn:E.
    + apply Z.ltb_lt in E. split; [done|]. split; [constructor; [lia|constructor]|]. cbn. lia.
    + apply Z.ltb_ge in E.
      assert (Hq : 0 <= n / base < base ^ Z.of_nat (S fuel)).
      { split; [apply Z.div_pos; lia|].
        apply Z.div_lt_upper_bound; [lia|].
        replace (base * base ^ Z.of_nat (S fuel)) with (base ^ Z.of_nat (S (S fuel))); [lia|].
        rewrite (Nat2Z.inj_succ (S fuel)), Z.pow_succ_r by lia. reflexivity. }
      destruct (IH _ Hq) as (Hne & Hall & Hval).
      split; [intros Happ; apply app_eq_nil in Happ; destruct Happ; discriminate|].
      split.
      * apply Forall_app. split; [exact Hall|].
        constructor; [apply Z.mod_pos_bound; lia|constructor].
      * rewrite fold_left_app. cbn [fold_left]. rewrite Hval.
        rewrite (Z.div_mod n base) at 3 by lia. lia.
Qed.

Lemma enough_fuel (base m : Z) :
2 <= base -> 0 <= m -> 0 <= m < base ^ Z.of_nat (S (Z.to_nat (Z.log2 m))).
Proof.
  intros Hb Hm. split; [exact Hm|].
  rewrite Nat2Z.inj_succ, Z2Nat.id by apply Z.log2_nonneg.
  destruct (Z.eq_dec m 0) as [->|Hne].
  - change (Z.log2 0) with 0. change (Z.succ 0) with 1. lia.
  - assert (H := Z.log2_spec m ltac:(lia)).
    assert (2 ^ Z.succ (Z.log2 m) <= base ^ Z.succ (Z.log2 m)).
    { apply Z.pow_le_mono_l. lia. }
    lia.
Qed.

Lemma fold_zeros (base : Z) (v : Z -> option Z) (k : nat) :
v 48 = Some 0 ->
fold_left (fun acc c => acc * base + default 0 (v c)) (replicate k 48) 0 = 0.
Proof.
  intros Hv. induction k as [|k IH]; [reflexivity|].
  cbn [replicate fold_left]. rewrite Hv. cbn [default]. exact IH.
Qed.

Lemma fold_digits (base : Z) (v : Z -> option Z) (ds : list Z) (acc : Z) :
Forall (fun d => v (Py.hex_digit d) = Some d) ds ->
fold_left (fun acc c => acc * base + default 0 (v c)) (map Py.hex_digit ds) acc
= fold_left (fun acc d => acc * base + d) ds acc.
Proof.
  intros H. revert acc. induction H as [|d ds Hd _ IH]; intros acc; [reflexivity|].
  cbn [map fold_left]. rewrite Hd. cbn [default]. apply IH.
Qed.

(** A number that is not negative is written with digits of the base
    only, and at least one; reading them gives the number. *)
Lemma format_int_spec (base : Z) (v : Z -> option Z) (p : Z -> bool) (width : nat) (n : Z) :
2 <= base -> 0 <= n ->
(forall d, 0 <= d < base -> v (Py.hex_digit d) = Some d /\ p (Py.hex_digit d) = true) ->
format_int base width n <> []
/\ forallb p (format_int base width n) = true
/\ fold_left (fun acc c => acc * base + default 0 (v c)) (format_int base width n) 0 = n.
Proof.
  intros Hb Hn Hv. unfold format_int. cbv zeta.
  destruct (n <? 0) eqn:E; [apply Z.ltb_lt in E; lia|].
  rewrite Z.abs_eq by lia.
  destruct (to_digits_spec base (Z.to_nat (Z.log2 n)) n Hb (enough_fuel base n Hb Hn))
    as (Hne & Hall & Hval).
  set (ds := to_digits base (S (Z.to_nat (Z.log2 n))) n) in *.
  assert (H0 : v 48 = Some 0 /\ p 48 = true) by (apply (Hv 0); lia).
  split; [|split].
  - intros Happ. apply app_eq_nil in Happ. destruct Happ as [_ Hm].
    apply map_eq_nil in Hm. contradiction.
  - rewrite forallb_app. apply andb_true_iff. split.
    + apply forallb_forall. intros x Hx. apply list_elem_of_In, elem_of_replicate in Hx.
      destruct Hx as [-> _]. apply H0.
    + apply forallb_forall. intros x Hx. apply in_map_iff in Hx.
      destruct Hx as (d & <- & Hd). rewrite Forall_forall in Hall.
      apply Hv, Hall, list_elem_of_In, Hd.
  - rewrite fold_left_app, fold_zeros by apply H0.
    rewrite fold_digits; [exact Hval|].
    eapply Forall_impl; [exact Hall|]. intros d Hd. apply Hv, Hd.
Qed.

Section WithDecimals.
Context {D : Decimals}.

Lemma decimal_ascii (d : Z) :
0 <= d < 10 -> digit_of (Py.hex_digit d) = Some d /\ decimal (Py.hex_digit d) = true.
Proof.
  intros Hd. unfold decimal, digit_of, Py.hex_digit.
  destruct (d <? 10) eqn:E; [|apply Z.ltb_ge in E; lia].
  destruct (48 + d <? 128) eqn:E1; [|apply Z.ltb_ge in E1; lia].
  destruct (48 <=? 48 + d) eqn:E2; [|apply Z.leb_gt in E2; lia].
  destruct (48 + d <=? 57) eqn:E3; [|apply Z.leb_gt in E3; lia].
  cbn [andb]. split; [f_equal; lia|]. apply bool_decide_eq_true. by eexists.
Qed.

Lemma hex_ascii (d : Z) :
0 <= d < 16 -> Py.digit_value (Py.hex_digit d) = Some d /\ upper_hex (Py.hex_digit d) = true.
Proof.
  intros Hd. unfold upper_hex, Py.digit_value, Py.hex_digit.
  destruct (d <? 10) eqn:E.
  - apply Z.ltb_lt in E.
    destruct (48 <=? 48 + d) eqn:E2; [|apply Z.leb_gt in E2; lia].
    destruct (48 + d <=? 57) eqn:E3; [|apply Z.leb_gt in E3; lia].
    cbn [andb orb]. split; [f_equal; lia|reflexivity].
  - apply Z.ltb_ge in E.
    destruct (48 <=? 55 + d) eqn:E2; [|apply Z.leb_gt in E2; lia].
    destruct (55 + d <=? 57) eqn:E3; [apply Z.leb_le in E3; lia|].
    destruct (65 <=? 55 + d) eqn:E4; [|apply Z.leb_gt in E4; lia].
    destruct (55 + d <=? 70) eqn:E5; [|apply Z.leb_gt in E5; lia].
    cbn [andb orb]. split; [f_equal; lia|reflexivity].
Qed.

Lemma format_decimal (width : nat) (n : Z) :
0 <= n ->
format_int 10 width n <> [] /\ forallb decimal (format_int 10 width n) = true
/\ int10 (format_int 10 width n) = n.
Proof.
  intros Hn. apply (format_int_spec 10 digit_of decimal width n); [lia|exact Hn|].
  intros d Hd. apply decimal_ascii, Hd.
Qed.

Lemma format_hex (width : nat) (n : Z) :
0 <= n ->
format_int 16 width n <> [] /\ forallb upper_hex (format_int 16 width n) = true
/\ int16 (format_int 16 width n) = n.
Proof.
  intros Hn. apply (format_int_spec 16 Py.digit_value upper_hex width n); [lia|exact Hn|].
  intros d Hd. apply hex_ascii, Hd.
Qed.

Lemma startswith_app (p s : str) : Py.startswith (p ++ s) p = true.
Proof.
  induction p as [|a p IH]; [destruct s; reflexivity|].
  cbn [app Py.startswith]. rewrite Z.eqb_refl. exact IH.
Qed.

Lemma after_app (p s : str) : after p (p ++ s) = Some s.
Proof.
  unfold after. rewrite startswith_app. f_equal. apply drop_app_length.
Qed.

Lemma span_app (p : Z -> bool) (ds : str) (c : Z) (rest : str) :
forallb p ds = true -> p c = false -> Py.span p (ds ++ c :: rest) = ds.
Proof.
  intros Hds Hc. induction ds as [|d ds IH].
  - cbn [app Py.span]. rewrite Hc. reflexivity.
  - cbn [forallb] in Hds. apply andb_true_iff in Hds. destruct Hds as [Hd Hds].
    cbn [app Py.span]. rewrite Hd, IH by exact Hds. reflexivity.
Qed.

Lemma run_app (p : Z -> bool) (ds : str) (c : Z) (rest : str) :
ds <> [] -> forallb p ds = true -> p c = false ->
run p (ds ++ c :: rest) = Some (ds, c :: rest).
Proof.
  intros Hne Hds Hc. unfold run. rewrite span_app by assumption.
  destruct ds as [|d ds]; [contradiction|].
  f_equal. f_equal. apply drop_app_length.
Qed.


Lemma blank_line_first (t rest : str) :
no_blank_line t -> blank_line (t ++ 10 :: 10 :: rest) = Some (length t).
Proof.
  unfold no_blank_line. induction t as [|c t IH]; intros H.
  - reflexivity.
  - cbn [app blank_line].
    assert (Hc : (c =? 10) && match t ++ 10 :: 10 :: rest with c' :: _ => c' =? 10 | [] => false end = false).
    { destruct (c =? 10) eqn:E; [|reflexivity]. apply Z.eqb_eq in E. subst c.
      specialize (H 0%nat eq_refl). cbn in H.
      destruct t as [|c' t]; [exfalso; apply H; reflexivity|].
      cbn. apply Z.eqb_neq. intros ->. apply H. reflexivity. }
    rewrite Hc. rewrite IH; [reflexivity|].
    intros i Hi. exact (H (S i) Hi).
Qed.

Lemma blank_line_none (t : str) : 10 ∉ t -> no_blank_line t.
Proof.
  intros H i Hi. exfalso. apply H. eapply list_elem_of_lookup_2. exact Hi.
Qed.


Lemma match_pattern_frame (d h1 h2 t rest : str) :
d <> [] -> forallb decimal d = true ->
h1 <> [] -> forallb upper_hex h1 = true ->
h2 <> [] -> forallb upper_hex h2 = true ->
no_blank_line t ->
match_pattern (frame d h1 h2 t ++ rest)
= Some (length (frame d h1 h2 t), (d, h1, h2, t)).
Proof.
  intros Hd Hd' Hh1 Hh1' Hh2 Hh2' Ht.
  unfold match_pattern, frame.
  rewrite <- !app_assoc. rewrite after_app. cbn [mbind option_bind].
  change (lit ">" ++ [10] ++ ?x) with (62 :: 10 :: x).
  rewrite (run_app decimal d 62) by (assumption || reflexivity).
  cbn [mbind option_bind].
  change (62 :: 10 :: lit "POINTER_OFFSET: 0x" ++ ?x)
    with ((lit ">" ++ [10] ++ lit "POINTER_OFFSET: 0x") ++ x).
  rewrite after_app. cbn [mbind option_bind].
  change ([10] ++ ?x) with (10 :: x).
  rewrite (run_app upper_hex h1 10) by (assumption || reflexivity).
  cbn [mbind option_bind].
  change (10 :: lit "TEXT_OFFSET: 0x" ++ ?x) with (([10] ++ lit "TEXT_OFFSET: 0x") ++ x).
  rewrite after_app. cbn [mbind option_bind].
  change ([10] ++ t ++ ?x) with (10 :: t ++ x).
  rewrite (run_app upper_hex h2 10) by (assumption || reflexivity).
  cbn [mbind option_bind].
  change (after [10] (10 :: ?x)) with (after [10] ([10] ++ x)).
  rewrite after_app. cbn [mbind option_bind].
  change ([10; 10] ++ rest) with (10 :: 10 :: rest).
  rewrite blank_line_first by exact Ht. cbn [mbind option_bind].
  f_equal. f_equal.
  - rewrite ?length_app. cbn [length]. rewrite ?length_app. cbn [length].
    rewrite ?length_app. cbn [length]. lia.
  - f_equal. apply take_app_length.
Qed.

Lemma match_duplicate_marker (d : str) :
d <> [] -> forallb decimal d = true ->
match_duplicate (lit "[DUPLICATE OF <STRING " ++ d ++ lit ">]") = Some d.
Proof.
  intros Hd Hd'. unfold match_duplicate. rewrite after_app. cbn [mbind option_bind].
  change (lit ">]") with (62 :: [93]).
  rewrite (run_app decimal d 62) by (assumption || reflexivity).
  cbn [mbind option_bind]. reflexivity.
Qed.

Lemma finditer_skip (pre rest : str) :
finditer (pre ++ rest) (length pre) = finditer rest 0.
Proof.
  induction pre as [|c pre IH]; [reflexivity|]. exact IH.
Qed.

Lemma finditer_match (m rest : str) (groups : str * str * str * str) :
match_pattern (m ++ rest) = Some (length m, groups) -> m <> [] ->
finditer (m ++ rest) 0 = groups :: finditer rest 0.
Proof.
  intros Hm Hne. destruct m as [|c m]; [contradiction|].
  change (finditer ((c :: m) ++ rest) 0)
    with (match match_pattern ((c :: m) ++ rest) with
          | Some (n, groups) => groups :: finditer (m ++ rest) (n - 1)
          | None => finditer (m ++ rest) 0
          end).
  rewrite Hm. cbn [length]. rewrite Nat.sub_succ, Nat.sub_0_r, finditer_skip. reflexivity.
Qed.

Lemma read_written (linesep s : str) :
linesep = [10] \/ linesep = [13; 10] -> forallb (fun c => negb (c =? 13)) s = true ->
Text_io.read (flat_map (fun c => if c =? 10 then linesep else [c]) s) = s.
Proof.
  intros Hl Hs. induction s as [|c s IH]; [reflexivity|].
  cbn [forallb] in Hs. apply andb_true_iff in Hs. destruct Hs as [Hc Hs].
  specialize (IH Hs). cbn [flat_map].
  destruct (c =? 10) eqn:E.
  - apply Z.eqb_eq in E. subst c. destruct Hl as [-> | ->].
    + cbn [app Text_io.read]. change (10 =? 13) with false. cbv iota. rewrite IH. reflexivity.
    + cbn [app Text_io.read]. change (13 =? 13) with true. change (10 =? 10) with true.
      cbv iota. rewrite IH. reflexivity.
  - cbn [app Text_io.read]. apply negb_true_iff in Hc. rewrite Hc, IH. reflexivity.
Qed.




Lemma output_block_frame (b : Dump.block) :
output_block b
= frame (format_int 10 4 (Dump.id b)) (format_int 16 8 (Dump.pointer_offset b))
    (format_int 16 8 (Dump.text_offset b)) (written_text b).
Proof. reflexivity. Qed.

Lemma frame_not_empty (d h1 h2 t : str) : frame d h1 h2 t <> [].
Proof.
  unfold frame. change (lit "<STRING ") with (60 :: lit "STRING "). discriminate.
Qed.


Lemma forallb_weaken (p q : Z -> bool) (l : str) :
(forall c, p c = true -> q c = true) -> forallb p l = true -> forallb q l = true.
Proof.
  intros H Hl. apply forallb_forall. intros x Hx.
  apply H. rewrite forallb_forall in Hl. apply Hl, Hx.
Qed.

Lemma decimal_no_cr (c : Z) : decimal c = true -> no_cr c = true.
Proof.
  unfold no_cr. destruct (c =? 13) eqn:E; [|reflexivity].
  apply Z.eqb_eq in E. subst c. intros H. apply bool_decide_eq_true in H.
  destruct H as [x Hx]. discriminate Hx.
Qed.

Lemma upper_hex_no_cr (c : Z) : upper_hex c = true -> no_cr c = true.
Proof.
  unfold no_cr. destruct (c =? 13) eqn:E; [|reflexivity].
  apply Z.eqb_eq in E. subst c. discriminate.
Qed.

Lemma frame_no_cr (d h1 h2 t : str) :
forallb decimal d = true -> forallb upper_hex h1 = true -> forallb upper_hex h2 = true ->
forallb no_cr t = true -> forallb no_cr (frame d h1 h2 t) = true.
Proof.
  intros Hd Hh1 Hh2 Ht. unfold frame. rewrite !forallb_app.
  rewrite (forallb_weaken _ _ d decimal_no_cr Hd).
  rewrite (forallb_weaken _ _ h1 upper_hex_no_cr Hh1).
  rewrite (forallb_weaken _ _ h2 upper_hex_no_cr Hh2).
  rewrite Ht. reflexivity.
Qed.

Lemma written_text_spec (b : Dump.block) :
readable b ->
no_blank_line (written_text b) /\ forallb no_cr (written_text b) = true
/\ entry_of (format_int 10 4 (Dump.id b), format_int 16 8 (Dump.pointer_offset b),
             format_int 16 8 (Dump.text_offset b), written_text b)
   = entry_of_block b.
Proof.
  intros (Hid & Hptr & Hoff & Hc).
  destruct (format_decimal 4 (Dump.id b) Hid) as (_ & _ & Vid).
  destruct (format_hex 8 (Dump.pointer_offset b) Hptr) as (_ & _ & Vptr).
  destruct (format_hex 8 (Dump.text_offset b) Hoff) as (_ & _ & Voff).
  unfold written_text, entry_of_block, entry_of.
  destruct (Dump.contents b) as [t | o].
  - destruct Hc as (Hb & Hcr & Hdup). split; [exact Hb|]. split.
    + apply forallb_forall. intros x Hx. unfold no_cr. apply negb_true_iff, Z.eqb_neq.
      intros ->. apply Hcr, list_elem_of_In, Hx.
    + rewrite Hdup, Vid, Vptr, Voff. reflexivity.
  - destruct (format_decimal 4 o Hc) as (Ne & Dec & Vo).
    assert (Hcr : forallb no_cr (lit "[DUPLICATE OF <STRING " ++ format_int 10 4 o ++ lit ">]") = true).
    { rewrite !forallb_app. rewrite (forallb_weaken _ _ _ decimal_no_cr Dec). reflexivity. }
    split; [|split].
    + apply blank_line_none. intros Hin. apply list_elem_of_In in Hin.
      assert (Hlf : forallb (fun c => negb (c =? 10))
                (lit "[DUPLICATE OF <STRING " ++ format_int 10 4 o ++ lit ">]") = true).
      { assert (Hd : forall c, decimal c = true -> negb (c =? 10) = true).
        { intros c H. destruct (c =? 10) eqn:E; [|reflexivity].
          apply Z.eqb_eq in E. subst c. apply bool_decide_eq_true in H.
          destruct H as [x Hx]. discriminate Hx. }
        rewrite !forallb_app. rewrite (forallb_weaken decimal _ _ Hd Dec). reflexivity. }
      rewrite forallb_forall in Hlf. specialize (Hlf 10 Hin). discriminate Hlf.
    + exact Hcr.
    + rewrite match_duplicate_marker by assumption. rewrite Vid, Vptr, Vo. reflexivity.
Qed.

Lemma finditer_blocks (blocks : list Dump.block) :
(forall b, b ∈ blocks -> readable b) ->
map entry_of (finditer (flat_map output_block blocks) 0) = map entry_of_block blocks
/\ forallb no_cr (flat_map output_block blocks) = true.
Proof.
  induction blocks as [|b blocks IH]; intros H; [split; reflexivity|].
  assert (Hb : readable b) by (apply H; left).
  destruct IH as [IH1 IH2]; [intros b' Hb'; apply H; right; exact Hb'|].
  destruct (written_text_spec b Hb) as (Hnb & Hcr & He).
  destruct Hb as (Hid & Hptr & Hoff & _).
  destruct (format_decimal 4 (Dump.id b) Hid) as (N1 & D1 & _).
  destruct (format_hex 8 (Dump.pointer_offset b) Hptr) as (N2 & D2 & _).
  destruct (format_hex 8 (Dump.text_offset b) Hoff) as (N3 & D3 & _).
  cbn [flat_map]. rewrite output_block_frame. split.
  - rewrite (finditer_match _ _ _ (match_pattern_frame _ _ _ _ _ N1 D1 N2 D2 N3 D3 Hnb)
              (frame_not_empty _ _ _ _)).
    cbn [map]. rewrite He, IH1. reflexivity.
  - rewrite forallb_app, IH2, frame_no_cr by assumption. reflexivity.
Qed.

Lemma blocks_read_back (linesep : str) (blocks : list Dump.block) (file : str) :
linesep = [10] \/ linesep = [13; 10] ->
(forall b, b ∈ blocks -> readable b) ->
Output.file linesep blocks = Some file ->
parse_text_file file = map entry_of_block blocks.
Proof.
  intros Hl Hb Hf. unfold Output.file, Text_io.write in Hf.
  destruct (forallb Text_io.encodable (flat_map output_block blocks)); [|discriminate].
  injection Hf as <-. unfold parse_text_file.
  destruct (finditer_blocks blocks Hb) as [H1 H2].
  rewrite read_written by assumption. exact H1.
Qed.


Lemma write_read (linesep content file : str) :
linesep = [10] \/ linesep = [13; 10] -> forallb no_cr content = true ->
Text_io.write linesep content = Some file -> Text_io.read file = content.
Proof.
  intros Hl Hc Hf. unfold Text_io.write in Hf.
  destruct (forallb Text_io.encodable content); [|discriminate].
  assert (E : file = flat_map (fun c => if c =? 10 then linesep else [c]) content) by congruence.
  rewrite E. apply read_written; assumption.
Qed.

Lemma match_pattern_line_feed (s : str) : match_pattern (10 :: s) = None.
Proof. reflexivity. Qed.



Lemma blank_line_take (s : str) (k : nat) :
blank_line s = Some k -> no_blank_line (take k s).
Proof.
  revert k. induction s as [|c r IH]; intros k Hk; [discriminate|].
  cbn [blank_line] in Hk.
  destruct ((c =? 10) && match r with c' :: _ => c' =? 10 | [] => false end) eqn:E.
  - injection Hk as <-. intros i Hi. discriminate Hi.
  - destruct (blank_line r) as [k'|] eqn:Er; [|discriminate].
    injection Hk as <-. specialize (IH k' eq_refl).
    intros [|i] Hi.
    + cbn in Hi. injection Hi as ->. change (10 =? 10) with true in E. cbn [andb] in E.
      cbn [take app lookup list_lookup]. 
      destruct r as [|c' r']; [discriminate|].
      destruct k' as [|k''].
      * cbn [blank_line] in Er. rewrite E in Er. cbn [andb] in Er.
        destruct (blank_line r'); cbn in Er; discriminate Er.
      * cbn. apply Z.eqb_neq in E. congruence.
    + exact (IH i Hi).
Qed.

Lemma read_no_cr (file : str) : 13 ∉ Text_io.read file.
Proof.
  assert (H : forall n file, (length file <= n)%nat -> 13 ∉ Text_io.read file).
  { intros n. induction n as [|n IH]; intros [|c r] Hlen; cbn [length] in Hlen;
      try (cbn; apply not_elem_of_nil); [lia|].
    cbn [Text_io.read]. destruct (c =? 13) eqn:E.
    - apply not_elem_of_cons. split; [lia|].
      destruct r as [|c' r']; [apply not_elem_of_nil|].
      destruct (c' =? 10); apply IH; cbn [length] in *; lia.
    - apply not_elem_of_cons. apply Z.eqb_neq in E. split; [congruence|].
      apply IH. lia. }
  exact (H _ file (le_n _)).
Qed.

Lemma after_suffix (p s s' : str) : after p s = Some s' -> s' `suffix_of` s.
Proof.
  unfold after. destruct (Py.startswith s p); [|discriminate].
  intros H. injection H as <-. apply suffix_drop.
Qed.

Lemma run_suffix (p : Z -> bool) (s r s' : str) : run p s = Some (r, s') -> s' `suffix_of` s.
Proof.
  unfold run. destruct (Py.span p s); [discriminate|].
  intros H. injection H as <- <-. apply suffix_drop.
Qed.

Lemma match_pattern_text (s : str) (n : nat) (d h1 h2 text : str) :
match_pattern s = Some (n, (d, h1, h2, text)) ->
no_blank_line text /\ forall c, c ∈ text -> c ∈ s.
Proof.
  unfold match_pattern. intros H.
  destruct (after _ s) as [s1|] eqn:E1; [|discriminate]. cbn [mbind option_bind] in H.
  destruct (run decimal s1) as [[d' s2]|] eqn:E2; [|discriminate]. cbn [mbind option_bind] in H.
  destruct (after _ s2) as [s3|] eqn:E3; [|discriminate]. cbn [mbind option_bind] in H.
  destruct (run upper_hex s3) as [[h1' s4]|] eqn:E4; [|discriminate]. cbn [mbind option_bind] in H.
  destruct (after _ s4) as [s5|] eqn:E5; [|discriminate]. cbn [mbind option_bind] in H.
  destruct (run upper_hex s5) as [[h2' s6]|] eqn:E6; [|discriminate]. cbn [mbind option_bind] in H.
  destruct (after _ s6) as [s7|] eqn:E7; [|discriminate]. cbn [mbind option_bind] in H.
  destruct (blank_line s7) as [k|] eqn:E8; [|discriminate]. cbn [mbind option_bind] in H.
  injection H as _ _ _ _ <-.
  split; [apply blank_line_take, E8|].
  assert (Hs : s7 `suffix_of` s).
  { apply after_suffix in E1, E3, E5, E7. apply run_suffix in E2, E4, E6.
    repeat (etrans; [eassumption|]). reflexivity. }
  intros c Hc. destruct Hs as [pre ->]. apply elem_of_app. right.
  rewrite <- (take_drop k s7). apply elem_of_app. left. exact Hc.
Qed.

Lemma finditer_members (content : str) (skip : nat) (g : str * str * str * str) :
g ∈ finditer content skip ->
exists (s : str) (n : nat), s `suffix_of` content /\ match_pattern s = Some (n, g).
Proof.
  revert skip. induction content as [|c r IH]; intros skip Hg.
  - cbn in Hg. by apply elem_of_nil in Hg.
  - assert (Hr : forall k, g ∈ finditer r k ->
      exists (s : str) (n : nat), s `suffix_of` c :: r /\ match_pattern s = Some (n, g)).
    { intros k Hk. destruct (IH k Hk) as (s & n & Hs & Hm).
      exists s, n. split; [apply suffix_cons_r, Hs|exact Hm]. }
    destruct skip as [|k]; [|exact (Hr k Hg)].
    change (finditer (c :: r) 0)
      with (match match_pattern (c :: r) with
            | Some (n, groups) => groups :: finditer r (n - 1)
            | None => finditer r 0
            end) in Hg.
    destruct (match_pattern (c :: r)) as [[n g']|] eqn:E; [|exact (Hr _ Hg)].
    apply elem_of_cons in Hg. destruct Hg as [-> | Hg]; [|exact (Hr _ Hg)].
    exists (c :: r), n. split; [reflexivity|exact E].
Qed.

(** X22.  Whatever the file holds, no text that [parse_text_file] returns
    has a blank line inside, ends with a line feed or holds a carriage
    return. *)
Theorem parsed_text_has_no_blank_line (file : str) (e : Repack.entry) (off : Z) (text : str) :
e ∈ parse_text_file file -> Repack.data e = Repack.Original off text ->
no_blank_line text /\ (13 ∉ text).
Proof.
  unfold parse_text_file. intros He Hd.
  apply list_elem_of_fmap in He. destruct He as ([[[d h1] h2] t] & -> & Hg).
  apply finditer_members in Hg. destruct Hg as (s & n & Hs & Hm).
  apply match_pattern_text in Hm. destruct Hm as [Hnb Hin].
  unfold entry_of in Hd. destruct (match_duplicate t); cbn in Hd; [discriminate|].
  injection Hd as _ <-. split; [exact Hnb|].
  intros H13. apply Hin in H13. destruct Hs as [pre Hs].
  apply (read_no_cr file). rewrite Hs. apply elem_of_app. right. exact H13.
Qed.

End WithDecimals.
End Export_props.

Module Pipeline_props.
Section WithTables.
Context {T : Tables} {D : Decimals}.
Import Dump Dump_inv Dump_props Dump_more_def Dump_more Dump_complete Output Parse Export_def Export_props.

Lemma block_id_nonneg (rom : bytes) (st : state) (b : block) :
  inv rom st -> b ∈ output_file st -> 0 <= id b.
Proof.
  intros Hinv Hb.
  assert (Hid : id b ∈ map id (output_file st)) by (apply list_elem_of_fmap; by exists b).
  rewrite (inv_ids _ _ Hinv) in Hid.
  apply list_elem_of_fmap in Hid as (k & -> & _). lia.
Qed.

Lemma block_pointer_nonneg (m : mode) (rom : bytes) (b : block) :
  b ∈ output_file (main m rom) -> 0 <= pointer_offset b.
Proof.
  destruct m; intros Hb.
  - simpl in Hb. unfold tables_mode in Hb.
    destruct (tables_fold_output _ _ _ _ Hb) as [Hin | (t & Ht & Hrow)];
      [by apply elem_of_nil in Hin |].
    unfold rows in Hrow. apply Py_facts.range_spec in Hrow as (k & Hk & Heq & Hlt);
      [| destruct (type t); simpl; lia].
    pose proof (pointer_tables_start t Ht).
    assert (0 <= entry_size (type t)) by (destruct (type t); simpl; lia).
    nia.
  - simpl in Hb. unfold scan_mode in Hb.
    destruct (scan_fold_output _ _ _ _ Hb) as [Hin | (p & Hp & Hptr)];
      [by apply elem_of_nil in Hin |].
    apply all_pointers_offsets, scan_offsets_exactly in Hp. lia.
Qed.

Lemma run_read_back (m : mode) (rom : bytes) (linesep file : str) :
  linesep = [10] \/ linesep = [13; 10] ->
  (forall b text_string, b ∈ output_file (main m rom) -> contents b = Text text_string ->
     no_blank_line text_string /\ (13 ∉ text_string) /\ match_duplicate text_string = None) ->
  Output.file linesep (output_file (main m rom)) = Some file ->
  parse_text_file file = map entry_of_block (output_file (main m rom)).
Proof.
  intros Hl Htext Hf. apply (blocks_read_back linesep _ file Hl); [| exact Hf].
  intros b Hb. unfold readable.
  split; [exact (block_id_nonneg rom _ b (inv_main m rom) Hb) |].
  split; [exact (block_pointer_nonneg m rom b Hb) |].
  split.
  - destruct (linked_backed _ _ (linked_main m rom) b Hb) as [_ [Hmin _]].
    unfold OFFSET_MIN_VALID in Hmin. lia.
  - destruct (contents b) as [t | o] eqn:Hc.
    + exact (Htext b t Hb Hc).
    + destruct (inv_dup _ _ (inv_main m rom) b o Hb Hc). lia.
Qed.

(** X23.  In both modes the export file of a run is read back by
    [parse_text_file] block for block, provided that no text of the
    run has a blank line inside, ends with a line feed, holds a
    carriage return or starts like a duplicate reference: the
    identifiers, the offsets and the duplicate references that a run
    writes are never negative. *)
Theorem export_of_run_read_back (m : mode) (rom : bytes) (linesep file : str) :
  linesep = [10] \/ linesep = [13; 10] ->
  (forall b text_string, b ∈ output_file (main m rom) -> contents b = Text text_string ->
     no_blank_line text_string /\ (13 ∉ text_string) /\ match_duplicate text_string = None) ->
  Output.file linesep (output_file (main m rom)) = Some file ->
  parse_text_file file = map entry_of_block (output_file (main m rom)).
Proof.
  intros Hl Htext Hf. exact (run_read_back m rom linesep file Hl Htext Hf).
Qed.

End WithTables.
End Pipeline_props.

(** ** dump.py, then repack.py *)

Module Restore_props.
Section WithTables.
Context {T : Tables}.
Import Dump_inv Dump_more_def Dump_more Dump_complete Codec_more.
Import Repack_more Repack_more2 Repack_more3 Pipeline_props Pipeline_def.

Lemma find_from_split (t : Z) (l : bytes) : forall i e,
  Py.find_from t l i = e -> e <> -1 -> 0 <= i ->
  exists k : nat, e = i + Z.of_nat k /\ l = take k l ++ t :: drop (S k) l /\ (t ∉ take k l).
Proof.
  induction l as [| x l IH]; intros i e Hf He Hi; simpl in Hf; [congruence |].
  destruct (x =? t) eqn:Hx.
  - apply Z.eqb_eq in Hx. subst x. exists 0%nat. simpl. rewrite drop_0.
    split; [lia |]. split; [done | apply not_elem_of_nil].
  - apply Z.eqb_neq in Hx.
    destruct (IH (i + 1) e Hf He ltac:(lia)) as (k & Hk & Hl & Hnot).
    exists (S k). simpl. split; [lia |]. split; [by rewrite <- Hl |].
    apply not_elem_of_cons. split; [congruence | done].
Qed.

Lemma chunk_split (rom : bytes) (off : Z) :
  0 <= off < Py.len rom -> Py.find rom terminator off <> -1 ->
  exists pre rest,
    rom = pre ++ chunk_at rom off ++ terminator :: rest
    /\ Py.len pre = off /\ (terminator ∉ chunk_at rom off).
Proof.
  intros Hoff Hfind. unfold chunk_at. unfold Py.find in *.
  rewrite Codec_claims.slice_index_nonneg in * by lia.
  replace (Z.min off (Py.len rom)) with off in * by lia.
  destruct (find_from_split terminator (drop (Z.to_nat off) rom) off _ eq_refl Hfind
              ltac:(lia)) as (k & Hk & Hl & Hnot).
  rewrite Hk.
  assert (Hslice : Py.slice rom off (off + Z.of_nat k) = take k (drop (Z.to_nat off) rom)).
  { unfold Py.slice. rewrite !Codec_claims.slice_index_nonneg by lia.
    assert (Hlen : (k < length (drop (Z.to_nat off) rom))%nat).
    { pose proof (f_equal length Hl) as Hl'.
      rewrite length_app, length_take in Hl'. cbn [length] in Hl'. lia. }
    rewrite length_drop in Hlen. unfold Py.len in *.
    replace (Z.min off (Z.of_nat (length rom))) with off by lia.
    replace (Z.min (off + Z.of_nat k) (Z.of_nat (length rom))) with (off + Z.of_nat k) by lia.
    replace (off + Z.of_nat k - off) with (Z.of_nat k) by lia.
    by rewrite Nat2Z.id. }
  rewrite Hslice.
  exists (take (Z.to_nat off) rom), (drop (S k) (drop (Z.to_nat off) rom)).
  split; [| split].
  - rewrite <- Hl. by rewrite take_drop.
  - unfold Py.len in *. rewrite length_take. lia.
  - done.
Qed.

Lemma read_string_found (rom : bytes) (off : Z) (s : str) :
  Dump.read_string_from rom off terminator = Some s ->
  off < Py.len rom /\ Py.find rom terminator off <> -1.
Proof.
  unfold Dump.read_string_from.
  destruct (Py.len rom <=? off) eqn:Hlen; [done |]. apply Z.leb_gt in Hlen.
  destruct (Py.find rom terminator off =? -1) eqn:Hf; [done |]. apply Z.eqb_neq in Hf.
  done.
Qed.

Lemma place_clean (rom : bytes) (st : Repack.state) (b : Dump.block) :
  tables_agree T -> Repack.rom_data st = rom -> clean rom b ->
  Repack.place st (entry_of_block b)
  = Repack.Continue
      {| Repack.rom_data := rom;
         Repack.current_free_space_offset := Repack.current_free_space_offset st;
         Repack.repointed_locations :=
           match Dump.contents b with
           | Dump.Text _ => <[Dump.id b := Dump.text_offset b]> (Repack.repointed_locations st)
           | Dump.DuplicateOf _ => Repack.repointed_locations st
           end |}.
Proof.
  intros Hagree Hrom Hclean. unfold clean in Hclean.
  destruct (Dump.contents b) as [s | o] eqn:Hc.
  - destruct (Hclean s eq_refl) as (Hoff & Hread & Hdec & Hno).
    destruct (read_string_found _ _ _ Hread) as [Hlt Hfind].
    destruct (chunk_split rom (Dump.text_offset b) ltac:(lia) Hfind)
      as (pre & rest & Hsplit & Hpre & Hnot).
    rewrite (place_unedited st (entry_of_block b) s pre
               (chunk_at rom (Dump.text_offset b)) rest Hagree); try done.
    + simpl. by rewrite Hrom, Hpre.
    + by rewrite Hrom.
    + unfold entry_of_block. simpl. by rewrite Hc, Hpre.
  - unfold Repack.place, entry_of_block. simpl. rewrite Hc. subst rom. by destruct st.
Qed.

Lemma first_pass_clean (rom : bytes) (bs : list Dump.block) : forall st,
  tables_agree T -> Repack.rom_data st = rom ->
  (forall b, b ∈ bs -> clean rom b) ->
  exists st',
    Repack.first_pass (map entry_of_block bs) st = Repack.Continue st'
    /\ Repack.rom_data st' = rom
    /\ (forall i loc, Repack.repointed_locations st' !! i = Some loc ->
          Repack.repointed_locations st !! i = Some loc
          \/ exists b s, b ∈ bs /\ Dump.contents b = Dump.Text s
               /\ Dump.id b = i /\ Dump.text_offset b = loc)
    /\ (forall i, is_Some (Repack.repointed_locations st !! i) ->
          is_Some (Repack.repointed_locations st' !! i))
    /\ (forall b s, b ∈ bs -> Dump.contents b = Dump.Text s ->
          is_Some (Repack.repointed_locations st' !! Dump.id b)).
Proof.
  induction bs as [| b bs IH]; intros st Hagree Hrom Hclean.
  - exists st. split; [done |]. split; [done |]. split; [by left |]. split; [done |].
    intros b s Hb. by apply elem_of_nil in Hb.
  - assert (Hb : clean rom b) by (apply Hclean; by left).
    pose proof (place_clean rom st b Hagree Hrom Hb) as Hplace.
    set (st1 := {| Repack.rom_data := rom;
                   Repack.current_free_space_offset := Repack.current_free_space_offset st;
                   Repack.repointed_locations :=
                     match Dump.contents b with
                     | Dump.Text _ =>
                       <[Dump.id b := Dump.text_offset b]> (Repack.repointed_locations st)
                     | Dump.DuplicateOf _ => Repack.repointed_locations st
                     end |}) in *.
    destruct (IH st1 Hagree eq_refl) as (st' & Hpass & Hrom' & Hfrom & Hkeep & Hin).
    { intros b' Hb'. apply Hclean. by right. }
    exists st'. split; [| split; [done | split; [| split]]].
    + unfold Repack.first_pass in *. cbn [map Repack.pass]. by rewrite Hplace.
    + intros i loc Hi. destruct (Hfrom i loc Hi) as [H1 | (b' & s & Hb' & Hc & Hid & Hoff)].
      * unfold st1 in H1. cbn [Repack.repointed_locations] in H1.
        destruct (Dump.contents b) as [s | o] eqn:Hc; [| by left].
        destruct (decide (Dump.id b = i)) as [Heq | Hne].
        -- rewrite Heq, lookup_insert_eq in H1. injection H1 as <-.
           right. exists b, s. split; [by left | done].
        -- rewrite lookup_insert_ne in H1 by done. by left.
      * right. exists b', s. split; [by right | done].
    + intros i Hi. apply Hkeep. unfold st1. cbn [Repack.repointed_locations].
      destruct (Dump.contents b); [| done].
      destruct (decide (Dump.id b = i)) as [Heq | Hne].
      * rewrite Heq, lookup_insert_eq. by eexists.
      * by rewrite lookup_insert_ne.
    + intros b' s Hb' Hc'. apply elem_of_cons in Hb' as [-> | Hb'].
      * apply Hkeep. unfold st1. cbn [Repack.repointed_locations]. rewrite Hc'.
        rewrite lookup_insert_eq. by eexists.
      * by apply (Hin b' s).
Qed.

Lemma pack_unpack (w : bytes) (v : Z) :
  (forall x, x ∈ w -> 0 <= x < 256) -> Py.unpack_u32 w = Some v -> Py.pack_u32 v = Some w.
Proof.
  intros Hw Hv.
  destruct w as [| b0 [| b1 [| b2 [| b3 [| ? ?]]]]]; try done.
  simpl in Hv. injection Hv as <-.
  assert (H0 : 0 <= b0 < 256) by (apply Hw; left).
  assert (H1 : 0 <= b1 < 256) by (apply Hw; right; left).
  assert (H2 : 0 <= b2 < 256) by (apply Hw; right; right; left).
  assert (H3 : 0 <= b3 < 256) by (apply Hw; right; right; right; left).
  unfold Py.pack_u32.
  set (v := b0 + 256 * b1 + 65536 * b2 + 16777216 * b3).
  assert (Hr : (0 <=? v) && (v <? 4294967296) = true) by (unfold v; lia).
  rewrite Hr. f_equal.
  assert (E0 : v mod 256 = b0).
  { unfold v. symmetry. apply (Z.mod_unique _ _ (b1 + 256 * b2 + 65536 * b3)); lia. }
  assert (Q0 : v / 256 = b1 + 256 * b2 + 65536 * b3).
  { unfold v. symmetry. apply (Z.div_unique _ _ _ b0); lia. }
  assert (E1 : (v / 256) mod 256 = b1).
  { rewrite Q0. symmetry. apply (Z.mod_unique _ _ (b2 + 256 * b3)); lia. }
  assert (Q1 : v / 65536 = b2 + 256 * b3).
  { unfold v. symmetry. apply (Z.div_unique _ _ _ (b0 + 256 * b1)); lia. }
  assert (E2 : (v / 65536) mod 256 = b2).
  { rewrite Q1. symmetry. apply (Z.mod_unique _ _ b3); lia. }
  assert (E3 : v / 16777216 = b3).
  { unfold v. symmetry. apply (Z.div_unique _ _ _ (b0 + 256 * b1 + 65536 * b2)); lia. }
  by rewrite E0, E1, E2, E3.
Qed.

Lemma slice_split {A} (l : list A) (o : Z) :
  0 <= o -> length (Py.slice l o (o + 4)) = 4%nat ->
  exists pre rest, l = pre ++ Py.slice l o (o + 4) ++ rest /\ Py.len pre = o.
Proof.
  intros Ho Hlen. pose proof Hlen as Hlen'.
  apply slice_length_four in Hlen'; [| done].
  exists (take (Z.to_nat o) l), (drop (Z.to_nat o + 4) l).
  split.
  - unfold Py.slice. rewrite !Codec_claims.slice_index_nonneg by lia.
    unfold Py.len in *.
    replace (Z.min o (Z.of_nat (length l))) with o by lia.
    replace (Z.min (o + 4) (Z.of_nat (length l))) with (o + 4) by lia.
    replace (Z.to_nat (o + 4 - o)) with 4%nat by lia.
    rewrite <- drop_drop, !take_drop. done.
  - unfold Py.len in *. rewrite length_take. lia.
Qed.

Lemma patch_backed (rom : bytes) (st : Repack.state) (b : Dump.block) :
  (forall x, x ∈ rom -> 0 <= x < 256) ->
  Repack.rom_data st = rom -> backed rom b -> 0 <= Dump.pointer_offset b ->
  Repack.repointed_locations st
    !! (match Dump.contents b with
        | Dump.Text _ => Dump.id b
        | Dump.DuplicateOf o => o
        end) = Some (Dump.text_offset b) ->
  Repack.patch st (entry_of_block b) = Repack.Continue st.
Proof.
  intros Hbytes Hrom [Hword _] Hptr Hloc.
  assert (Hlen : length (Py.slice rom (Dump.pointer_offset b) (Dump.pointer_offset b + 4))
                 = 4%nat) by (by apply unpack_u32_length in Hword).
  destruct (slice_split rom _ Hptr Hlen) as (pre & rest & Hsplit & Hpre).
  set (w := Py.slice rom (Dump.pointer_offset b) (Dump.pointer_offset b + 4)) in *.
  assert (Hpack : Py.pack_u32 (0x08000000 + Dump.text_offset b) = Some w).
  { apply pack_unpack; [| done]. intros x Hx. apply Hbytes.
    rewrite Hsplit. apply elem_of_app. right. apply elem_of_app. by left. }
  unfold Repack.patch, entry_of_block. cbn [Repack.data Repack.id Repack.pointer_offset].
  assert (Ht : match match Dump.contents b with
                     | Dump.Text text_string => Repack.Original (Dump.text_offset b) text_string
                     | Dump.DuplicateOf original_id => Repack.Duplicate original_id
                     end with
               | Repack.Duplicate original_id => original_id
               | Repack.Original _ _ => Dump.id b
               end
               = match Dump.contents b with
                 | Dump.Text _ => Dump.id b
                 | Dump.DuplicateOf o => o
                 end) by (by destruct (Dump.contents b)).
  rewrite Ht, Hloc, Hpack, Hrom.
  assert (Hsame : Py.slice_assign rom (Dump.pointer_offset b) (Dump.pointer_offset b + 4) w
                  = rom).
  { rewrite Hsplit at 1. rewrite <- Hpre.
    replace 4 with (Py.len w) by (unfold Py.len; rewrite Hlen; done).
    rewrite slice_assign_inside by done. by rewrite <- Hsplit. }
  rewrite Hsame. subst rom. by destruct st.
Qed.

Lemma second_pass_backed (rom : bytes) (bs : list Dump.block) (st : Repack.state) :
  (forall x, x ∈ rom -> 0 <= x < 256) ->
  Repack.rom_data st = rom ->
  (forall b, b ∈ bs ->
     backed rom b /\ 0 <= Dump.pointer_offset b
     /\ Repack.repointed_locations st
          !! (match Dump.contents b with
              | Dump.Text _ => Dump.id b
              | Dump.DuplicateOf o => o
              end) = Some (Dump.text_offset b)) ->
  Repack.second_pass (map entry_of_block bs) st = Repack.Continue st.
Proof.
  intros Hbytes Hrom. unfold Repack.second_pass.
  induction bs as [| b bs IH]; intros Hbs; [done |].
  cbn [map Repack.pass].
  destruct (Hbs b ltac:(by left)) as (Hback & Hptr & Hloc).
  rewrite (patch_backed rom st b Hbytes Hrom Hback Hptr Hloc).
  apply IH. intros b' Hb'. apply Hbs. by right.
Qed.

Lemma restore (m : Dump.mode) (rom : bytes) :
  tables_agree T ->
  (forall x, x ∈ rom -> 0 <= x < 256) ->
  (forall b s, b ∈ Dump.output_file (Dump.main m rom) -> Dump.contents b = Dump.Text s ->
     Codec.decode Codec.strict (chunk_at rom (Dump.text_offset b)) = Some s
     /\ Repack_codec.has_hex_tag s = false) ->
  Repack.main rom (map entry_of_block (Dump.output_file (Dump.main m rom))) = Some rom.
Proof.
  intros Hagree Hbytes Htext.
  pose proof (inv_main m rom) as Hinv. pose proof (linked_main m rom) as Hlink.
  set (blocks := Dump.output_file (Dump.main m rom)) in *.
  assert (Hclean : forall b, b ∈ blocks -> clean rom b).
  { intros b Hb s Hc. destruct (Htext b s Hb Hc) as [Hdec Hno].
    destruct (linked_backed _ _ Hlink b Hb) as [_ [Hmin _]].
    split; [unfold Dump.OFFSET_MIN_VALID in Hmin; lia |].
    split; [exact (linked_decodes _ _ Hlink b s Hb Hc) | done]. }
  destruct (first_pass_clean rom blocks (Repack.initial rom) Hagree eq_refl Hclean)
    as (st' & Hpass & Hrom' & Hfrom & _ & Hin).
  assert (Hloc : forall b s, b ∈ blocks -> Dump.contents b = Dump.Text s ->
            Repack.repointed_locations st' !! Dump.id b = Some (Dump.text_offset b)).
  { intros b s Hb Hc. destruct (Hin b s Hb Hc) as [loc Hl].
    destruct (Hfrom _ _ Hl) as [H0 | (b' & s' & Hb' & _ & Hid & Hoff)].
    - simpl in H0. by rewrite lookup_empty in H0.
    - rewrite Hl. f_equal.
      by rewrite <- (same_id_same_block rom _ b' b Hinv Hb' Hb Hid). }
  unfold Repack.main. rewrite Hpass.
  rewrite (second_pass_backed rom blocks st' Hbytes Hrom'); [by rewrite Hrom' |].
  intros b Hb. split; [exact (linked_backed _ _ Hlink b Hb) |].
  split; [exact (block_pointer_nonneg m rom b Hb) |].
  destruct (Dump.contents b) as [s | o] eqn:Hc.
  - by apply (Hloc b s).
  - destruct (Dump.inv_seen_text _ _ Hinv (Dump.text_offset b) o
                (linked_duplicate _ _ Hlink b o Hb Hc)) as (ptr & s & Hcanon).
    exact (Hloc _ s Hcanon eq_refl).
Qed.



End WithTables.
End Restore_props.

(** ** The further properties on examples *)

Module Dump_more_examples.
Import Dump Dump_inv Dump_more_def Dump_more Dump_complete Examples Examples_more.

#[local] Existing Instance sample_tables.

Lemma two_rows_tables_output :
  output_file (main tables rom_two_rows) = [first_block; second_block].
Proof. vm_compute. reflexivity. Qed.

Lemma first_block_written : first_block ∈ output_file (main tables rom_two_rows).
Proof. rewrite two_rows_tables_output. left. Qed.

Lemma second_block_written : second_block ∈ output_file (main tables rom_two_rows).
Proof. rewrite two_rows_tables_output. right. left. Qed.

Lemma one_text_block_witness :
  hd second_block (output_file (main tables rom_two_rows)) = first_block.
Proof.
  apply (one_text_block_per_offset tables rom_two_rows
           (hd second_block (output_file (main tables rom_two_rows))) first_block
           [72; 101; 108; 108; 111] [72; 101; 108; 108; 111]).
  - rewrite two_rows_tables_output. left.
  - exact first_block_written.
  - rewrite two_rows_tables_output. reflexivity.
  - reflexivity.
  - rewrite two_rows_tables_output. reflexivity.
Defined.

Lemma duplicate_refers_witness :
  exists ptr s,
    {| id := 0; pointer_offset := ptr; text_offset := 0x10F498; contents := Text s |}
      ∈ output_file (main tables rom_two_rows)
    /\ read_string_from rom_two_rows 0x10F498 terminator = Some s
    /\ 0 < 1.
Proof.
  apply (duplicate_refers_to_canonical tables rom_two_rows second_block 0).
  - exact second_block_written.
  - reflexivity.
Defined.

Lemma block_on_pointer_witness :
  Py.unpack_u32 (Py.slice rom_two_rows 0x10F488 (0x10F488 + 4)) = Some (0x08000000 + 0x10F498)
  /\ OFFSET_MIN_VALID <= 0x10F498 < Py.len rom_two_rows
  /\ is_valid_string (read_string_from rom_two_rows 0x10F498 terminator) = true
  /\ forall s, contents first_block = Text s ->
       read_string_from rom_two_rows 0x10F498 terminator = Some s.
Proof.
  apply (block_stands_on_pointer tables rom_two_rows first_block).
  exact first_block_written.
Defined.

Lemma scan_finds_witness :
  exists b, b ∈ output_file (main scan rom_two_rows)
    /\ pointer_offset b = 0x10F488 /\ text_offset b = 0x0810F498 - 0x08000000.
Proof.
  apply (scan_finds_valid_pointer rom_two_rows 0x10F488 0x0810F498).
  - lia.
  - reflexivity.
  - vm_compute. reflexivity.
  - vm_compute. reflexivity.
  - reflexivity.
  - vm_compute. split; [discriminate | reflexivity].
  - vm_compute. reflexivity.
Defined.

Lemma tables_block_witness :
  exists t k,
    t ∈ pointer_tables /\ 0 <= k
    /\ pointer_offset first_block = start t + k * entry_size (type t)
    /\ pointer_offset first_block < end_ t.
Proof.
  apply (tables_block_from_row rom_two_rows first_block).
  exact first_block_written.
Defined.

Lemma tables_finds_witness :
  exists b, b ∈ output_file (main tables rom_two_rows)
    /\ pointer_offset b = 0x10F488 /\ text_offset b = 0x0810F498 - 0x08000000.
Proof.
  apply (tables_finds_valid_pointer rom_two_rows
           {| start := 0x10F488; end_ := 0x10FE50; type := standard |} 0 0x10F488 0x0810F498).
  - left.
  - lia.
  - reflexivity.
  - reflexivity.
  - vm_compute. reflexivity.
  - reflexivity.
  - vm_compute. split; [discriminate | reflexivity].
  - vm_compute. reflexivity.
Defined.

End Dump_more_examples.

Module Filter_examples.
Import Dump Filter_props.

#[local] Existing Instance sample_tables.

Lemma accepted_text_witness :
  2 <= Py.len (Py.strip [72; 101; 108; 108; 111]) /\ Py.len [72; 101; 108; 108; 111] <= 1024
  /\ 100 * Py.len (List.filter (fun c => (c <? 0x20) && negb ((c =? 10) || (c =? 13) || (c =? 9)))
                     [72; 101; 108; 108; 111])
     <= 5 * Py.len [72; 101; 108; 108; 111]
  /\ (2 <= Py.len (List.filter japanese [72; 101; 108; 108; 111])
      \/ 3 <= Py.len (List.filter latin_digit [72; 101; 108; 108; 111]))
  /\ 55 * Py.len [72; 101; 108; 108; 111]
     <= 100 * Py.len (List.filter printable [72; 101; 108; 108; 111])
  /\ (findall_replacement_token [72; 101; 108; 108; 111] 0 = []
      \/ 100 * Py.len (concat (findall_replacement_token [72; 101; 108; 108; 111] 0))
         <= 15 * Py.len [72; 101; 108; 108; 111]).
Proof.
  apply (accepted_text_passes_gates [72; 101; 108; 108; 111]).
  vm_compute. reflexivity.
Defined.

Lemma repeated_character_witness :
  is_valid_string (Some (replicate 5 65)) = false.
Proof.
  apply (repeated_character_rejected 65 5). reflexivity.
Defined.

Lemma japanese_text_witness :
  is_valid_string (Some [0x3042; 0x3044]) = true.
Proof.
  apply (japanese_text_accepted [0x3042; 0x3044]).
  - reflexivity.
  - vm_compute. split; discriminate.
Defined.

End Filter_examples.

Module Codec_more_examples.
Import Codec Repack_codec Dump Codec_more Token_props Escape_def Escape_props.

#[local] Existing Instance sample_tables.

Lemma read_string_witness :
  read_string_from ([1; 2] ++ [72; 105] ++ 0 :: [9]) (Py.len [1; 2]) 0
    = decode custom_sjis_error_handler [72; 105]
  /\ is_Some (read_string_from ([1; 2] ++ [72; 105] ++ 0 :: [9]) (Py.len [1; 2]) 0).
Proof.
  apply (read_string_reads_to_terminator [1; 2] [72; 105] [9] 0).
  compute_done.
Defined.

Lemma encoded_ends_witness :
  exists b', [72; 105; 0] = b' ++ [terminator] /\ 1 <= Py.len [72; 105; 0].
Proof.
  apply (encoded_ends_with_terminator [72; 105] [72; 105; 0]).
  vm_compute. reflexivity.
Defined.

Lemma token_reencoded_witness :
  encode_string [60; 36; 70; 70; 36; 62]
  = {| warnings := [];
       value := Some ([0xFF] ++ Py.hex_upper [0xFF] ++ [terminator]) |}.
Proof.
  apply (token_reencoded_with_digits [0xFF] [60; 36; 70; 70; 36; 62]).
  - discriminate.
  - intros x Hx. apply list_elem_of_singleton in Hx. subst x. lia.
  - reflexivity.
Defined.

Lemma undecodable_run_witness :
  read_string_from ([] ++ [0xFF; 0xFE] ++ terminator :: []) (Py.len (@nil Z)) terminator
    = Some (flat_map token [0xFF; 0xFE])
  /\ is_valid_string
       (read_string_from ([] ++ [0xFF; 0xFE] ++ terminator :: []) (Py.len (@nil Z)) terminator)
     = false.
Proof.
  apply (undecodable_run_rejected [] [0xFF; 0xFE] []).
  - intros c Hc. apply elem_of_cons in Hc. destruct Hc as [-> | Hc]; [lia |].
    apply list_elem_of_singleton in Hc. subst c. lia.
  - reflexivity.
Defined.

End Codec_more_examples.

Module Repack_more_examples.
Import Repack Repack_props Codec_more Repack_more Repack_more2 Repack_more3 Repack_more_def.
Import Examples Examples_more.

#[local] Existing Instance sample_tables.

Lemma fitting_text_witness :
  place small_image entry_shorter
  = Continue
      {| rom_data := [9] ++ [72; 105; 0]
           ++ replicate (length [65; 66; 67] + 1 - length [72; 105; 0]) terminator ++ [7];
         current_free_space_offset := current_free_space_offset small_image;
         repointed_locations := <[id entry_shorter := Py.len [9]]> (repointed_locations small_image) |}.
Proof.
  apply (fitting_text_written_in_place small_image entry_shorter [72; 105]
           [9] [65; 66; 67] [7] [72; 105; 0]).
  - reflexivity.
  - compute_done.
  - reflexivity.
  - vm_compute. reflexivity.
  - vm_compute. discriminate.
Defined.

Lemma long_text_witness :
  exists st',
    place short_image entry_longer = Continue st'
    /\ current_free_space_offset st'
       = current_free_space_offset short_image + Py.len [65; 66; 67; 0]
    /\ repointed_locations st'
       = <[id entry_longer := current_free_space_offset short_image]>
           (repointed_locations short_image)
    /\ (forall pre old rest,
          rom_data short_image = pre ++ old ++ rest ->
          Py.len pre = current_free_space_offset short_image ->
          length old = length [65; 66; 67; 0] ->
          rom_data st' = pre ++ [65; 66; 67; 0] ++ rest)
    /\ (Py.len (rom_data short_image) <= current_free_space_offset short_image ->
          rom_data st' = rom_data short_image ++ [65; 66; 67; 0]).
Proof.
  apply (long_text_moved_to_free_space short_image entry_longer 0 [65; 66; 67] [65; 66; 67; 0]).
  - reflexivity.
  - vm_compute. reflexivity.
  - vm_compute. reflexivity.
  - vm_compute. discriminate.
  - vm_compute. discriminate.
Defined.


Lemma first_pass_shared_tail :
  first_pass [entry_whole; entry_copy] (initial rom_shared_tail) = Continue after_first_pass.
Proof. vm_compute. reflexivity. Qed.

Lemma location_recorded_witness :
  is_Some (repointed_locations after_first_pass !! 0)
  <-> exists e, e ∈ [entry_whole; entry_copy] /\ is_duplicate e = false /\ id e = 0.
Proof.
  apply (location_recorded_for_each_original rom_shared_tail [entry_whole; entry_copy]
           after_first_pass 0).
  exact first_pass_shared_tail.
Defined.

Lemma pointer_rewritten_witness :
  exists word,
    patch after_first_pass entry_copy
    = Continue {| rom_data := [65; 66; 0; 0; 0; 0; 0; 9; 9; 9; 9] ++ word ++ [];
                  current_free_space_offset := current_free_space_offset after_first_pass;
                  repointed_locations := repointed_locations after_first_pass |}
    /\ Py.unpack_u32 word = Some (0x08000000 + 0)
    /\ length word = 4%nat.
Proof.
  apply (pointer_rewritten after_first_pass entry_copy 0
           [65; 66; 0; 0; 0; 0; 0; 9; 9; 9; 9] [9; 9; 9; 9] []).
  - vm_compute. reflexivity.
  - lia.
  - reflexivity.
  - reflexivity.
  - reflexivity.
Defined.

Lemma zeros_place (n : nat) :
  (17 <= n)%nat ->
  place (initial (replicate n 0)) entry_empty
  = Continue {| rom_data := replicate n 0;
                current_free_space_offset := free_space_start_offset;
                repointed_locations := {[ 0 := 16 ]} |}.
Proof.
  intros Hn.
  assert (Hz : replicate n 0 = replicate 16 0 ++ [] ++ terminator :: replicate (n - 17) 0).
  { replace n with (16 + S (n - 17))%nat at 1 by lia. rewrite replicate_add. reflexivity. }
  rewrite (place_fitting (initial (replicate n 0)) entry_empty []
             (replicate 16 0) [] (replicate (n - 17) 0) [terminator]).
  - f_equal. unfold initial. cbn [current_free_space_offset repointed_locations].
    f_equal. symmetry. exact Hz.
  - exact Hz.
  - apply not_elem_of_nil.
  - reflexivity.
  - reflexivity.
  - reflexivity.
Qed.

Lemma zeros_main (n : nat) :
  (17 <= n)%nat ->
  main (replicate n 0) [entry_empty]
  = Some (replicate 8 0 ++ [16; 0; 0; 8] ++ replicate (n - 12) 0).
Proof.
  intros Hn.
  unfold main, first_pass, second_pass. cbn [pass]. rewrite zeros_place by exact Hn.
  cbn [pass]. unfold patch. cbn [data entry_empty id repointed_locations].
  rewrite lookup_singleton_eq. cbn [rom_data pointer_offset].
  change (Py.pack_u32 (0x08000000 + 16)) with (Some [16; 0; 0; 8]).
  cbv iota beta. f_equal.
  replace n with (8 + (4 + (n - 12)))%nat at 1 by lia.
  rewrite !replicate_add.
  apply (slice_assign_inside (replicate 8 0) (replicate 4 0) (replicate (n - 12) 0) [16; 0; 0; 8]).
  reflexivity.
Qed.

Lemma zero_image_main :
  main zero_image [entry_empty]
  = Some (replicate 8 0 ++ [16; 0; 0; 8] ++ replicate (Z.to_nat 0x800000 - 12) 0).
Proof. apply zeros_main. lia. Qed.

Lemma image_size_witness :
  Py.len (replicate 8 0 ++ [16; 0; 0; 8] ++ replicate (Z.to_nat 0x800000 - 12) 0)
  = Py.len zero_image.
Proof.
  apply (image_size_kept zero_image [entry_empty]).
  - unfold Py.len, zero_image. rewrite length_replicate. unfold ROM_END_OFFSET. lia.
  - intros e He. apply list_elem_of_singleton in He. subst e.
    unfold Py.len, zero_image. rewrite length_replicate. cbn [pointer_offset entry_empty data].
    split; [lia |]. split; [lia |].
    intros off text Hd. injection Hd as <- _. lia.
  - exact zero_image_main.
Defined.

End Repack_more_examples.

Module Export_examples.
Import Output Parse Export_def Export_props Pipeline_props Pipeline_def Restore_props Examples Examples_more.

#[local] Existing Instance sample_decimals.
#[local] Existing Instance sample_tables.

Lemma text_no_blank_line (t : str) : forallb (fun c => negb (c =? 10)) t = true -> no_blank_line t.
Proof.
  intros H. apply blank_line_none. intros Hin.
  rewrite forallb_forall in H. apply list_elem_of_In, H in Hin. discriminate Hin.
Qed.

Lemma first_block_readable : readable first_block.
Proof.
  unfold readable. cbn. split; [lia |]. split; [lia |]. split; [lia |].
  split; [by apply text_no_blank_line |]. split; [compute_done | reflexivity].
Qed.

Lemma second_block_readable : readable second_block.
Proof.
  unfold readable. cbn. split; [lia |]. split; [lia |]. split; lia.
Qed.



Lemma carriage_return_parsed :
  parse_text_file carriage_return_file = [carriage_return_entry].
Proof. vm_compute. reflexivity. Qed.

Lemma parsed_text_witness :
  no_blank_line [97; 10; 98] /\ (13 ∉ [97; 10; 98]).
Proof.
  apply (parsed_text_has_no_blank_line carriage_return_file carriage_return_entry
           0x10F4B8 [97; 10; 98]).
  - rewrite carriage_return_parsed. left.
  - reflexivity.
Defined.

Lemma export_of_run_witness :
  parse_text_file two_blocks_file
  = map entry_of_block (Dump.output_file (Dump.main Dump.tables rom_two_rows)).
Proof.
  apply (export_of_run_read_back Dump.tables rom_two_rows [13; 10] two_blocks_file).
  - right. reflexivity.
  - intros b t Hb Hc. rewrite Dump_more_examples.two_rows_tables_output in Hb.
    apply elem_of_cons in Hb. destruct Hb as [-> | Hb].
    + injection Hc as <-.
      split; [by apply text_no_blank_line |]. split; [compute_done | reflexivity].
    + apply list_elem_of_singleton in Hb. subst b. discriminate Hc.
  - rewrite Dump_more_examples.two_rows_tables_output. vm_compute. reflexivity.
Defined.

Lemma two_rows_bytes : forall x, x ∈ rom_two_rows -> 0 <= x < 256.
Proof.
  intros x Hx. unfold rom_two_rows, hello in Hx.
  apply elem_of_app in Hx as [Hx | Hx].
  - apply list_elem_of_In, repeat_spec in Hx. lia.
  - cbn [app] in Hx.
    repeat (apply elem_of_cons in Hx as [-> | Hx]; [lia |]). by apply elem_of_nil in Hx.
Qed.



End Export_examples.
